(** * UZH event backend: a shallow embedding of the event, registration and
    account handlers, and the properties they are specified to have.

    Layout: the embedding of the TypeScript sources comes first (strings,
    the JSON text codec behind [eventImageStorage], the event routes, the
    account routes), then the lemmas and theorems about it. *)

From Stdlib Require Import NArith ZArith String Ascii List Bool Lia.
From stdpp Require Import gmap list sorting.
Import ListNotations.

Set Warnings "-register-all".
Local Open Scope N_scope.

(* ===================================================================== *)
(** * JavaScript strings *)
(* ===================================================================== *)

(** A JavaScript string is a finite sequence of UTF-16 code units; a code
    unit is kept as its number.  [s === t] on strings is equality of the
    sequences, [s.length] is [length s], and the empty string is the only
    falsy one. *)
Abbreviation jsstring := (list N).

(** Code units of an ASCII literal of the source. *)
Definition units (s : string) : jsstring :=
  map N_of_ascii (list_ascii_of_string s).

(** [!s] and [Boolean(s)] on a string. *)
Definition is_empty (s : jsstring) : bool :=
  match s with [] => true | _ :: _ => false end.

Definition truthy (s : jsstring) : bool := negb (is_empty s).

(** [a || b] on strings. *)
Definition or_else (a b : jsstring) : jsstring :=
  if truthy a then a else b.

(** WhiteSpace and LineTerminator code points of ECMAScript, the ones
    [String.prototype.trim] strips and [\s] matches. *)
Definition is_js_space (c : N) : bool :=
  ((9 <=? c) && (c <=? 13)) || (c =? 32) || (c =? 160) || (c =? 5760)
  || ((8192 <=? c) && (c <=? 8202)) || (c =? 8232) || (c =? 8233)
  || (c =? 8239) || (c =? 8287) || (c =? 12288) || (c =? 65279).

Fixpoint trim_start (s : jsstring) : jsstring :=
  match s with
  | [] => []
  | c :: r => if is_js_space c then trim_start r else s
  end.

(** [s.trim()] *)
Definition trim (s : jsstring) : jsstring :=
  rev (trim_start (rev (trim_start s))).

(** [s.split(sep)] for a separator of one code unit: the pieces between
    the separators, in order; the empty string gives one empty piece. *)
Fixpoint split_on (sep : N) (s : jsstring) : list jsstring :=
  match s with
  | [] => [[]]
  | c :: r =>
      if c =? sep then [] :: split_on sep r
      else match split_on sep r with
           | seg :: segs => (c :: seg) :: segs
           | [] => [[c]]
           end
  end.

(** [l.join(sep)] *)
Fixpoint join (sep : jsstring) (l : list jsstring) : jsstring :=
  match l with
  | [] => []
  | [x] => x
  | x :: (_ :: _) as rest => x ++ sep ++ join sep rest
  end.

(** [s.split(/\s+/)]: the pieces between the maximal runs of white space.
    [in_gap] says that the code unit before was white space. *)
Fixpoint split_spaces (in_gap : bool) (s : jsstring) : list jsstring :=
  match s with
  | [] => [[]]
  | c :: r =>
      if is_js_space c then
        if in_gap then split_spaces true r else [] :: split_spaces true r
      else match split_spaces false r with
           | seg :: segs => (c :: seg) :: segs
           | [] => [[c]]
           end
  end.

(** [s || null] *)
Definition or_null (s : jsstring) : option jsstring :=
  if truthy s then Some s else None.

(* ===================================================================== *)
(** * JSON text: [JSON.stringify] on arrays of strings, [JSON.parse] *)
(* ===================================================================== *)

(** ** Writing *)

Definition hex_digit (d : N) : N := if d <? 10 then 48 + d else 87 + d.

(** UnicodeEscape: a backslash, [u], four lowercase hexadecimal digits. *)
Definition unicode_escape (c : N) : jsstring :=
  [92; 117; hex_digit (c / 4096 mod 16); hex_digit (c / 256 mod 16);
   hex_digit (c / 16 mod 16); hex_digit (c mod 16)].

Definition is_lead (c : N) : bool := (55296 <=? c) && (c <=? 56319).
Definition is_trail (c : N) : bool := (56320 <=? c) && (c <=? 57343).

(** One code point that is not a surrogate, as QuoteJSONString writes it:
    the short escapes of backspace, tab, line feed, form feed, carriage
    return, the double quote and the backslash; a unicode escape for the
    other control characters; everything else as it is. *)
Definition quote_unit (c : N) : jsstring :=
  if c =? 8 then [92; 98]
  else if c =? 9 then [92; 116]
  else if c =? 10 then [92; 110]
  else if c =? 12 then [92; 102]
  else if c =? 13 then [92; 114]
  else if c =? 34 then [92; 34]
  else if c =? 92 then [92; 92]
  else if c <? 32 then unicode_escape c
  else [c].

(** The text between the quotes.  A leading surrogate followed by a
    trailing one is one code point and is written as it is; a surrogate on
    its own is written as a unicode escape. *)
Fixpoint quote_body (s : jsstring) : jsstring :=
  match s with
  | [] => []
  | c :: r =>
      if is_lead c then
        match r with
        | d :: r' =>
            if is_trail d then c :: d :: quote_body r'
            else unicode_escape c ++ quote_body r
        | [] => unicode_escape c
        end
      else if is_trail c then unicode_escape c ++ quote_body r
      else quote_unit c ++ quote_body r
  end.

(** QuoteJSONString *)
Definition quote (s : jsstring) : jsstring := 34 :: quote_body s ++ [34].

(** The elements of an array and the closing bracket. *)
Fixpoint stringify_items (xs : list jsstring) : jsstring :=
  match xs with
  | [] => [93]
  | [x] => quote x ++ [93]
  | x :: (_ :: _) as rest => quote x ++ 44 :: stringify_items rest
  end.

(** [JSON.stringify(xs)] for [xs : string[]], without indentation. *)
Definition JSON_stringify (xs : list jsstring) : jsstring :=
  91 :: stringify_items xs.

(** ** Reading *)

(** The values [JSON.parse] builds.  A number is kept as its lexeme: no
    property below looks inside one. *)
Inductive json : Type :=
| JNull
| JBool (b : bool)
| JNum (lexeme : jsstring)
| JStr (s : jsstring)
| JArr (items : list json)
| JObj (members : list (jsstring * json)).

Definition is_json_ws (c : N) : bool :=
  (c =? 9) || (c =? 10) || (c =? 13) || (c =? 32).

Fixpoint skip_ws (s : jsstring) : jsstring :=
  match s with
  | [] => []
  | c :: r => if is_json_ws c then skip_ws r else s
  end.

Definition hex_value (c : N) : option N :=
  if (48 <=? c) && (c <=? 57) then Some (c - 48)
  else if (97 <=? c) && (c <=? 102) then Some (c - 87)
  else if (65 <=? c) && (c <=? 70) then Some (c - 55)
  else None.

Definition hex4 (a b c d : N) : option N :=
  match hex_value a, hex_value b, hex_value c, hex_value d with
  | Some x3, Some x2, Some x1, Some x0 =>
      Some (4096 * x3 + 256 * x2 + 16 * x1 + x0)
  | _, _, _, _ => None
  end.

(** The character after a backslash, [u] apart. *)
Definition simple_escape (e : N) : option N :=
  if e =? 34 then Some 34
  else if e =? 92 then Some 92
  else if e =? 47 then Some 47
  else if e =? 98 then Some 8
  else if e =? 102 then Some 12
  else if e =? 110 then Some 10
  else if e =? 114 then Some 13
  else if e =? 116 then Some 9
  else None.

Definition push_unit {A} (c : N) (r : option (jsstring * A))
  : option (jsstring * A) :=
  match r with
  | Some (s, rest) => Some (c :: s, rest)
  | None => None
  end.

(** The characters of a string literal after its opening quote, up to the
    closing one; the result is the string and the text that follows. *)
Fixpoint parse_chars (s : jsstring) : option (jsstring * jsstring) :=
  match s with
  | [] => None
  | c :: r =>
      if c =? 34 then Some ([], r)
      else if c =? 92 then
        match r with
        | [] => None
        | e :: r1 =>
            if e =? 117 then
              match r1 with
              | h1 :: h2 :: h3 :: h4 :: r2 =>
                  match hex4 h1 h2 h3 h4 with
                  | Some u => push_unit u (parse_chars r2)
                  | None => None
                  end
              | _ => None
              end
            else
              match simple_escape e with
              | Some u => push_unit u (parse_chars r1)
              | None => None
              end
        end
      else if c <? 32 then None
      else push_unit c (parse_chars r)
  end.

Definition is_digit (c : N) : bool := (48 <=? c) && (c <=? 57).

Fixpoint take_digits (s : jsstring) : jsstring * jsstring :=
  match s with
  | c :: r =>
      if is_digit c then let '(ds, rest) := take_digits r in (c :: ds, rest)
      else ([], s)
  | [] => ([], [])
  end.

(** The integer part: a single zero, or a non-zero digit and more digits. *)
Definition parse_int_part (s : jsstring) : option (jsstring * jsstring) :=
  match s with
  | c :: r =>
      if c =? 48 then Some ([48], r)
      else if is_digit c then
        let '(ds, rest) := take_digits r in Some (c :: ds, rest)
      else None
  | [] => None
  end.

Definition parse_frac_part (s : jsstring) : option (jsstring * jsstring) :=
  match s with
  | 46 :: r =>
      match take_digits r with
      | ([], _) => None
      | (ds, rest) => Some (46 :: ds, rest)
      end
  | _ => Some ([], s)
  end.

Definition parse_exp_part (s : jsstring) : option (jsstring * jsstring) :=
  match s with
  | e :: r =>
      if (e =? 101) || (e =? 69) then
        let '(sign, r1) :=
          match r with
          | g :: r' => if (g =? 43) || (g =? 45) then ([g], r') else ([], r)
          | [] => ([], r)
          end in
        match take_digits r1 with
        | ([], _) => None
        | (ds, rest) => Some (e :: sign ++ ds, rest)
        end
      else Some ([], s)
  | [] => Some ([], s)
  end.

Definition parse_number (s : jsstring) : option (jsstring * jsstring) :=
  let '(sign, r0) :=
    match s with
    | 45 :: r => ([45], r)
    | _ => ([], s)
    end in
  match parse_int_part r0 with
  | None => None
  | Some (i, r1) =>
      match parse_frac_part r1 with
      | None => None
      | Some (f, r2) =>
          match parse_exp_part r2 with
          | None => None
          | Some (e, r3) => Some (sign ++ i ++ f ++ e, r3)
          end
      end
  end.

Fixpoint strip_prefix (p s : jsstring) : option jsstring :=
  match p, s with
  | [], _ => Some s
  | a :: p', b :: s' => if a =? b then strip_prefix p' s' else None
  | _ :: _, [] => None
  end.

Definition parse_literal (s : jsstring) : option (json * jsstring) :=
  match strip_prefix (units "null") s with
  | Some r => Some (JNull, r)
  | None =>
      match strip_prefix (units "true") s with
      | Some r => Some (JBool true, r)
      | None =>
          match strip_prefix (units "false") s with
          | Some r => Some (JBool false, r)
          | None =>
              match parse_number s with
              | Some (n, r) => Some (JNum n, r)
              | None => None
              end
          end
      end
  end.

(** The recursive descent over values, array elements and object members.
    [fuel] bounds the depth of the calls; [JSON_parse] below gives it more
    than any text can use. *)
Fixpoint parse_value (fuel : nat) (s : jsstring) : option (json * jsstring) :=
  match fuel with
  | O => None
  | S fuel' =>
      match skip_ws s with
      | [] => None
      | c :: r =>
          if c =? 34 then
            match parse_chars r with
            | Some (str, rest) => Some (JStr str, rest)
            | None => None
            end
          else if c =? 91 then
            match skip_ws r with
            | d :: r' =>
                if d =? 93 then Some (JArr [], r')
                else match parse_items fuel' r with
                     | Some (vs, rest) => Some (JArr vs, rest)
                     | None => None
                     end
            | [] => None
            end
          else if c =? 123 then
            match skip_ws r with
            | d :: r' =>
                if d =? 125 then Some (JObj [], r')
                else match parse_members fuel' r with
                     | Some (kvs, rest) => Some (JObj kvs, rest)
                     | None => None
                     end
            | [] => None
            end
          else parse_literal (c :: r)
      end
  end
with parse_items (fuel : nat) (s : jsstring)
  : option (list json * jsstring) :=
  match fuel with
  | O => None
  | S fuel' =>
      match parse_value fuel' s with
      | None => None
      | Some (v, r) =>
          match skip_ws r with
          | c :: r' =>
              if c =? 44 then
                match parse_items fuel' r' with
                | Some (vs, rest) => Some (v :: vs, rest)
                | None => None
                end
              else if c =? 93 then Some ([v], r')
              else None
          | [] => None
          end
      end
  end
with parse_members (fuel : nat) (s : jsstring)
  : option (list (jsstring * json) * jsstring) :=
  match fuel with
  | O => None
  | S fuel' =>
      match skip_ws s with
      | q :: r0 =>
          if q =? 34 then
            match parse_chars r0 with
            | None => None
            | Some (key, r1) =>
                match skip_ws r1 with
                | colon :: r2 =>
                    if colon =? 58 then
                      match parse_value fuel' r2 with
                      | None => None
                      | Some (v, r3) =>
                          match skip_ws r3 with
                          | c :: r4 =>
                              if c =? 44 then
                                match parse_members fuel' r4 with
                                | Some (kvs, rest) =>
                                    Some ((key, v) :: kvs, rest)
                                | None => None
                                end
                              else if c =? 125 then Some ([(key, v)], r4)
                              else None
                          | [] => None
                          end
                      end
                    else None
                | [] => None
                end
            end
          else None
      | [] => None
      end
  end.

(** [JSON.parse(text)]: [None] stands for the SyntaxError it throws.  Every
    call one level down has at least one code unit less to read, and an
    element or member costs one more call, so twice the length of the text
    bounds the depth ([JSON_parse_depth_free] below). *)
Definition JSON_parse (text : jsstring) : option json :=
  match parse_value (2 * length text + 3) text with
  | Some (v, rest) => if is_empty (skip_ws rest) then Some v else None
  | None => None
  end.

(* ===================================================================== *)
(** * src/utils/event.ts: the image list at the storage boundary *)
(* ===================================================================== *)

(** [parsed.filter((item) => typeof item === "string")] *)
Fixpoint string_items (items : list json) : list jsstring :=
  match items with
  | [] => []
  | JStr s :: rest => s :: string_items rest
  | _ :: rest => string_items rest
  end.

Definition parseImages (images : jsstring) : list jsstring :=
  if is_empty images then []
  else
    match JSON_parse images with
    | Some parsed =>
        match parsed with
        | JArr items => string_items items
        | _ => []
        end
    | None => List.filter truthy (map trim (split_on 44 images))
    end.

Definition stringifyImages (images : list jsstring) : jsstring :=
  JSON_stringify images.

(* ===================================================================== *)
(** * What the handlers take from the platform *)
(* ===================================================================== *)

Local Close Scope N_scope.
Local Open Scope Z_scope.

(** Library calls whose result the handlers only pass on or compare. *)
Class Runtime : Type := {
  (** [new Date(value).getTime()], [None] when it is [NaN] *)
  Date_parse : jsstring -> option Z;
  (** [path.join(process.cwd(), p)] after the leading slash of [p] is
      removed *)
  absolute : jsstring -> jsstring;
  (** [String.prototype.toLowerCase] *)
  toLowerCase : jsstring -> jsstring;
  (** zod's [.email()] check *)
  isEmail : jsstring -> bool;
  (** [bcrypt.hash(password, 12)] *)
  bcrypt_hash : jsstring -> jsstring;
  (** [ENV.ALLOWED_EMAIL_DOMAIN] *)
  ALLOWED_EMAIL_DOMAIN : jsstring
}.

(** [Number(value)] as zod's [z.coerce.number()] sees it. *)
Inductive jsnumber : Type :=
| NaN
| NonInteger        (* finite with a fractional part, or infinite *)
| Integer (z : Z).

(** A field of the body that a schema marks [.optional()]: absent, of the
    expected type, or of another type. *)
Inductive optional (A : Type) : Type :=
| Absent
| Present (a : A)
| Malformed.
Arguments Absent {A}.
Arguments Present {A} a.
Arguments Malformed {A}.

(** [z.string().min(lo)]; an absent field, or one that is not a string,
    is [None]. *)
Definition string_min (lo : nat) (v : option jsstring) : option jsstring :=
  match v with
  | Some s => if Nat.leb lo (length s) then Some s else None
  | None => None
  end.

(** [z.string().min(lo).max(hi)] *)
Definition string_between (lo hi : nat) (v : option jsstring)
  : option jsstring :=
  match string_min lo v with
  | Some s => if Nat.leb (length s) hi then Some s else None
  | None => None
  end.

(* ===================================================================== *)
(** * src/routes/events.ts *)
(* ===================================================================== *)

(** Every route of this router sits behind [requireAuth]; the requests
    below are the ones that passed it, so [req.user] is there.  A route is
    a function from the state before to the reply and the state after: the
    handlers await each storage call, and one request is served at a
    time. *)

Module Events.
Section Handlers.
Context `{rt : Runtime}.

(** The [Event] row.  [images] is the JSON text of the image list. *)
Record Event : Type := {
  id : jsstring;
  name : jsstring;
  description : jsstring;
  location : jsstring;
  startsAt : Z;
  images : jsstring;
  category : jsstring;
  ownerId : jsstring;
  ownerName : jsstring;
  attendanceLimit : Z;
  registrationDeadline : Z
}.

(** Modelled from the spec: the registration row (prisma/schema.prisma is
    not among the sources); one user, one event, a creation time. *)
Record Registration : Type := {
  userId : jsstring;
  eventId : jsstring;
  createdAt : Z
}.

(** The event table, the registration ledger and the files under
    [uploads/event-images], by absolute path. *)
Record State : Type := {
  events : gmap jsstring Event;
  registrations : list Registration;
  disk : gset jsstring
}.

Definition initial : State :=
  {| events := ∅; registrations := []; disk := ∅ |}.

(** [toPublicEvent]: the row without its [images] column, the parsed image
    list, and the two registration fields with their defaults. *)
Record PublicEvent : Type := {
  row : Event;
  imageList : list jsstring;
  registrationCount : Z;
  isRegistered : bool
}.

Definition toPublicEvent (event : Event) : PublicEvent :=
  {| row := event;
     imageList := parseImages (images event);
     registrationCount := 0;
     isRegistered := false |}.

(** What a handler sends: [res.status(code).json(payload)]. *)
Inductive Payload : Type :=
| Message (message : jsstring)
| Issues                                   (* "Invalid input" and zod's issues *)
| WithEvent (message : option jsstring) (event : PublicEvent)
| NoBody.

Record Reply : Type := { status : Z; payload : Payload }.

Definition reply (code : Z) (p : Payload) : Reply :=
  {| status := code; payload := p |}.

(** An uploaded file as multer hands it over. *)
Record File : Type := { filename : jsstring; path : jsstring }.

Record JwtPayload : Type := { sub : jsstring; fullName : option jsstring }.

(** [req.body] of the event form. *)
Record EventBody : Type := {
  raw_name : option jsstring;
  raw_description : option jsstring;
  raw_location : option jsstring;
  raw_time : option jsstring;
  raw_eventOwner : option jsstring;
  raw_category : option jsstring;
  raw_attendanceLimit : jsnumber;
  raw_registrationDeadline : option jsstring
}.

(** A request after [requireAuth] and multer: the files of the upload are
    on disk already; [uploadError] is multer's [err.message]. *)
Record Request : Type := {
  body : EventBody;
  files : option (list File);
  user : JwtPayload;
  params_eventId : jsstring;
  uploadError : option jsstring
}.

(** What the handler reads from outside the request: the clock, and the
    identifier the storage layer draws for a new row. *)
Record Env : Type := { now : Z; newId : jsstring }.

Definition cleanupFiles (fs : option (list File)) (st : State) : State :=
  match fs with
  | None => st
  | Some l =>
      {| events := events st;
         registrations := registrations st;
         disk := disk st ∖ list_to_set (map path l) |}
  end.

Definition deleteStoredImageFiles (imagePaths : list jsstring) (st : State)
  : State :=
  {| events := events st;
     registrations := registrations st;
     disk := disk st ∖ list_to_set (map absolute imagePaths) |}.

Definition validateSchedule (startsAt registrationDeadline now : Z)
  : option jsstring :=
  if startsAt <=? now then
    Some (units "Event time must be in the future")
  else if registrationDeadline <=? now then
    Some (units "Registration deadline must be in the future")
  else if registrationDeadline >=? startsAt then
    Some (units "Registration deadline must be before the event start time")
  else None.

(** The output of [createEventSchema]. *)
Record EventData : Type := {
  data_name : jsstring;
  data_description : jsstring;
  data_location : jsstring;
  data_time : Z;
  data_eventOwner : jsstring;
  data_category : jsstring;
  data_attendanceLimit : Z;
  data_registrationDeadline : Z
}.

(** [z.string().min(1, ...).transform(new Date).refine(not NaN)] *)
Definition date_field (v : option jsstring) : option Z :=
  match string_min 1 v with
  | Some s => Date_parse s
  | None => None
  end.

(** [z.coerce.number().int(...).positive(...)] *)
Definition limit_field (v : jsnumber) : option Z :=
  match v with
  | Integer z => if 0 <? z then Some z else None
  | _ => None
  end.

(** [createEventSchema.safeParse(req.body)]; [None] is [!parsed.success]. *)
Definition createEventSchema (b : EventBody) : option EventData :=
  match string_between 1 200 (raw_name b),
        string_between 1 4000 (raw_description b),
        string_between 1 240 (raw_location b),
        date_field (raw_time b),
        string_between 1 200 (raw_eventOwner b),
        string_between 1 200 (raw_category b),
        limit_field (raw_attendanceLimit b),
        date_field (raw_registrationDeadline b) with
  | Some n, Some d, Some l, Some t, Some o, Some c, Some a, Some r =>
      Some {| data_name := n; data_description := d; data_location := l;
              data_time := t; data_eventOwner := o; data_category := c;
              data_attendanceLimit := a; data_registrationDeadline := r |}
  | _, _, _, _, _, _, _, _ => None
  end.

Definition updateEventSchema := createEventSchema.

(** [a || b] where [a] may be [undefined]. *)
Definition or_undefined (a : option jsstring) (b : jsstring) : jsstring :=
  match a with
  | Some s => or_else s b
  | None => b
  end.

Definition imagePath (file : File) : jsstring :=
  units "/uploads/event-images/" ++ filename file.

(** The [data] object that [handleCreateEvent] hands to
    [prisma.event.create], with the identifier drawn for the row. *)
Definition createData (env : Env) (req : Request) (data : EventData)
  : Event :=
  let uploadedImages := default [] (files req) in
  let imagePaths := map imagePath uploadedImages in
  {| id := newId env;
     name := data_name data;
     description := data_description data;
     location := data_location data;
     startsAt := data_time data;
     images := stringifyImages imagePaths;
     category := data_category data;
     ownerId := sub (user req);
     ownerName :=
       or_else (trim (data_eventOwner data))
         (or_undefined (option_map trim (fullName (user req)))
            (units "Event Owner"));
     attendanceLimit := data_attendanceLimit data;
     registrationDeadline := data_registrationDeadline data |}.

(** [handleCreateEvent]; the reply is [None] when [prisma.event.create]
    throws, which it does when the key of the row is taken. *)
Definition handleCreateEvent (env : Env) (req : Request) (st : State)
  : option Reply * State :=
  match createEventSchema (body req) with
  | None => (Some (reply 400 Issues), cleanupFiles (files req) st)
  | Some data =>
      let uploadedImages := default [] (files req) in
      match validateSchedule (data_time data)
              (data_registrationDeadline data) (now env) with
      | Some scheduleError =>
          (Some (reply 400 (Message scheduleError)),
           cleanupFiles (Some uploadedImages) st)
      | None =>
          let event := createData env req data in
          match events st !! newId env with
          | Some _ => (None, st)
          | None =>
              (Some (reply 201
                       (WithEvent (Some (units "Event created successfully"))
                          (toPublicEvent event))),
               {| events := <[newId env := event]> (events st);
                  registrations := registrations st;
                  disk := disk st |})
          end
      end
  end.

(** The error handler of the application: 500 for what a handler throws. *)
Definition internalError : Reply :=
  reply 500 (Message (units "Internal server error")).

(** [router.post("/")] *)
Definition postEvent (env : Env) (req : Request) (st : State)
  : Reply * State :=
  match uploadError req with
  | Some msg => (reply 400 (Message msg), cleanupFiles (files req) st)
  | None =>
      match handleCreateEvent env req st with
      | (Some r, st') => (r, st')
      | (None, st') => (internalError, cleanupFiles (files req) st')
      end
  end.

(** The row after [prisma.event.update] with the [data] object of
    [handleUpdateEvent]: the columns it lists are replaced, the key and the
    owner stay. *)
Definition updateData (req : Request) (data : EventData)
    (existingEvent : Event) : Event :=
  let uploadedImages := default [] (files req) in
  let currentImages := parseImages (images existingEvent) in
  let imagePaths :=
    match uploadedImages with
    | _ :: _ => map imagePath uploadedImages
    | [] => currentImages
    end in
  {| id := id existingEvent;
     name := data_name data;
     description := data_description data;
     location := data_location data;
     startsAt := data_time data;
     images := stringifyImages imagePaths;
     category := data_category data;
     ownerId := ownerId existingEvent;
     ownerName :=
       or_else (trim (data_eventOwner data))
         (or_undefined (option_map trim (fullName (user req)))
            (ownerName existingEvent));
     attendanceLimit := data_attendanceLimit data;
     registrationDeadline := data_registrationDeadline data |}.

Definition handleUpdateEvent (env : Env) (req : Request) (st : State)
  : Reply * State :=
  match updateEventSchema (body req) with
  | None => (reply 400 Issues, cleanupFiles (files req) st)
  | Some data =>
      let eventId := params_eventId req in
      if is_empty eventId then
        (reply 400 (Message (units "Event id is required")),
         cleanupFiles (files req) st)
      else
        match events st !! eventId with
        | None =>
            (reply 404 (Message (units "Event not found")),
             cleanupFiles (files req) st)
        | Some existingEvent =>
            if negb (bool_decide (ownerId existingEvent = sub (user req)))
            then
              (reply 403
                 (Message (units "You are not allowed to edit this event")),
               cleanupFiles (files req) st)
            else
              let uploadedImages := default [] (files req) in
              match validateSchedule (data_time data)
                      (data_registrationDeadline data) (now env) with
              | Some scheduleError =>
                  (reply 400 (Message scheduleError),
                   cleanupFiles (Some uploadedImages) st)
              | None =>
                  let currentImages := parseImages (images existingEvent) in
                  let updatedEvent := updateData req data existingEvent in
                  let st1 :=
                    {| events := <[eventId := updatedEvent]> (events st);
                       registrations := registrations st;
                       disk := disk st |} in
                  let st2 :=
                    match uploadedImages with
                    | _ :: _ => deleteStoredImageFiles currentImages st1
                    | [] => st1
                    end in
                  (reply 200
                     (WithEvent (Some (units "Event updated successfully"))
                        (toPublicEvent updatedEvent)),
                   st2)
              end
        end
  end.

(** [router.put("/:eventId")] *)
Definition putEvent (env : Env) (req : Request) (st : State)
  : Reply * State :=
  match uploadError req with
  | Some msg => (reply 400 (Message msg), cleanupFiles (files req) st)
  | None => handleUpdateEvent env req st
  end.

(** [router.get("/:eventId")] *)
Definition getEvent (req : Request) (st : State) : Reply :=
  let eventId := params_eventId req in
  if is_empty eventId then
    reply 400 (Message (units "Event id is required"))
  else
    match events st !! eventId with
    | None => reply 404 (Message (units "Event not found"))
    | Some event => reply 200 (WithEvent None (toPublicEvent event))
    end.

(** ** The registration ledger *)

(** Modelled from the spec: the ledger of section 4.2, [count], [exists],
    [insert] and [deleteAllForEvent]; the registration table and its
    queries are not among the sources. *)
Definition registeredFor (e : jsstring) (r : Registration) : bool :=
  bool_decide (eventId r = e).

Definition ledger_count (e : jsstring) (l : list Registration) : nat :=
  length (List.filter (registeredFor e) l).

Definition ledger_exists (u e : jsstring) (l : list Registration) : bool :=
  existsb (fun r => bool_decide (userId r = u) && registeredFor e r) l.

Definition ledger_insert (u e : jsstring) (t : Z) (l : list Registration)
  : option (list Registration) :=
  if ledger_exists u e l then None       (* ConstraintViolation *)
  else Some (l ++ [{| userId := u; eventId := e; createdAt := t |}]).

Definition ledger_deleteAllForEvent (e : jsstring) (l : list Registration)
  : list Registration :=
  List.filter (fun r => negb (registeredFor e r)) l.

(** [prisma.event.delete({ where: { id } })].
    Modelled from the spec: the registrations of the event go with it (the
    relation and its delete rule are in prisma/schema.prisma, which is not
    among the sources). *)
Definition prisma_event_delete (eventId : jsstring) (st : State) : State :=
  {| events := delete eventId (events st);
     registrations := ledger_deleteAllForEvent eventId (registrations st);
     disk := disk st |}.

(** [router.delete("/:eventId")] *)
Definition deleteEvent (req : Request) (st : State) : Reply * State :=
  let eventId := params_eventId req in
  if is_empty eventId then
    (reply 400 (Message (units "Event id is required")), st)
  else
    match events st !! eventId with
    | None => (reply 404 (Message (units "Event not found")), st)
    | Some event =>
        if negb (bool_decide (ownerId event = sub (user req))) then
          (reply 403
             (Message (units "You are not allowed to delete this event")),
           st)
        else
          let st1 := prisma_event_delete eventId st in
          let st2 :=
            deleteStoredImageFiles (parseImages (images event)) st1 in
          (reply 204 NoBody, st2)
    end.

(** ** Registering for an event *)

Inductive RegisterResult : Type :=
| Confirmation (registrationCount : nat)
| NotFoundError
| RegistrationClosedError
| CapacityExceededError
| DuplicateRegistrationError.

(** Modelled from the spec: [Register(eventId, userId, now)] of section
    4.1; the handler of [POST /events/:eventId/register] is not among the
    sources.  The checks run in the order the contract lists them, and the
    capacity check and the insertion are one step. *)
Definition Register (eventId userId : jsstring) (now : Z) (st : State)
  : RegisterResult * State :=
  match events st !! eventId with
  | None => (NotFoundError, st)
  | Some event =>
      if now >=? registrationDeadline event then
        (RegistrationClosedError, st)
      else if Z.of_nat (ledger_count eventId (registrations st))
              >=? attendanceLimit event then
        (CapacityExceededError, st)
      else
        match ledger_insert userId eventId now (registrations st) with
        | None => (DuplicateRegistrationError, st)
        | Some l =>
            (Confirmation (ledger_count eventId l),
             {| events := events st; registrations := l; disk := disk st |})
        end
  end.

(** ** Runs of the service *)

Inductive Call : Type :=
| Create (env : Env) (req : Request)
| Update (env : Env) (req : Request)
| Delete (req : Request)
| Get (req : Request)
| CallRegister (eventId userId : jsstring) (now : Z).

Definition step (c : Call) (st : State) : State :=
  match c with
  | Create env req => snd (postEvent env req st)
  | Update env req => snd (putEvent env req st)
  | Delete req => snd (deleteEvent req st)
  | Get _ => st
  | CallRegister e u t => snd (Register e u t st)
  end.

Definition run (calls : list Call) (st : State) : State :=
  fold_left (fun s c => step c s) calls st.

Definition reachable (st : State) : Prop :=
  exists calls, run calls initial = st.

(** A successful [Update] that sets the limit of its event below the
    number of registrations the event has at that moment. *)
Definition lowersBelowCount (c : Call) (st : State) : bool :=
  match c with
  | Update env req =>
      (status (putEvent env req st).1 =? 200)
      && match updateEventSchema (body req) with
         | Some data =>
             data_attendanceLimit data
             <? Z.of_nat (ledger_count (params_eventId req)
                            (registrations st))
         | None => false
         end
  | _ => false
  end.

(** A run in which no call does that. *)
Fixpoint keepsLimits (calls : list Call) (st : State) : Prop :=
  match calls with
  | [] => True
  | c :: rest => lowersBelowCount c st = false /\ keepsLimits rest (step c st)
  end.

(** ** Properties of a state that the theorems speak about *)

(** Every stored event closes its registration before it starts. *)
Definition ordered (st : State) : Prop :=
  forall k e, events st !! k = Some e ->
              registrationDeadline e < startsAt e.

(** No event has more registrations than its limit. *)
Definition withinLimits (st : State) : Prop :=
  forall k e, events st !! k = Some e ->
              Z.of_nat (ledger_count k (registrations st))
              <= attendanceLimit e.

(** Every registration is for a stored event. *)
Definition referenced (st : State) : Prop :=
  forall r, In r (registrations st) -> is_Some (events st !! eventId r).

(** A draft with two dates of which the deadline is not before the
    start. *)
Definition violatesOrder (b : EventBody) : Prop :=
  exists t d, date_field (raw_time b) = Some t
              /\ date_field (raw_registrationDeadline b) = Some d
              /\ t <= d.

(** A draft that passes the schema and the schedule check at [now]. *)
Definition validDraft (b : EventBody) (now : Z) (data : EventData) : Prop :=
  createEventSchema b = Some data
  /\ data_registrationDeadline data < data_time data
  /\ now < data_time data
  /\ now < data_registrationDeadline data.

(** The calls that would store an event under the key [k]. *)
Definition draws (k : jsstring) (c : Call) : Prop :=
  match c with
  | Create env _ => newId env = k
  | _ => False
  end.

End Handlers.
End Events.

(* ===================================================================== *)
(** * src/routes/auth.ts and src/routes/profile.ts: the user directory *)
(* ===================================================================== *)

(** The register route embedded here is the one keyed by the university
    email, the column that scripts/init-db.ts declares [UNIQUE] and that
    the profile route reads.  The sources also hold an older register
    route that looks users up by an [email] column; the table of
    scripts/init-db.ts has no such column, and that route is not part of
    the embedding. *)

Module Users.
Section Handlers.
Context `{rt : Runtime}.

(** The [User] row of scripts/init-db.ts (the two timestamps apart);
    [id] is the primary key and [universityEmail] is [UNIQUE]. *)
Record User : Type := {
  id : jsstring;
  passwordHash : jsstring;
  fullName : jsstring;
  firstName : option jsstring;
  lastName : option jsstring;
  dateOfBirth : option Z;
  gender : option jsstring;
  about : option jsstring;
  age : option Z;
  location : option jsstring;
  fieldOfStudies : option jsstring;
  universityEmail : jsstring;
  interests : option jsstring;
  profileImageUrl : option jsstring
}.

(** The rows of the table and the files under [uploads/profile-images]. *)
Record State : Type := {
  users : list User;
  disk : gset jsstring
}.

Definition initial : State := {| users := []; disk := ∅ |}.

Record File : Type := { filename : jsstring; path : jsstring }.

(** [fs.unlink(req.file.path)] when there is a file. *)
Definition unlinkUpload (file : option File) (st : State) : State :=
  match file with
  | None => st
  | Some f => {| users := users st; disk := disk st ∖ {[path f]} |}
  end.

Definition isAllowedDomain (email : jsstring) : bool :=
  match split_on 64 email !! 1%nat with
  | Some domain =>
      bool_decide (toLowerCase domain = toLowerCase ALLOWED_EMAIL_DOMAIN)
  | None => false
  end.

(** ** The storage layer *)

(** [prisma.user.findUnique({ where: { universityEmail } })] *)
Definition findByEmail (email : jsstring) (rows : list User) : option User :=
  List.find (fun u => bool_decide (universityEmail u = email)) rows.

(** [prisma.user.findUnique({ where: { id } })] *)
Definition findById (i : jsstring) (rows : list User) : option User :=
  List.find (fun u => bool_decide (id u = i)) rows.

(** [prisma.user.create]: [None] when the primary key or the [UNIQUE]
    column is taken (the call throws). *)
Definition prisma_user_create (u : User) (rows : list User)
  : option (list User) :=
  match findById (id u) rows, findByEmail (universityEmail u) rows with
  | None, None => Some (rows ++ [u])
  | _, _ => None
  end.

(** [prisma.user.update({ where: { id }, data })]: [None] when another row
    holds the new value of the [UNIQUE] column. *)
Definition prisma_user_update (u : User) (rows : list User)
  : option (list User) :=
  if existsb (fun v => bool_decide (universityEmail v = universityEmail u)
                       && negb (bool_decide (id v = id u))) rows
  then None
  else Some (map (fun v => if bool_decide (id v = id u) then u else v) rows).

(** ** Registration *)

Record RegisterBody : Type := {
  raw_fullName : option jsstring;
  raw_password : option jsstring;
  raw_age : option jsnumber;
  raw_location : optional jsstring;
  raw_fieldOfStudies : optional jsstring;
  raw_universityEmail : option jsstring;
  raw_interests : optional (list (option jsstring))
}.

Record RegisterData : Type := {
  data_fullName : jsstring;
  data_password : jsstring;
  data_age : option Z;
  data_location : option jsstring;
  data_fieldOfStudies : option jsstring;
  data_universityEmail : jsstring;
  data_interests : option (list jsstring)
}.

(** [z.string().max(hi).optional()] *)
Definition optional_string (hi : nat) (v : optional jsstring)
  : option (option jsstring) :=
  match v with
  | Absent => Some None
  | Present s => if Nat.leb (length s) hi then Some (Some s) else None
  | Malformed => None
  end.

(** [z.string().email()] *)
Definition email_field (v : option jsstring) : option jsstring :=
  match v with
  | Some s => if isEmail s then Some s else None
  | None => None
  end.

(** [z.array(z.string().min(1).max(40)).max(hi)] *)
Definition interest_array (hi : nat) (items : list (option jsstring))
  : option (list jsstring) :=
  match mapM (fun item => string_between 1 40 item) items with
  | Some l => if Nat.leb (length l) hi then Some l else None
  | None => None
  end.

Definition registerSchema (b : RegisterBody) : option RegisterData :=
  match string_between 2 120 (raw_fullName b),
        string_min 6 (raw_password b),
        match raw_age b with
        | None => Some None
        | Some (Integer z) =>
            if (0 <? z) && (z <=? 120) then Some (Some z) else None
        | Some _ => None
        end,
        optional_string 120 (raw_location b),
        optional_string 120 (raw_fieldOfStudies b),
        email_field (raw_universityEmail b),
        match raw_interests b with
        | Absent => Some None
        | Present items => option_map Some (interest_array 10 items)
        | Malformed => None
        end with
  | Some n, Some p, Some a, Some l, Some f, Some e, Some i =>
      Some {| data_fullName := n; data_password := p; data_age := a;
              data_location := l; data_fieldOfStudies := f;
              data_universityEmail := e; data_interests := i |}
  | _, _, _, _, _, _, _ => None
  end.

Inductive Payload : Type :=
| Message (message : jsstring)
| Issues
| WithUser (user : User)          (* [toPublicUser(user)], and the token *)
| NoBody.

Record Reply : Type := { status : Z; payload : Payload }.

Definition reply (code : Z) (p : Payload) : Reply :=
  {| status := code; payload := p |}.

Record RegisterRequest : Type := {
  body : RegisterBody;
  file : option File;
  uploadError : option jsstring
}.

Definition profileImagePath (f : File) : jsstring :=
  units "/uploads/profile-images/" ++ filename f.

(** [handleRegister]; [newId] is the identifier the storage layer draws for
    the row; the reply is [None] when [prisma.user.create] throws. *)
Definition handleRegister (newId : jsstring) (req : RegisterRequest)
    (st : State) : option Reply * State :=
  match registerSchema (body req) with
  | None => (Some (reply 400 Issues), unlinkUpload (file req) st)
  | Some data =>
      let universityEmail := toLowerCase (data_universityEmail data) in
      if negb (isAllowedDomain universityEmail) then
        (Some (reply 400
                 (Message (units "University email must end with "
                           ++ ALLOWED_EMAIL_DOMAIN))),
         unlinkUpload (file req) st)
      else
        match findByEmail universityEmail (users st) with
        | Some _ =>
            (Some (reply 409 (Message (units "An account already exists"))),
             unlinkUpload (file req) st)
        | None =>
            let names := split_spaces false (trim (data_fullName data)) in
            let lastName := or_null (join (units " ") (tail names)) in
            let user :=
              {| id := newId;
                 passwordHash := bcrypt_hash (data_password data);
                 fullName := data_fullName data;
                 firstName := or_null (default [] (head names));
                 lastName := lastName;
                 dateOfBirth := None;
                 gender := None;
                 about := None;
                 age := data_age data;
                 location := data_location data;
                 fieldOfStudies := data_fieldOfStudies data;
                 universityEmail := universityEmail;
                 interests := option_map (join (units ",")) (data_interests data);
                 profileImageUrl := option_map profileImagePath (file req) |} in
            match prisma_user_create user (users st) with
            | None => (None, st)
            | Some rows =>
                (Some (reply 201 (WithUser user)),
                 {| users := rows; disk := disk st |})
            end
        end
  end.

Definition internalError : Reply :=
  reply 500 (Message (units "Internal server error")).

(** [router.post("/register")] *)
Definition postRegister (newId : jsstring) (req : RegisterRequest)
    (st : State) : Reply * State :=
  match uploadError req with
  | Some msg => (reply 400 (Message msg), unlinkUpload (file req) st)
  | None =>
      match handleRegister newId req st with
      | (Some r, st') => (r, st')
      | (None, st') => (internalError, unlinkUpload (file req) st')
      end
  end.

(** ** Profile update *)

(** The [interests] field of the profile form before its [preprocess]. *)
Inductive RawInterests : Type :=
| InterestArray (items : list (option jsstring))
| InterestString (s : jsstring)
| InterestOther.

Record ProfileBody : Type := {
  profile_firstName : option jsstring;
  profile_lastName : option jsstring;
  profile_dateOfBirth : optional jsstring;
  profile_gender : optional jsstring;
  profile_about : optional jsstring;
  profile_age : jsnumber;
  profile_location : option jsstring;
  profile_fieldOfStudies : option jsstring;
  profile_universityEmail : option jsstring;
  profile_interests : option RawInterests
}.

Record ProfileData : Type := {
  pdata_firstName : jsstring;
  pdata_lastName : jsstring;
  pdata_dateOfBirth : option Z;
  pdata_gender : option jsstring;
  pdata_about : option jsstring;
  pdata_age : Z;
  pdata_location : jsstring;
  pdata_fieldOfStudies : jsstring;
  pdata_universityEmail : jsstring;
  pdata_interests : option (list jsstring)
}.

Definition splitTrimmed (s : jsstring) : list jsstring :=
  map trim (split_on 44 s).

Definition preprocessInterests (v : RawInterests) : list jsstring :=
  match v with
  | InterestArray items =>
      flat_map (fun item =>
                  match item with
                  | Some s => if truthy s then splitTrimmed s else []
                  | None => []
                  end) items
  | InterestString s => if truthy s then splitTrimmed s else []
  | InterestOther => []
  end.

Definition profileSchema (b : ProfileBody) : option ProfileData :=
  match string_between 1 120 (profile_firstName b),
        string_between 1 120 (profile_lastName b),
        match profile_dateOfBirth b with
        | Absent => Some None
        | Present s =>
            if truthy s then option_map Some (Date_parse s) else Some None
        | Malformed => None
        end,
        optional_string 60 (profile_gender b),
        optional_string 600 (profile_about b),
        match profile_age b with
        | Integer z => if (16 <=? z) && (z <=? 120) then Some z else None
        | _ => None
        end,
        string_between 1 180 (profile_location b),
        string_between 1 180 (profile_fieldOfStudies b),
        email_field (string_min 1 (profile_universityEmail b)),
        match profile_interests b with
        | None => Some None
        | Some v =>
            option_map Some
              (interest_array 12 (map Some (preprocessInterests v)))
        end with
  | Some fn, Some ln, Some dob, Some g, Some ab, Some ag, Some l, Some f,
    Some e, Some i =>
      Some {| pdata_firstName := fn; pdata_lastName := ln;
              pdata_dateOfBirth := dob; pdata_gender := g; pdata_about := ab;
              pdata_age := ag; pdata_location := l;
              pdata_fieldOfStudies := f; pdata_universityEmail := e;
              pdata_interests := i |}
  | _, _, _, _, _, _, _, _, _, _ => None
  end.

(** A profile request after [requireAuth] and multer; [sub] is
    [req.user.sub]. *)
Record ProfileRequest : Type := {
  profile_body : ProfileBody;
  profile_file : option File;
  sub : jsstring;
  profile_uploadError : option jsstring
}.

(** [handleProfileUpdate]; the reply is [None] when [prisma.user.update]
    throws. *)
Definition handleProfileUpdate (req : ProfileRequest) (st : State)
  : option Reply * State :=
  match profileSchema (profile_body req) with
  | None => (Some (reply 400 Issues), unlinkUpload (profile_file req) st)
  | Some data =>
      let normalizedUniversityEmail :=
        toLowerCase (pdata_universityEmail data) in
      if negb (isAllowedDomain normalizedUniversityEmail) then
        (Some (reply 400
                 (Message (units "University email must end with "
                           ++ ALLOWED_EMAIL_DOMAIN))),
         unlinkUpload (profile_file req) st)
      else
        let userId := sub req in
        match findById userId (users st) with
        | None =>
            (Some (reply 404 (Message (units "User not found"))),
             unlinkUpload (profile_file req) st)
        | Some existingUser =>
            let emailTaken :=
              if negb (bool_decide (normalizedUniversityEmail
                                    = universityEmail existingUser))
              then
                match findByEmail normalizedUniversityEmail (users st) with
                | Some other => negb (bool_decide (id other = userId))
                | None => false
                end
              else false in
            if emailTaken then
              (Some (reply 409
                       (Message (units "University email already in use"))),
               unlinkUpload (profile_file req) st)
            else
              let interestsArray := default [] (pdata_interests data) in
              let newImageUrl :=
                match profile_file req with
                | Some f => Some (profileImagePath f)
                | None => profileImageUrl existingUser
                end in
              let disk1 :=
                match profile_file req, profileImageUrl existingUser with
                | Some _, Some old =>
                    if truthy old then disk st ∖ {[absolute old]}
                    else disk st
                | _, _ => disk st
                end in
              let updated :=
                {| id := id existingUser;
                   passwordHash := passwordHash existingUser;
                   fullName :=
                     trim (pdata_firstName data ++ units " "
                           ++ pdata_lastName data);
                   firstName := Some (pdata_firstName data);
                   lastName := Some (pdata_lastName data);
                   dateOfBirth := pdata_dateOfBirth data;
                   gender := pdata_gender data;
                   about := pdata_about data;
                   age := Some (pdata_age data);
                   location := Some (pdata_location data);
                   fieldOfStudies := Some (pdata_fieldOfStudies data);
                   universityEmail := normalizedUniversityEmail;
                   interests := Some (join (units ",") interestsArray);
                   profileImageUrl := newImageUrl |} in
              match prisma_user_update updated (users st) with
              | None => (None, {| users := users st; disk := disk1 |})
              | Some rows =>
                  (Some (reply 200 (WithUser updated)),
                   {| users := rows; disk := disk1 |})
              end
        end
  end.

(** [router.put("/")] of the profile routes. *)
Definition putProfile (req : ProfileRequest) (st : State) : Reply * State :=
  match profile_uploadError req with
  | Some msg => (reply 400 (Message msg), st)
  | None =>
      match handleProfileUpdate req st with
      | (Some r, st') => (r, st')
      | (None, st') => (internalError, st')
      end
  end.

(** ** Runs of the directory *)

Inductive Call : Type :=
| SignUp (newId : jsstring) (req : RegisterRequest)
| EditProfile (req : ProfileRequest).

Definition step (c : Call) (st : State) : State :=
  match c with
  | SignUp newId req => snd (postRegister newId req st)
  | EditProfile req => snd (putProfile req st)
  end.

Definition run (calls : list Call) (st : State) : State :=
  fold_left (fun s c => step c s) calls st.

Definition reachable (st : State) : Prop :=
  exists calls, run calls initial = st.

(** The two uniqueness constraints of the table. *)
Definition wellKeyed (rows : list User) : Prop :=
  NoDup (map id rows) /\ NoDup (map universityEmail rows).

End Handlers.
End Users.

(* ===================================================================== *)
(** * Concrete data for the examples *)
(* ===================================================================== *)

Module Sample.

Definition lowerUnit (c : N) : N :=
  if ((65 <=? c) && (c <=? 90))%N then (c + 32)%N else c.

(** A platform: two dates the parser knows, paths under [/srv/backend],
    ASCII lower case, one [@] between two non-empty parts. *)
Definition runtime : Runtime :=
  {| Date_parse := fun s =>
       if bool_decide (s = units "2030-05-01T10:00:00.000Z")
       then Some 1903860000000
       else if bool_decide (s = units "2030-04-24T10:00:00.000Z")
       then Some 1903255200000
       else None;
     absolute := fun p =>
       units "/srv/backend/"
       ++ match p with
          | c :: r => if (c =? 47)%N then r else p
          | [] => p
          end;
     toLowerCase := map lowerUnit;
     isEmail := fun s =>
       match split_on 64 s with
       | [a; b] => truthy a && truthy b
       | _ => false
       end;
     bcrypt_hash := fun p => units "$2b$12$" ++ p;
     ALLOWED_EMAIL_DOMAIN := units "uzh.ch" |}.

(** 2030-01-01T00:00:00.000Z *)
Definition clock : Z := 1893456000000.

Definition start : jsstring := units "2030-05-01T10:00:00.000Z".
Definition deadline : jsstring := units "2030-04-24T10:00:00.000Z".

Definition form (eventName : option jsstring) (limit : Z)
    (time registrationDeadline : jsstring) : Events.EventBody :=
  {| Events.raw_name := eventName;
     Events.raw_description := Some (units "Board games in the main hall");
     Events.raw_location := Some (units "Zurich");
     Events.raw_time := Some time;
     Events.raw_eventOwner := Some (units "Ada");
     Events.raw_category := Some (units "Games");
     Events.raw_attendanceLimit := Integer limit;
     Events.raw_registrationDeadline := Some registrationDeadline |}.

Definition request (caller eventId : string) (b : Events.EventBody)
    (uploads : list Events.File) : Events.Request :=
  {| Events.body := b;
     Events.files := Some uploads;
     Events.user := {| Events.sub := units caller;
                       Events.fullName := Some (units "Ada Lovelace") |};
     Events.params_eventId := units eventId;
     Events.uploadError := None |}.

(** A request on a route without an event id. *)
Definition post (caller : string) (b : Events.EventBody)
    (uploads : list Events.File) : Events.Request :=
  {| Events.body := b;
     Events.files := Some uploads;
     Events.user := {| Events.sub := units caller;
                       Events.fullName := Some (units "Ada Lovelace") |};
     Events.params_eventId := [];
     Events.uploadError := None |}.

Definition env (k : string) : Events.Env :=
  {| Events.now := clock; Events.newId := units k |}.

(** The environment of a call that draws no identifier. *)
Definition today : Events.Env :=
  {| Events.now := clock; Events.newId := [] |}.

(** An empty form, for the calls that read no body. *)
Definition blank : Events.EventBody :=
  {| Events.raw_name := None;
     Events.raw_description := None;
     Events.raw_location := None;
     Events.raw_time := None;
     Events.raw_eventOwner := None;
     Events.raw_category := None;
     Events.raw_attendanceLimit := NaN;
     Events.raw_registrationDeadline := None |}.

Definition picture (n : string) : Events.File :=
  {| Events.filename := units n;
     Events.path := units "/srv/backend/uploads/event-images/" ++ units n |}.

(** Ada's game night, two seats. *)
Definition gameNight : Events.Call :=
  Events.Create (env "e1")
    (post "ada" (form (Some (units "Game night")) 2 start deadline)
       [picture "ada-1.png"]).

Definition afterGameNight : Events.State :=
  Events.run (rt := runtime) [gameNight] Events.initial.

Definition signUp (who : string) : Events.Call :=
  Events.CallRegister (units "e1") (units who) clock.

(** Ada lowers the limit of her event to one seat. *)
Definition shrink : Events.Call :=
  Events.Update today
    (request "ada" "e1" (form (Some (units "Game night")) 1 start deadline)
       []).

Definition oversold : list Events.Call :=
  [gameNight; signUp "bob"; signUp "carol"; shrink].

(** ** Accounts *)

Definition account (name email : string) : Users.RegisterRequest :=
  {| Users.body :=
       {| Users.raw_fullName := Some (units name);
          Users.raw_password := Some (units "correct horse");
          Users.raw_age := Some (Integer 21);
          Users.raw_location := Present (units "Zurich");
          Users.raw_fieldOfStudies := Absent;
          Users.raw_universityEmail := Some (units email);
          Users.raw_interests :=
            Present [Some (units "Chess"); Some (units "Hiking")] |};
     Users.file := None;
     Users.uploadError := None |}.

Definition adaJoins : Users.Call :=
  Users.SignUp (units "u1") (account "Ada Lovelace" "Ada.Lovelace@UZH.ch").

Definition withAda : Users.State :=
  Users.run (rt := runtime) [adaJoins] Users.initial.

Definition bobJoins : Users.Call :=
  Users.SignUp (units "u2") (account "Bob Kahn" "bob.kahn@uzh.ch").

Definition withBoth : Users.State :=
  Users.run (rt := runtime) [adaJoins; bobJoins] Users.initial.

End Sample.

(* ===================================================================== *)
(** * src/routes/events.ts: the list route *)
(* ===================================================================== *)

Module Listing.
Import Events.

(** [orderBy: { startsAt: "asc" }] *)
Definition earlier (a b : Event) : Prop := startsAt a <= startsAt b.

Definition earlier_dec (a b : Event) : Decision (earlier a b) :=
  decide (startsAt a <= startsAt b).

(** [prisma.event.findMany({ orderBy: { startsAt: "asc" } })]: the rows of
    the table by ascending start.  The order among rows with the same
    start is the storage layer's; the sort takes one. *)
Definition findMany_orderBy_startsAt (table : gmap jsstring Event)
  : list Event :=
  @merge_sort Event earlier earlier_dec (map snd (map_to_list table)).

(** [router.get("/")]: the [events] of the reply, which is always 200. *)
Definition getEvents (st : State) : list PublicEvent :=
  map toPublicEvent (findMany_orderBy_startsAt (events st)).

End Listing.

(* ===================================================================== *)
(** * src/utils/requireAuth.ts and src/utils/jwt.ts *)
(* ===================================================================== *)

Module Session.

(** The claims a token carries. *)
Record JwtPayload : Type := {
  sub : jsstring;
  email : jsstring;
  fullName : jsstring
}.

(** [jwt.verify(token, ENV.JWT_SECRET)]: [None] when it throws. *)
Class TokenService : Type := {
  verifyToken : jsstring -> option JwtPayload
}.

Section Middleware.
Context `{rt : Runtime} `{ts : TokenService}.

(** What the middleware does: it calls [next()] with [req.user] set, or
    it answers 401 with a message. *)
Inductive Outcome : Type :=
| Next (user : JwtPayload)
| Unauthorized (message : jsstring).

(** [requireAuth]; [header] is [req.get("authorization")]. *)
Definition requireAuth (header : option jsstring) : Outcome :=
  match header with
  | None => Unauthorized (units "Authorization header missing")
  | Some h =>
      if is_empty h then Unauthorized (units "Authorization header missing")
      else
        let parts := split_on 32 h in
        let scheme := parts !! 0%nat in
        let token := parts !! 1%nat in
        if negb (bool_decide (option_map toLowerCase scheme
                              = Some (units "bearer")))
           || is_empty (default [] token)
        then Unauthorized (units "Invalid authorization header")
        else
          match verifyToken (default [] token) with
          | Some payload => Next payload
          | None => Unauthorized (units "Invalid or expired token")
          end
  end.

End Middleware.
End Session.

(* ===================================================================== *)
(** * The account routes: login, the profile read, [toPublicUser] *)
(* ===================================================================== *)

Module Accounts.
Import Users.

(** [bcrypt.compare(password, hash)] *)
Class PasswordCheck : Type := {
  bcrypt_compare : jsstring -> jsstring -> bool
}.

(** What [toPublicUser] returns: the row without [passwordHash], with the
    [interests] column split into a list. *)
Record PublicUser : Type := {
  public_id : jsstring;
  public_fullName : jsstring;
  public_firstName : option jsstring;
  public_lastName : option jsstring;
  public_dateOfBirth : option Z;
  public_gender : option jsstring;
  public_about : option jsstring;
  public_age : option Z;
  public_location : option jsstring;
  public_fieldOfStudies : option jsstring;
  public_universityEmail : jsstring;
  public_interests : list jsstring;
  public_profileImageUrl : option jsstring
}.

(** [interests ? interests.split(",").filter(Boolean) : []] *)
Definition splitInterests (column : option jsstring) : list jsstring :=
  match column with
  | Some s => if truthy s then List.filter truthy (split_on 44 s) else []
  | None => []
  end.

Definition toPublicUser (user : User) : PublicUser :=
  {| public_id := id user;
     public_fullName := fullName user;
     public_firstName := firstName user;
     public_lastName := lastName user;
     public_dateOfBirth := dateOfBirth user;
     public_gender := gender user;
     public_about := about user;
     public_age := age user;
     public_location := location user;
     public_fieldOfStudies := fieldOfStudies user;
     public_universityEmail := universityEmail user;
     public_interests := splitInterests (interests user);
     public_profileImageUrl := profileImageUrl user |}.

(** What the two routes send. *)
Inductive Content : Type :=
| Refused (message : jsstring)
| InvalidInput
| Profile (user : PublicUser).

Record Answer : Type := { code : Z; content : Content }.

Section Handlers.
Context `{rt : Runtime} `{pc : PasswordCheck}.

(** [router.get("/")] of the profile routes; [sub] is [req.user.sub]. *)
Definition getProfile (sub : jsstring) (st : State) : Answer :=
  match findById sub (users st) with
  | None => {| code := 404; content := Refused (units "User not found") |}
  | Some user => {| code := 200; content := Profile (toPublicUser user) |}
  end.

Record LoginBody : Type := {
  login_universityEmail : option jsstring;
  login_password : option jsstring
}.

Definition loginSchema (b : LoginBody) : option (jsstring * jsstring) :=
  match email_field (login_universityEmail b),
        string_min 1 (login_password b) with
  | Some e, Some p => Some (e, p)
  | _, _ => None
  end.

(** [router.post("/login")]; the reply also carries a token signed for the
    user it shows. *)
Definition postLogin (b : LoginBody) (st : State) : Answer :=
  match loginSchema b with
  | None => {| code := 400; content := InvalidInput |}
  | Some (universityEmail, password) =>
      let normalizedUniversityEmail := toLowerCase universityEmail in
      match findByEmail normalizedUniversityEmail (users st) with
      | None =>
          {| code := 401;
             content :=
               Refused (units "Invalid university email or password") |}
      | Some user =>
          if bcrypt_compare password (passwordHash user) then
            {| code := 200; content := Profile (toPublicUser user) |}
          else
            {| code := 401;
               content :=
                 Refused (units "Invalid university email or password") |}
      end
  end.

End Handlers.
End Accounts.

(* ===================================================================== *)
(** * More concrete data for the examples *)
(* ===================================================================== *)

Module Sample2.

(** Tokens of the form [tok-<sub>]. *)
Definition tokens : Session.TokenService :=
  {| Session.verifyToken := fun t =>
       match strip_prefix (units "tok-") t with
       | Some who =>
           if truthy who then
             Some {| Session.sub := who;
                     Session.email := who ++ units "@uzh.ch";
                     Session.fullName := who |}
           else None
       | None => None
       end |}.

(** A check that knows the hashes of [Sample.runtime]. *)
Definition passwords : Accounts.PasswordCheck :=
  {| Accounts.bcrypt_compare := fun password hash =>
       bool_decide (hash = units "$2b$12$" ++ password) |}.

Definition editInterests (who : string) (v : Users.RawInterests)
  : Users.ProfileRequest :=
  {| Users.profile_body :=
       {| Users.profile_firstName := Some (units "Ada");
          Users.profile_lastName := Some (units "Lovelace");
          Users.profile_dateOfBirth := Absent;
          Users.profile_gender := Absent;
          Users.profile_about := Absent;
          Users.profile_age := Integer 21;
          Users.profile_location := Some (units "Zurich");
          Users.profile_fieldOfStudies := Some (units "Mathematics");
          Users.profile_universityEmail :=
            Some (units "ada.lovelace@uzh.ch");
          Users.profile_interests := Some v |};
     Users.profile_file := None;
     Users.sub := units who;
     Users.profile_uploadError := None |}.

(** A later event, stored before the earlier one. *)
Definition summerParty : Events.Call :=
  Events.Create
    {| Events.now := Sample.clock; Events.newId := units "e0" |}
    (Sample.post "ada"
       {| Events.raw_name := Some (units "Summer party");
          Events.raw_description := Some (units "On the lawn");
          Events.raw_location := Some (units "Irchel");
          Events.raw_time := Some (units "2030-06-01T10:00:00.000Z");
          Events.raw_eventOwner := Some (units "  ");
          Events.raw_category := Some (units "Party");
          Events.raw_attendanceLimit := Integer 50;
          Events.raw_registrationDeadline := Some Sample.start |}
       [Sample.picture "ada-3.png"]).

(** [Sample.runtime] with a third date. *)
Definition runtime : Runtime :=
  {| Date_parse := fun s =>
       if bool_decide (s = units "2030-06-01T10:00:00.000Z")
       then Some 1906538400000
       else Date_parse (Runtime := Sample.runtime) s;
     absolute := absolute (Runtime := Sample.runtime);
     toLowerCase := toLowerCase (Runtime := Sample.runtime);
     isEmail := isEmail (Runtime := Sample.runtime);
     bcrypt_hash := bcrypt_hash (Runtime := Sample.runtime);
     ALLOWED_EMAIL_DOMAIN := ALLOWED_EMAIL_DOMAIN (Runtime := Sample.runtime)
  |}.

Definition twoEvents : Events.State :=
  Events.run (rt := runtime) [summerParty; Sample.gameNight] Events.initial.

End Sample2.

(* ===================================================================== *)
(** * Words for the statements that follow *)
(* ===================================================================== *)

(** The string is empty or starts with a code unit that is not white
    space. *)
Definition clean_start (s : jsstring) : Prop :=
  match s with
  | c :: _ => is_js_space c = false
  | [] => True
  end.

(** The row that [handleProfileUpdate] hands to [prisma.user.update]. *)
Definition updatedRow `{rt : Runtime} (req : Users.ProfileRequest)
    (data : Users.ProfileData) (existingUser : Users.User) : Users.User :=
  {| Users.id := Users.id existingUser;
     Users.passwordHash := Users.passwordHash existingUser;
     Users.fullName :=
       trim (Users.pdata_firstName data ++ units " "
             ++ Users.pdata_lastName data);
     Users.firstName := Some (Users.pdata_firstName data);
     Users.lastName := Some (Users.pdata_lastName data);
     Users.dateOfBirth := Users.pdata_dateOfBirth data;
     Users.gender := Users.pdata_gender data;
     Users.about := Users.pdata_about data;
     Users.age := Some (Users.pdata_age data);
     Users.location := Some (Users.pdata_location data);
     Users.fieldOfStudies := Some (Users.pdata_fieldOfStudies data);
     Users.universityEmail :=
       toLowerCase (Users.pdata_universityEmail data);
     Users.interests :=
       Some (join (units ",") (default [] (Users.pdata_interests data)));
     Users.profileImageUrl :=
       match Users.profile_file req with
       | Some f => Some (Users.profileImagePath f)
       | None => Users.profileImageUrl existingUser
       end |}.

(** Every stored event is stored under its own id, has a positive limit,
    an owner name that is not empty and is trimmed, and an [images] column
    that is the JSON text of the list read from it. *)
Definition sound (st : Events.State) : Prop :=
  forall k e, Events.events st !! k = Some e ->
    Events.id e = k
    /\ 0 < Events.attendanceLimit e
    /\ Events.ownerName e <> []
    /\ trim (Events.ownerName e) = Events.ownerName e
    /\ Events.images e = stringifyImages (parseImages (Events.images e)).

(* ===================================================================== *)
(** * Properties *)
(* ===================================================================== *)


(* --------------------------------------------------------------------- *)
(** ** The JSON text of a list of strings reads back as that list *)
(* --------------------------------------------------------------------- *)

Section JsonFacts.
Local Open Scope N_scope.

(** *** The depth bound of [JSON_parse] *)

Lemma length_skip_ws s : (length (skip_ws s) <= length s)%nat.
Proof.
  induction s as [| c r IH]; [done |].
  cbn. destruct (is_json_ws c); cbn; lia.
Qed.

Lemma parse_chars_shorter s x r :
  parse_chars s = Some (x, r) -> (length r < length s)%nat.
Proof.
  remember (length s) as n eqn:Hn. revert s x r Hn.
  induction n as [n IH] using lt_wf_ind. intros s x r Hn H.
  destruct s as [| c s1]; [done |]. cbn [parse_chars] in H. cbn in Hn.
  destruct (c =? 34); [simplify_eq; cbn; lia |].
  destruct (c =? 92).
  - destruct s1 as [| e s2]; [done |].
    destruct (e =? 117).
    + destruct s2 as [| h1 [| h2 [| h3 [| h4 s3]]]]; try done.
      destruct (hex4 h1 h2 h3 h4); [| done].
      destruct (parse_chars s3) as [[y r'] |] eqn:E; [| done].
      cbn in H. simplify_eq.
      apply (IH (length s3)) in E; cbn in *; [lia | lia | done].
    + destruct (simple_escape e); [| done].
      destruct (parse_chars s2) as [[y r'] |] eqn:E; [| done].
      cbn in H. simplify_eq.
      apply (IH (length s2)) in E; cbn in *; [lia | lia | done].
  - destruct (c <? 32); [done |].
    destruct (parse_chars s1) as [[y r'] |] eqn:E; [| done].
    cbn in H. simplify_eq.
    apply (IH (length s1)) in E; cbn in *; [lia | lia | done].
Qed.

Lemma take_digits_length s ds r :
  take_digits s = (ds, r) -> (length r <= length s)%nat.
Proof.
  revert ds r. induction s as [| c s IH]; intros ds r H; cbn in H.
  - by simplify_eq.
  - destruct (is_digit c); [| simplify_eq; cbn; lia].
    destruct (take_digits s) as [ds' r'] eqn:E. simplify_eq.
    specialize (IH _ _ eq_refl). cbn. lia.
Qed.

Lemma parse_number_shorter s n r :
  parse_number s = Some (n, r) -> (length r < length s)%nat.
Proof.
  unfold parse_number, parse_int_part, parse_frac_part, parse_exp_part.
  intros H.
  repeat (case_match; simplify_eq);
    repeat match goal with
           | H : take_digits _ = _ |- _ => apply take_digits_length in H
           end;
    cbn [length] in *; lia.
Qed.

Lemma strip_prefix_length p s r :
  strip_prefix p s = Some r -> length s = (length p + length r)%nat.
Proof.
  revert s. induction p as [| a p IH]; intros s H; cbn in H.
  - by simplify_eq.
  - destruct s as [| b s]; [done |]. destruct (a =? b); [| done].
    cbn. by rewrite (IH s H).
Qed.

Lemma parse_literal_shorter s v r :
  parse_literal s = Some (v, r) -> (length r < length s)%nat.
Proof.
  unfold parse_literal. intros H.
  repeat (case_match; simplify_eq);
    repeat match goal with
           | H : strip_prefix _ _ = Some _ |- _ =>
               apply strip_prefix_length in H; cbn in H
           | H : parse_number _ = Some _ |- _ =>
               apply parse_number_shorter in H
           end; lia.
Qed.

Lemma parse_value_S (fuel : nat) (s : jsstring) :
  parse_value (S fuel) s =
  match skip_ws s with
  | [] => None
  | c :: r =>
      if c =? 34 then
        match parse_chars r with
        | Some (str, rest) => Some (JStr str, rest)
        | None => None
        end
      else if c =? 91 then
        match skip_ws r with
        | d :: r' =>
            if d =? 93 then Some (JArr [], r')
            else match parse_items fuel r with
                 | Some (vs, rest) => Some (JArr vs, rest)
                 | None => None
                 end
        | [] => None
        end
      else if c =? 123 then
        match skip_ws r with
        | d :: r' =>
            if d =? 125 then Some (JObj [], r')
            else match parse_members fuel r with
                 | Some (kvs, rest) => Some (JObj kvs, rest)
                 | None => None
                 end
        | [] => None
        end
      else parse_literal (c :: r)
  end.
Proof. reflexivity. Qed.

Lemma parse_items_S (fuel : nat) (s : jsstring) :
  parse_items (S fuel) s =
  match parse_value fuel s with
  | None => None
  | Some (v, r) =>
      match skip_ws r with
      | c :: r' =>
          if c =? 44 then
            match parse_items fuel r' with
            | Some (vs, rest) => Some (v :: vs, rest)
            | None => None
            end
          else if c =? 93 then Some ([v], r')
          else None
      | [] => None
      end
  end.
Proof. reflexivity. Qed.

Lemma parse_members_S (fuel : nat) (s : jsstring) :
  parse_members (S fuel) s =
  match skip_ws s with
  | q :: r0 =>
      if q =? 34 then
        match parse_chars r0 with
        | None => None
        | Some (key, r1) =>
            match skip_ws r1 with
            | colon :: r2 =>
                if colon =? 58 then
                  match parse_value fuel r2 with
                  | None => None
                  | Some (v, r3) =>
                      match skip_ws r3 with
                      | c :: r4 =>
                          if c =? 44 then
                            match parse_members fuel r4 with
                            | Some (kvs, rest) =>
                                Some ((key, v) :: kvs, rest)
                            | None => None
                            end
                          else if c =? 125 then Some ([(key, v)], r4)
                          else None
                      | [] => None
                      end
                  end
                else None
            | [] => None
            end
        end
      else None
  | [] => None
  end.
Proof. reflexivity. Qed.

Lemma skip_ws_cons s c r :
  skip_ws s = c :: r -> (length r < length s)%nat.
Proof.
  intros H. pose proof (length_skip_ws s) as Hl. rewrite H in Hl.
  cbn in Hl. lia.
Qed.

(** Every successful call reads at least one code unit. *)
Lemma parse_shorter (fuel : nat) :
  (forall s v r, parse_value fuel s = Some (v, r) ->
                 (length r < length s)%nat)
  /\ (forall s vs r, parse_items fuel s = Some (vs, r) ->
                     (length r < length s)%nat)
  /\ (forall s kvs r, parse_members fuel s = Some (kvs, r) ->
                      (length r < length s)%nat).
Proof.
  induction fuel as [| fuel (IHv & IHi & IHm)]; [done |].
  repeat split.
  - intros s v r. rewrite parse_value_S. intros H.
    repeat (case_match; simplify_eq);
      repeat match goal with
             | H : skip_ws _ = _ :: _ |- _ => apply skip_ws_cons in H
             | H : parse_chars _ = Some _ |- _ =>
                 apply parse_chars_shorter in H
             | H : parse_literal _ = Some _ |- _ =>
                 apply parse_literal_shorter in H
             | H : parse_items _ _ = Some _ |- _ => apply IHi in H
             | H : parse_members _ _ = Some _ |- _ => apply IHm in H
             end; cbn [length] in *; lia.
  - intros s vs r. rewrite parse_items_S. intros H.
    repeat (case_match; simplify_eq);
      repeat match goal with
             | H : skip_ws _ = _ :: _ |- _ => apply skip_ws_cons in H
             | H : parse_value _ _ = Some _ |- _ => apply IHv in H
             | H : parse_items _ _ = Some _ |- _ => apply IHi in H
             end; cbn [length] in *; lia.
  - intros s kvs r. rewrite parse_members_S. intros H.
    repeat (case_match; simplify_eq);
      repeat match goal with
             | H : skip_ws _ = _ :: _ |- _ => apply skip_ws_cons in H
             | H : parse_chars _ = Some _ |- _ =>
                 apply parse_chars_shorter in H
             | H : parse_value _ _ = Some _ |- _ => apply IHv in H
             | H : parse_members _ _ = Some _ |- _ => apply IHm in H
             end; cbn [length] in *; lia.
Qed.

(** What some depth of calls can read, twice the length of the text and
    two more (three for a sequence) can read as well. *)
Lemma parse_fuel_enough (fuel' : nat) :
  (forall s x, parse_value fuel' s = Some x ->
     forall fuel, (2 * length s + 2 <= fuel)%nat ->
                  parse_value fuel s = Some x)
  /\ (forall s x, parse_items fuel' s = Some x ->
        forall fuel, (2 * length s + 3 <= fuel)%nat ->
                     parse_items fuel s = Some x)
  /\ (forall s x, parse_members fuel' s = Some x ->
        forall fuel, (2 * length s + 3 <= fuel)%nat ->
                     parse_members fuel s = Some x).
Proof.
  induction fuel' as [| fuel' (IHv & IHi & IHm)]; [done |].
  destruct (parse_shorter fuel') as (Sv & Si & Sm).
  repeat split.
  - intros s x H [| fuel] Hfuel; [lia |].
    revert H. rewrite !parse_value_S.
    destruct (skip_ws s) as [| c r] eqn:Hs; [done |].
    apply skip_ws_cons in Hs.
    destruct (c =? 34); [done |].
    destruct (c =? 91).
    { destruct (skip_ws r) as [| d r']; [done |].
      destruct (d =? 93); [done |].
      destruct (parse_items fuel' r) as [[vs rest] |] eqn:E; [| done].
      intros H. by rewrite (IHi _ _ E fuel) by lia. }
    destruct (c =? 123); [| done].
    destruct (skip_ws r) as [| d r']; [done |].
    destruct (d =? 125); [done |].
    destruct (parse_members fuel' r) as [[kvs rest] |] eqn:E; [| done].
    intros H. by rewrite (IHm _ _ E fuel) by lia.
  - intros s x H [| fuel] Hfuel; [lia |].
    revert H. rewrite !parse_items_S.
    destruct (parse_value fuel' s) as [[v r] |] eqn:E; [| done].
    rewrite (IHv _ _ E fuel) by lia. apply Sv in E.
    destruct (skip_ws r) as [| c r'] eqn:Hs; [done |].
    apply skip_ws_cons in Hs.
    destruct (c =? 44); [| done].
    destruct (parse_items fuel' r') as [[vs rest] |] eqn:E'; [| done].
    intros H. by rewrite (IHi _ _ E' fuel) by lia.
  - intros s x H [| fuel] Hfuel; [lia |].
    revert H. rewrite !parse_members_S.
    destruct (skip_ws s) as [| q r0] eqn:Hs0; [done |].
    apply skip_ws_cons in Hs0.
    destruct (q =? 34); [| done].
    destruct (parse_chars r0) as [[key r1] |] eqn:Ek; [| done].
    apply parse_chars_shorter in Ek.
    destruct (skip_ws r1) as [| colon r2] eqn:Hs1; [done |].
    apply skip_ws_cons in Hs1.
    destruct (colon =? 58); [| done].
    destruct (parse_value fuel' r2) as [[v r3] |] eqn:E; [| done].
    rewrite (IHv _ _ E fuel) by lia. apply Sv in E.
    destruct (skip_ws r3) as [| c r4] eqn:Hs3; [done |].
    apply skip_ws_cons in Hs3.
    destruct (c =? 44); [| done].
    destruct (parse_members fuel' r4) as [[kvs rest] |] eqn:E'; [| done].
    intros H. by rewrite (IHm _ _ E' fuel) by lia.
Qed.

(** [JSON_parse] never fails for want of depth: it returns a value exactly
    when some depth of calls reads that value from the whole text. *)
Lemma JSON_parse_depth_free (text : jsstring) (v : json) :
  JSON_parse text = Some v <->
  exists fuel rest, parse_value fuel text = Some (v, rest)
                    /\ is_empty (skip_ws rest) = true.
Proof.
  unfold JSON_parse. split.
  - destruct (parse_value _ text) as [[v' rest] |] eqn:E; [| done].
    destruct (is_empty (skip_ws rest)) eqn:Er; [| done].
    intros [= <-]. eauto.
  - intros (fuel & rest & H & Hrest).
    destruct (parse_fuel_enough fuel) as (Hv & _).
    rewrite (Hv _ _ H) by lia. by rewrite Hrest.
Qed.

(** *** Writing and reading back *)

Lemma hex_value_digit (d : N) : d < 16 -> hex_value (hex_digit d) = Some d.
Proof.
  intros Hd. unfold hex_digit, hex_value.
  destruct (d <? 10) eqn:E.
  - apply N.ltb_lt in E.
    replace ((48 <=? 48 + d) && (48 + d <=? 57)) with true
      by (symmetry; apply andb_true_iff; split; apply N.leb_le; lia).
    f_equal. lia.
  - apply N.ltb_ge in E.
    replace ((48 <=? 87 + d) && (87 + d <=? 57)) with false
      by (symmetry; apply andb_false_iff; right; apply N.leb_gt; lia).
    replace ((97 <=? 87 + d) && (87 + d <=? 102)) with true
      by (symmetry; apply andb_true_iff; split; apply N.leb_le; lia).
    f_equal. lia.
Qed.

Lemma hex4_unicode_escape (c : N) :
  c < 65536 ->
  hex4 (hex_digit (c / 4096 mod 16)) (hex_digit (c / 256 mod 16))
       (hex_digit (c / 16 mod 16)) (hex_digit (c mod 16)) = Some c.
Proof.
  intros Hc. unfold hex4.
  rewrite !hex_value_digit by (apply N.mod_lt; lia).
  f_equal.
  assert (E256 : c / 256 = c / 16 / 16)
    by (rewrite N.Div0.div_div; reflexivity).
  assert (E4096 : c / 4096 = c / 16 / 16 / 16)
    by (rewrite !N.Div0.div_div; reflexivity).
  rewrite E4096, E256.
  pose proof (N.div_mod c 16 ltac:(lia)) as E0.
  pose proof (N.div_mod (c / 16) 16 ltac:(lia)) as E1.
  pose proof (N.div_mod (c / 16 / 16) 16 ltac:(lia)) as E2.
  assert (H3 : c / 16 / 16 / 16 < 16).
  { rewrite <- E4096. apply N.Div0.div_lt_upper_bound. lia. }
  rewrite (N.mod_small _ _ H3).
  lia.
Qed.

Lemma parse_chars_unicode_escape (c : N) (rest : jsstring) :
  c < 65536 ->
  parse_chars (unicode_escape c ++ rest) = push_unit c (parse_chars rest).
Proof.
  intros Hc. unfold unicode_escape. cbn [app parse_chars].
  change (92 =? 34) with false. change (92 =? 92) with true.
  change (117 =? 117) with true. cbn iota.
  now rewrite hex4_unicode_escape.
Qed.

Lemma parse_chars_quote_unit (c : N) (rest : jsstring) :
  parse_chars (quote_unit c ++ rest) = push_unit c (parse_chars rest).
Proof.
  unfold quote_unit.
  repeat match goal with
         | |- context [if ?x =? ?k then _ else _] =>
             destruct (N.eqb_spec x k) as [-> | ?]; [reflexivity |]
         end.
  destruct (c <? 32) eqn:E.
  - apply parse_chars_unicode_escape. apply N.ltb_lt in E. lia.
  - cbn [app parse_chars].
    destruct (N.eqb_spec c 34); [congruence |].
    destruct (N.eqb_spec c 92); [congruence |].
    now rewrite E.
Qed.

Lemma parse_chars_verbatim (c : N) (rest : jsstring) :
  32 <= c -> c <> 34 -> c <> 92 ->
  parse_chars (c :: rest) = push_unit c (parse_chars rest).
Proof.
  intros H1 H2 H3. cbn [parse_chars].
  destruct (N.eqb_spec c 34); [congruence |].
  destruct (N.eqb_spec c 92); [congruence |].
  destruct (N.ltb_spec c 32); [lia | reflexivity].
Qed.

Lemma is_lead_range c : is_lead c = true -> 55296 <= c <= 56319.
Proof. unfold is_lead. rewrite andb_true_iff, !N.leb_le. lia. Qed.

Lemma is_trail_range c : is_trail c = true -> 56320 <= c <= 57343.
Proof. unfold is_trail. rewrite andb_true_iff, !N.leb_le. lia. Qed.

Lemma parse_chars_quote_body_len (n : nat) :
  forall (s rest : jsstring),
    (length s <= n)%nat ->
    parse_chars (quote_body s ++ 34 :: rest) = Some (s, rest).
Proof.
  induction n as [| n IH]; intros s rest Hlen.
  - destruct s; [reflexivity | simpl in Hlen; lia].
  - destruct s as [| c r]; [reflexivity |].
    simpl in Hlen. cbn [quote_body].
    destruct (is_lead c) eqn:Hl.
    + apply is_lead_range in Hl.
      destruct r as [| d r'].
      * rewrite parse_chars_unicode_escape by lia. reflexivity.
      * destruct (is_trail d) eqn:Ht.
        -- apply is_trail_range in Ht. simpl in Hlen.
           rewrite <- !app_comm_cons.
           rewrite parse_chars_verbatim by lia.
           rewrite parse_chars_verbatim by lia.
           rewrite IH by lia. reflexivity.
        -- rewrite <- app_assoc, parse_chars_unicode_escape by lia.
           rewrite IH by lia. reflexivity.
    + destruct (is_trail c) eqn:Ht.
      * apply is_trail_range in Ht.
        rewrite <- app_assoc, parse_chars_unicode_escape by lia.
        rewrite IH by lia. reflexivity.
      * rewrite <- app_assoc, parse_chars_quote_unit.
        rewrite IH by lia. reflexivity.
Qed.

Lemma parse_chars_quote_body (s rest : jsstring) :
  parse_chars (quote_body s ++ 34 :: rest) = Some (s, rest).
Proof. apply (parse_chars_quote_body_len (length s)). lia. Qed.

Lemma parse_value_quote (fuel : nat) (s rest : jsstring) :
  parse_value (S fuel) (quote s ++ rest) = Some (JStr s, rest).
Proof.
  unfold quote. rewrite <- app_comm_cons, <- app_assoc.
  cbn [parse_value skip_ws app].
  change (is_json_ws 34) with false. cbn iota.
  change (34 =? 34) with true. cbn iota.
  now rewrite parse_chars_quote_body.
Qed.

Lemma parse_items_stringify (xs : list jsstring) :
  forall (fuel : nat) (rest : jsstring),
    xs <> [] -> (length xs < fuel)%nat ->
    parse_items fuel (stringify_items xs ++ rest) = Some (map JStr xs, rest).
Proof.
  induction xs as [| x xs IH]; intros fuel rest Hne Hfuel; [congruence |].
  destruct fuel as [| [| fuel]]; [simpl in Hfuel; lia ..|].
  rewrite parse_items_S.
  destruct xs as [| y ys].
  - cbn [stringify_items]. rewrite <- app_assoc.
    rewrite parse_value_quote. reflexivity.
  - change (stringify_items (x :: y :: ys))
      with (quote x ++ 44 :: stringify_items (y :: ys)).
    rewrite <- app_assoc, <- app_comm_cons.
    rewrite parse_value_quote.
    cbn [skip_ws]. change (is_json_ws 44) with false. cbn iota.
    change (44 =? 44) with true. cbn iota.
    rewrite (IH (S fuel) rest) by (simpl in *; (congruence || lia)).
    reflexivity.
Qed.

Lemma string_items_map_JStr (xs : list jsstring) :
  string_items (map JStr xs) = xs.
Proof. induction xs as [| x xs IH]; [reflexivity |]. simpl. now rewrite IH. Qed.

Lemma length_stringify_items (xs : list jsstring) :
  (length xs <= length (stringify_items xs))%nat.
Proof.
  induction xs as [| x xs IH]; [simpl; lia |].
  destruct xs as [| y ys].
  - cbn [stringify_items]. unfold quote. simpl. lia.
  - change (stringify_items (x :: y :: ys))
      with (quote x ++ 44 :: stringify_items (y :: ys)).
    unfold quote. rewrite length_app. simpl in *. lia.
Qed.

Lemma parse_value_array (fuel : nat) (x : jsstring) (xs : list jsstring)
      (rest : jsstring) :
  (length (x :: xs) < fuel)%nat ->
  parse_value (S fuel) (91 :: stringify_items (x :: xs) ++ rest)
  = Some (JArr (map JStr (x :: xs)), rest).
Proof.
  intros Hfuel.
  assert (Hfirst : exists r, stringify_items (x :: xs) ++ rest = 34 :: r).
  { destruct xs; cbn [stringify_items]; unfold quote;
      rewrite <- !app_comm_cons; eexists; reflexivity. }
  destruct Hfirst as [r Hr].
  cbn [parse_value skip_ws]. change (is_json_ws 91) with false. cbn iota.
  change (91 =? 34) with false. change (91 =? 91) with true. cbn iota.
  rewrite Hr at 1. cbn [skip_ws]. change (is_json_ws 34) with false.
  cbn iota. change (34 =? 93) with false. cbn iota.
  rewrite parse_items_stringify; [reflexivity | congruence | assumption].
Qed.

Lemma JSON_parse_stringify (xs : list jsstring) :
  JSON_parse (JSON_stringify xs) = Some (JArr (map JStr xs)).
Proof.
  unfold JSON_parse, JSON_stringify.
  destruct xs as [| x xs]; [reflexivity |].
  pose proof (length_stringify_items (x :: xs)) as Hlen.
  set (text := 91 :: stringify_items (x :: xs)).
  replace (2 * length text + 3)%nat with (S (2 * length text + 2))%nat by lia.
  subst text. rewrite <- (app_nil_r (stringify_items (x :: xs))).
  rewrite parse_value_array; [reflexivity |].
  rewrite app_nil_r. cbn [length] in *. lia.
Qed.

Lemma parseImages_stringifyImages (xs : list jsstring) :
  parseImages (stringifyImages xs) = xs.
Proof.
  unfold parseImages, stringifyImages.
  rewrite JSON_parse_stringify.
  change (is_empty (JSON_stringify xs)) with false. cbn iota.
  apply string_items_map_JStr.
Qed.

(** A lone surrogate goes out as an escape and comes back as itself. *)
Example stringify_lone_surrogate :
  JSON_stringify [[97; 55357]]
  = [91; 34; 97] ++ units "\ud83d" ++ [34; 93]
  /\ parseImages (JSON_stringify [[97; 55357]]) = [[97; 55357]].
Proof. split; reflexivity. Qed.

(** Text that is not JSON is read as a comma-separated list. *)
Example parseImages_comma_separated :
  parseImages (units "/uploads/a.png, /uploads/b.png ,,")
  = [units "/uploads/a.png"; units "/uploads/b.png"].
Proof. reflexivity. Qed.

(** Of a JSON array only the strings are kept, and other JSON values give
    the empty list. *)
Example parseImages_other_json :
  parseImages (units "[1, null, [true], {}]") = []
  /\ parseImages (units "{}") = []
  /\ parseImages (units " 12.5e-3 ") = [].
Proof. repeat split; reflexivity. Qed.

(** C10.  The image list survives the storage boundary: for every list of
    strings [xs], parsing the JSON text that [eventImageStorage.stringify]
    writes for [xs] gives [xs] back, and parsing the empty text gives the
    empty list. *)
Theorem eventImageStorage_roundtrip :
  (forall xs : list jsstring, parseImages (stringifyImages xs) = xs)
  /\ parseImages [] = [].
Proof.
  split; [exact parseImages_stringifyImages | reflexivity].
Qed.

End JsonFacts.

(* --------------------------------------------------------------------- *)
(** ** The event routes *)
(* --------------------------------------------------------------------- *)

Module EventFacts.
Import Events.

Section Facts.
Context `{rt : Runtime}.

Lemma validateSchedule_None (t d n : Z) :
  validateSchedule t d n = None <-> n < t /\ n < d /\ d < t.
Proof.
  unfold validateSchedule.
  destruct (Z.leb_spec t n); [split; [discriminate | lia] |].
  destruct (Z.leb_spec d n); [split; [discriminate | lia] |].
  destruct (Z.geb_spec d t); [split; [discriminate | lia] |].
  split; [lia | reflexivity].
Qed.

Lemma events_cleanupFiles fs st : events (cleanupFiles fs st) = events st.
Proof. destruct fs; reflexivity. Qed.

Lemma registrations_cleanupFiles fs st :
  registrations (cleanupFiles fs st) = registrations st.
Proof. destruct fs; reflexivity. Qed.

(** A branch that answers and at most removes the files of the upload:
    the tables are the ones before. *)
Ltac kept :=
  cbn; rewrite ?events_cleanupFiles, ?registrations_cleanupFiles.

Lemma schema_dates (b : EventBody) (data : EventData) :
  createEventSchema b = Some data ->
  date_field (raw_time b) = Some (data_time data)
  /\ date_field (raw_registrationDeadline b)
     = Some (data_registrationDeadline data).
Proof.
  unfold createEventSchema. intros H.
  repeat case_match; simplify_eq. split; reflexivity.
Qed.

Lemma schema_limit (b : EventBody) (data : EventData) :
  createEventSchema b = Some data ->
  raw_attendanceLimit b = Integer (data_attendanceLimit data)
  /\ 0 < data_attendanceLimit data.
Proof.
  unfold createEventSchema, limit_field. intros H.
  repeat case_match; simplify_eq. split; [reflexivity |].
  cbn. by apply Z.ltb_lt.
Qed.

(** What a call of [POST /events] can do. *)
Lemma postEvent_inv env req st :
  (status (postEvent env req st).1 <> 201
   /\ events (postEvent env req st).2 = events st
   /\ registrations (postEvent env req st).2 = registrations st)
  \/ (exists data,
        uploadError req = None
        /\ validDraft (body req) (now env) data
        /\ events st !! newId env = None
        /\ status (postEvent env req st).1 = 201
        /\ events (postEvent env req st).2
           = <[newId env := createData env req data]> (events st)
        /\ registrations (postEvent env req st).2 = registrations st).
Proof.
  unfold postEvent, handleCreateEvent, validDraft.
  destruct (uploadError req) as [msg |] eqn:Hup.
  { left. by kept. }
  destruct (createEventSchema (body req)) as [data |] eqn:Hs.
  2:{ left. by kept. }
  destruct (validateSchedule _ _ _) as [msg |] eqn:Hv.
  { left. cbn. done. }
  apply validateSchedule_None in Hv.
  destruct (events st !! newId env) as [old |] eqn:Hk.
  { left. by kept. }
  right. exists data. cbn. intuition.
Qed.

(** What a call of [PUT /events/:eventId] can do. *)
Lemma putEvent_inv env req st :
  (status (putEvent env req st).1 <> 200
   /\ events (putEvent env req st).2 = events st
   /\ registrations (putEvent env req st).2 = registrations st)
  \/ (exists data e,
        uploadError req = None
        /\ validDraft (body req) (now env) data
        /\ params_eventId req <> []
        /\ events st !! params_eventId req = Some e
        /\ ownerId e = sub (user req)
        /\ status (putEvent env req st).1 = 200
        /\ events (putEvent env req st).2
           = <[params_eventId req := updateData req data e]> (events st)
        /\ registrations (putEvent env req st).2 = registrations st).
Proof.
  unfold putEvent, handleUpdateEvent, updateEventSchema, validDraft.
  destruct (uploadError req) as [msg |] eqn:Hup.
  { left. by kept. }
  destruct (createEventSchema (body req)) as [data |] eqn:Hs.
  2:{ left. by kept. }
  destruct (params_eventId req) as [| c k'] eqn:Hid.
  { left. by kept. }
  cbn [is_empty]. cbv iota.
  destruct (events st !! (c :: k')) as [e |] eqn:Hk.
  2:{ left. by kept. }
  destruct (bool_decide (ownerId e = sub (user req))) eqn:How.
  2:{ left. by kept. }
  apply bool_decide_eq_true in How. cbn [negb]. cbv iota.
  destruct (validateSchedule _ _ _) as [msg |] eqn:Hv.
  { left. cbn. done. }
  apply validateSchedule_None in Hv.
  right. exists data, e. cbn.
  destruct (default [] (files req)); cbn; intuition congruence.
Qed.

(** What a call of [DELETE /events/:eventId] can do. *)
Lemma deleteEvent_inv req st :
  (status (deleteEvent req st).1 <> 204 /\ (deleteEvent req st).2 = st)
  \/ (exists e,
        params_eventId req <> []
        /\ events st !! params_eventId req = Some e
        /\ ownerId e = sub (user req)
        /\ status (deleteEvent req st).1 = 204
        /\ (deleteEvent req st).2
           = deleteStoredImageFiles (parseImages (images e))
               (prisma_event_delete (params_eventId req) st)).
Proof.
  unfold deleteEvent.
  destruct (params_eventId req) as [| c k'] eqn:Hid; [left; by cbn |].
  cbn [is_empty]. cbv iota.
  destruct (events st !! (c :: k')) as [e |] eqn:Hk; [| left; by cbn].
  destruct (bool_decide (ownerId e = sub (user req))) eqn:How;
    [| left; by cbn].
  apply bool_decide_eq_true in How.
  right. exists e. cbn. intuition congruence.
Qed.

(** ** The ledger *)

Lemma ledger_count_app e l1 l2 :
  ledger_count e (l1 ++ l2) = (ledger_count e l1 + ledger_count e l2)%nat.
Proof. unfold ledger_count. by rewrite List.filter_app, length_app. Qed.

Lemma ledger_count_deleteAll_same e l :
  ledger_count e (ledger_deleteAllForEvent e l) = 0%nat.
Proof.
  unfold ledger_count, ledger_deleteAllForEvent.
  induction l as [| r l IH]; [reflexivity |].
  cbn. destruct (registeredFor e r) eqn:E; cbn; [exact IH |].
  rewrite E. exact IH.
Qed.

Lemma ledger_count_deleteAll_other e k l :
  e <> k ->
  ledger_count e (ledger_deleteAllForEvent k l) = ledger_count e l.
Proof.
  intros Hne. unfold ledger_count, ledger_deleteAllForEvent, registeredFor.
  induction l as [| r l IH]; [reflexivity |].
  cbn [List.filter].
  repeat (case_bool_decide; cbn [negb List.filter length]);
    simplify_eq; try congruence; by rewrite IH.
Qed.

Lemma In_deleteAll r k l :
  In r (ledger_deleteAllForEvent k l) <-> In r l /\ eventId r <> k.
Proof.
  unfold ledger_deleteAllForEvent, registeredFor.
  rewrite List.filter_In, negb_true_iff, bool_decide_eq_false. tauto.
Qed.

Lemma ledger_count_none e l :
  (forall r, In r l -> eventId r <> e) -> ledger_count e l = 0%nat.
Proof.
  intros H. unfold ledger_count.
  induction l as [| r l IH]; [reflexivity |].
  cbn. unfold registeredFor at 1.
  rewrite bool_decide_eq_false_2 by (apply H; by left).
  apply IH. intros r' Hr'. apply H. by right.
Qed.

(** What a call of [Register] can do. *)
Lemma Register_inv k u t st :
  ((Register k u t st).2 = st
   /\ forall n, (Register k u t st).1 <> Confirmation n)
  \/ (exists e,
        events st !! k = Some e
        /\ t < registrationDeadline e
        /\ Z.of_nat (ledger_count k (registrations st)) < attendanceLimit e
        /\ ledger_exists u k (registrations st) = false
        /\ (Register k u t st).1
           = Confirmation (S (ledger_count k (registrations st)))
        /\ events (Register k u t st).2 = events st
        /\ registrations (Register k u t st).2
           = registrations st
             ++ [{| userId := u; eventId := k; createdAt := t |}]).
Proof.
  unfold Register, ledger_insert.
  destruct (events st !! k) as [e |] eqn:Hk; [| left; by cbn].
  destruct (Z.geb_spec t (registrationDeadline e)); [left; by cbn |].
  destruct (Z.geb_spec (Z.of_nat (ledger_count k (registrations st)))
              (attendanceLimit e)); [left; by cbn |].
  destruct (ledger_exists u k (registrations st)) eqn:Hex; [left; by cbn |].
  right. exists e. cbn. repeat split; try done.
  rewrite ledger_count_app. unfold ledger_count at 2. cbn.
  unfold registeredFor. rewrite bool_decide_eq_true_2 by done. cbn.
  f_equal. lia.
Qed.

(** ** Runs *)

Lemma run_app (calls1 calls2 : list Call) (st : State) :
  run (calls1 ++ calls2) st = run calls2 (run calls1 st).
Proof. unfold run. apply fold_left_app. Qed.

Lemma run_cons (c : Call) (calls : list Call) (st : State) :
  run (c :: calls) st = run calls (step c st).
Proof. reflexivity. Qed.

(** A property that the initial state has and every call keeps holds in
    every reachable state. *)
Lemma reachable_ind (P : State -> Prop) :
  P initial ->
  (forall c st, P st -> P (step c st)) ->
  forall st, reachable st -> P st.
Proof.
  intros H0 Hstep st [calls <-].
  induction calls as [| c calls IH] using rev_ind; [exact H0 |].
  rewrite run_app. cbn. apply Hstep, IH.
Qed.

(** ** The deadline is before the start *)

Lemma ordered_insert k e st st' :
  ordered st ->
  registrationDeadline e < startsAt e ->
  events st' = <[k := e]> (events st) ->
  ordered st'.
Proof.
  intros Hord He Hev k' e' Hk'. rewrite Hev in Hk'.
  destruct (decide (k = k')) as [-> | Hne].
  - rewrite lookup_insert_eq in Hk'. by simplify_eq.
  - rewrite lookup_insert_ne in Hk' by done. by eapply Hord.
Qed.

Lemma ordered_same st st' :
  ordered st -> events st' = events st -> ordered st'.
Proof. intros Hord Hev k e Hk. rewrite Hev in Hk. by eapply Hord. Qed.

Lemma ordered_step c st : ordered st -> ordered (step c st).
Proof.
  intros Hord. destruct c as [env req | env req | req | req | k u t]; cbn.
  - destruct (postEvent_inv env req st)
      as [(_ & Hev & _) | (data & _ & Hv & _ & _ & Hev & _)].
    + by eapply ordered_same.
    + eapply ordered_insert; [done | | exact Hev]. apply Hv.
  - destruct (putEvent_inv env req st)
      as [(_ & Hev & _) | (data & e & _ & Hv & _ & _ & _ & _ & Hev & _)].
    + by eapply ordered_same.
    + eapply ordered_insert; [done | | exact Hev]. apply Hv.
  - destruct (deleteEvent_inv req st) as [(_ & ->) | (e & _ & _ & _ & _ & ->)];
      [done |].
    intros k e' Hk. cbn in Hk.
    apply lookup_delete_Some in Hk as [_ Hk]. by eapply Hord.
  - done.
  - destruct (Register_inv k u t st) as [(-> & _) | (e & _ & _ & _ & _ & _ & Hev & _)];
      [done |].
    by eapply ordered_same.
Qed.

Lemma ordered_reachable st : reachable st -> ordered st.
Proof.
  apply reachable_ind; [| exact ordered_step].
  intros k e Hk. cbn in Hk. by rewrite lookup_empty in Hk.
Qed.

Lemma violatesOrder_not_valid b n data :
  violatesOrder b -> ~ validDraft b n data.
Proof.
  intros (t & d & Ht & Hd & Hle) (Hs & Hlt & _).
  apply schema_dates in Hs as [Ht' Hd'].
  rewrite Ht in Ht'. rewrite Hd in Hd'. simplify_eq. lia.
Qed.

Lemma postEvent_rejects env req st :
  (~ exists data, uploadError req = None
                  /\ validDraft (body req) (now env) data) ->
  status (postEvent env req st).1 = 400
  /\ events (postEvent env req st).2 = events st.
Proof.
  intros Hno. unfold postEvent, handleCreateEvent.
  destruct (uploadError req) as [msg |] eqn:Hup;
    [by kept |].
  destruct (createEventSchema (body req)) as [data |] eqn:Hs;
    [| by kept].
  destruct (validateSchedule _ _ _) as [msg |] eqn:Hv; [by cbn |].
  apply validateSchedule_None in Hv. exfalso. apply Hno.
  exists data. unfold validDraft. intuition.
Qed.

Lemma putEvent_rejects env req st :
  (~ exists data, validDraft (body req) (now env) data) ->
  (status (putEvent env req st).1 = 400
   \/ status (putEvent env req st).1 = 403
   \/ status (putEvent env req st).1 = 404)
  /\ events (putEvent env req st).2 = events st.
Proof.
  intros Hno. unfold putEvent, handleUpdateEvent, updateEventSchema.
  destruct (uploadError req) as [msg |];
    [kept; auto |].
  destruct (createEventSchema (body req)) as [data |] eqn:Hs;
    [| kept; auto].
  destruct (is_empty (params_eventId req));
    [kept; auto |].
  destruct (events st !! params_eventId req) as [e |];
    [| kept; auto].
  destruct (negb (bool_decide (ownerId e = sub (user req))));
    [kept; auto |].
  destruct (validateSchedule _ _ _) as [msg |] eqn:Hv; [cbn; auto |].
  apply validateSchedule_None in Hv. exfalso. apply Hno.
  exists data. unfold validDraft. intuition.
Qed.

(** C4.  In every state the service can reach, each stored event has its
    registration deadline before its start; a create or an update whose
    draft has the deadline at or after the start is rejected (400; for an
    update 400, 403 or 404) and the event store stays as it was. *)
Theorem deadline_before_start :
  (forall st, reachable st ->
     forall k e, events st !! k = Some e ->
                 registrationDeadline e < startsAt e)
  /\ (forall env req st, violatesOrder (body req) ->
        status (postEvent env req st).1 = 400
        /\ events (postEvent env req st).2 = events st)
  /\ (forall env req st, violatesOrder (body req) ->
        (status (putEvent env req st).1 = 400
         \/ status (putEvent env req st).1 = 403
         \/ status (putEvent env req st).1 = 404)
        /\ events (putEvent env req st).2 = events st).
Proof.
  split; [exact ordered_reachable |].
  split; intros env req st Hbad.
  - apply postEvent_rejects. intros (data & _ & Hv).
    by eapply violatesOrder_not_valid.
  - apply putEvent_rejects. intros (data & Hv).
    by eapply violatesOrder_not_valid.
Qed.

(** ** Creating an event *)

(** What the schema of the event form accepts, field by field. *)
Lemma createEventSchema_Some (b : EventBody) (data : EventData) :
  createEventSchema b = Some data <->
  string_between 1 200 (raw_name b) = Some (data_name data)
  /\ string_between 1 4000 (raw_description b) = Some (data_description data)
  /\ string_between 1 240 (raw_location b) = Some (data_location data)
  /\ date_field (raw_time b) = Some (data_time data)
  /\ string_between 1 200 (raw_eventOwner b) = Some (data_eventOwner data)
  /\ string_between 1 200 (raw_category b) = Some (data_category data)
  /\ raw_attendanceLimit b = Integer (data_attendanceLimit data)
  /\ 0 < data_attendanceLimit data
  /\ date_field (raw_registrationDeadline b)
     = Some (data_registrationDeadline data).
Proof.
  unfold createEventSchema, limit_field. split.
  - intros H. repeat case_match; simplify_eq. cbn.
    repeat split; try done. by apply Z.ltb_lt.
  - intros (-> & -> & -> & -> & -> & -> & -> & Hpos & ->).
    apply Z.ltb_lt in Hpos. rewrite Hpos. by destruct data.
Qed.

Lemma string_between_Some lo hi v s :
  string_between lo hi v = Some s <->
  v = Some s /\ (lo <= length s <= hi)%nat.
Proof.
  unfold string_between, string_min. split.
  - intros H. repeat case_match; simplify_eq.
    repeat match goal with
           | H : Nat.leb _ _ = true |- _ => apply Nat.leb_le in H
           end.
    split; [done | lia].
  - intros [-> [Hlo Hhi]].
    apply Nat.leb_le in Hlo, Hhi. by rewrite Hlo, Hhi.
Qed.

Lemma date_field_Some v t :
  date_field v = Some t <->
  exists s, v = Some s /\ (1 <= length s)%nat /\ Date_parse s = Some t.
Proof.
  unfold date_field, string_min. split.
  - intros H. repeat case_match; simplify_eq.
    match goal with
    | H : Nat.leb _ _ = true |- _ => apply Nat.leb_le in H
    end.
    eauto.
  - intros (s & -> & Hlen & Hp). apply Nat.leb_le in Hlen.
    by rewrite Hlen.
Qed.

(** C5, amended.  A create call whose upload went through and whose drawn
    key is free stores a new event exactly when the draft passes the
    schema of the form (which asks for a positive whole attendance limit)
    and has its deadline before its start and both after now; the event is
    then stored under the drawn key with the caller as owner, and the
    reply is 201.  Otherwise the reply is 400 and the store is as it
    was. *)
Theorem create_exactly_when_valid env req st :
  uploadError req = None ->
  events st !! newId env = None ->
  ((exists data, validDraft (body req) (now env) data)
   <-> status (postEvent env req st).1 = 201)
  /\ (forall data, validDraft (body req) (now env) data ->
        0 < data_attendanceLimit data
        /\ ownerId (createData env req data) = sub (user req)
        /\ events (postEvent env req st).2
           = <[newId env := createData env req data]> (events st))
  /\ ((~ exists data, validDraft (body req) (now env) data) ->
        status (postEvent env req st).1 = 400
        /\ events (postEvent env req st).2 = events st).
Proof.
  intros Hup Hfresh.
  assert (Hgood : forall data, validDraft (body req) (now env) data ->
            postEvent env req st
            = (reply 201
                 (WithEvent (Some (units "Event created successfully"))
                    (toPublicEvent (createData env req data))),
               {| events := <[newId env := createData env req data]>
                              (events st);
                  registrations := registrations st;
                  disk := disk st |})).
  { intros data (Hs & H1 & H2 & H3).
    unfold postEvent, handleCreateEvent. rewrite Hup, Hs.
    assert (Hv : validateSchedule (data_time data)
                   (data_registrationDeadline data) (now env) = None)
      by (apply validateSchedule_None; lia).
    by rewrite Hv, Hfresh. }
  assert (Hbad : (~ exists data, validDraft (body req) (now env) data) ->
            status (postEvent env req st).1 = 400
            /\ events (postEvent env req st).2 = events st).
  { intros Hno. apply postEvent_rejects. intros (data & _ & Hv). eauto. }
  repeat split.
  - intros (data & Hv). by rewrite (Hgood data Hv).
  - intros H201.
    destruct (postEvent_inv env req st)
      as [(Hne & _) | (data & _ & Hv & _)]; [done | eauto].
  - by eapply schema_limit, H.
  - by rewrite (Hgood data H).
  - by apply Hbad.
  - by apply Hbad.
Qed.

(** ** Updating an event *)

(** C6, amended.  An update of an existing event by someone who is not its
    owner always fails and leaves the event store as it was; the reply is
    403 when the upload went through and the body passes the schema of
    the form (and the route has an event id), and 400 otherwise. *)
Theorem update_by_non_owner env req st e :
  events st !! params_eventId req = Some e ->
  ownerId e <> sub (user req) ->
  events (putEvent env req st).2 = events st
  /\ (status (putEvent env req st).1 = 403
      \/ status (putEvent env req st).1 = 400)
  /\ (status (putEvent env req st).1 = 403
      <-> uploadError req = None
          /\ is_Some (updateEventSchema (body req))
          /\ params_eventId req <> []).
Proof.
  intros Hk Hown.
  unfold putEvent, handleUpdateEvent.
  destruct (uploadError req) as [msg |].
  { kept.
    repeat split; auto; first [done | by intros [? ?]]. }
  destruct (updateEventSchema (body req)) as [data |].
  2:{ kept.
      repeat split; auto; first [done | by intros (? & [? ?] & ?)]. }
  destruct (params_eventId req) as [| c k'] eqn:Ek.
  { kept.
    repeat split; auto; first [done | by intros (? & ? & ?)]. }
  cbn [is_empty]. cbv iota. rewrite Hk.
  rewrite bool_decide_eq_false_2 by done. cbn.
  rewrite events_cleanupFiles. repeat split; eauto.
Qed.

Lemma events_deleteStoredImageFiles refs st :
  events (deleteStoredImageFiles refs st) = events st.
Proof. reflexivity. Qed.

Lemma putEvent_updated env req st :
  status (putEvent env req st).1 = 200 ->
  exists data e,
    events st !! params_eventId req = Some e
    /\ events (putEvent env req st).2 !! params_eventId req
       = Some (updateData req data e).
Proof.
  intros H200.
  destruct (putEvent_inv env req st)
    as [(Hne & _) | (data & e & _ & _ & _ & Hk & _ & _ & Hev & _)];
    [done |].
  exists data, e. split; [done |]. by rewrite Hev, lookup_insert_eq.
Qed.

(** C8.  After a successful update the stored image list is the list of
    the new images when the request carried any, in the order of the
    upload, and the list the event had before when it carried none. *)
Theorem update_replaces_or_keeps_images env req st :
  status (putEvent env req st).1 = 200 ->
  exists e e',
    events st !! params_eventId req = Some e
    /\ events (putEvent env req st).2 !! params_eventId req = Some e'
    /\ (forall f fs, files req = Some (f :: fs) ->
          parseImages (images e') = map imagePath (f :: fs))
    /\ (default [] (files req) = [] ->
          parseImages (images e') = parseImages (images e)).
Proof.
  intros H200.
  destruct (putEvent_updated env req st H200) as (data & e & Hk & Hk').
  exists e, (updateData req data e). repeat split; try done.
  - intros f fs Hf. unfold updateData. cbn [images].
    rewrite parseImages_stringifyImages, Hf. reflexivity.
  - intros Hf. unfold updateData. cbn [images].
    rewrite parseImages_stringifyImages, Hf. reflexivity.
Qed.

(** ** Deleting an event *)

Lemma gone_step k c st :
  events st !! k = None -> ~ draws k c -> events (step c st) !! k = None.
Proof.
  intros Hk Hc. destruct c as [env req | env req | req | req | k' u t]; cbn.
  - destruct (postEvent_inv env req st)
      as [(_ & -> & _) | (data & _ & _ & _ & _ & -> & _)]; [done |].
    rewrite lookup_insert_ne; [done |]. exact Hc.
  - destruct (putEvent_inv env req st)
      as [(_ & -> & _) | (data & e & _ & _ & _ & He & _ & _ & -> & _)];
      [done |].
    rewrite lookup_insert_ne; [done |]. intros <-. congruence.
  - destruct (deleteEvent_inv req st) as [(_ & ->) | (e & _ & _ & _ & _ & ->)];
      [done |].
    cbn. by apply lookup_delete_None; right.
  - done.
  - destruct (Register_inv k' u t st)
      as [(-> & _) | (e & _ & _ & _ & _ & _ & -> & _)]; done.
Qed.

Lemma gone_run k calls st :
  events st !! k = None -> Forall (fun c => ~ draws k c) calls ->
  events (run calls st) !! k = None.
Proof.
  intros Hk Hcalls. revert st Hk.
  induction Hcalls as [| c calls Hc _ IH]; intros st Hk; [done |].
  rewrite run_cons. by apply IH, gone_step.
Qed.

Lemma getEvent_gone req st :
  params_eventId req <> [] ->
  events st !! params_eventId req = None ->
  status (getEvent req st) = 404.
Proof.
  intros Hid Hk. unfold getEvent.
  destruct (params_eventId req); [done |]. cbn [is_empty]. cbv iota.
  by rewrite Hk.
Qed.

(** C7.  A delete that succeeds (204) was asked by the owner of a stored
    event; afterwards the event is not in the store, no registration
    names it, none of the files its image list refers to is on disk, and
    a get of that key is answered with 404, now and after any further
    calls, as long as the storage layer does not draw the same key again
    for a new event. *)
Theorem delete_removes_everything req st :
  status (deleteEvent req st).1 = 204 ->
  exists e,
    events st !! params_eventId req = Some e
    /\ ownerId e = sub (user req)
    /\ events (deleteEvent req st).2 !! params_eventId req = None
    /\ (forall r, In r (registrations (deleteEvent req st).2) ->
                  eventId r <> params_eventId req)
    /\ ledger_count (params_eventId req)
         (registrations (deleteEvent req st).2) = 0%nat
    /\ (forall ref, In ref (parseImages (images e)) ->
                    absolute ref ∉ disk (deleteEvent req st).2)
    /\ (forall calls get,
          Forall (fun c => ~ draws (params_eventId req) c) calls ->
          params_eventId get = params_eventId req ->
          status (getEvent get (run calls (deleteEvent req st).2)) = 404).
Proof.
  intros H204.
  destruct (deleteEvent_inv req st)
    as [(Hne & _) | (e & Hid & Hk & Hown & _ & Hst)]; [done |].
  exists e. rewrite Hst.
  assert (Hgone : events (deleteStoredImageFiles (parseImages (images e))
                            (prisma_event_delete (params_eventId req) st))
                  !! params_eventId req = None)
    by (cbn; apply lookup_delete_eq).
  repeat split; try done.
  - intros r Hr. cbn in Hr. by apply In_deleteAll in Hr as [_ ?].
  - cbn. apply ledger_count_deleteAll_same.
  - intros ref Href. cbn. intros Hin.
    apply elem_of_difference in Hin as [_ Hnot]. apply Hnot.
    apply elem_of_list_to_set, list_elem_of_In, in_map, Href.
  - intros calls get Hcalls Hget. apply getEvent_gone.
    + by rewrite Hget.
    + rewrite Hget. by apply gone_run.
Qed.

(** ** Registering *)

(** C1.  [Register] answers NotFoundError when the event is not stored,
    RegistrationClosedError when now is at or past its deadline,
    CapacityExceededError when it is open and has as many registrations as
    its limit, DuplicateRegistrationError when it is open, has room, and
    the user already holds a registration for it; in the remaining case it
    records the registration and confirms with the number of
    registrations the event then has.  A failing call changes nothing, and
    a call fails exactly when one of the four conditions holds. *)
Theorem Register_contract k u t st :
  (events st !! k = None -> Register k u t st = (NotFoundError, st))
  /\ (forall e, events st !! k = Some e ->
        let count := Z.of_nat (ledger_count k (registrations st)) in
        (registrationDeadline e <= t ->
           Register k u t st = (RegistrationClosedError, st))
        /\ (t < registrationDeadline e -> attendanceLimit e <= count ->
              Register k u t st = (CapacityExceededError, st))
        /\ (t < registrationDeadline e -> count < attendanceLimit e ->
            ledger_exists u k (registrations st) = true ->
              Register k u t st = (DuplicateRegistrationError, st))
        /\ (t < registrationDeadline e -> count < attendanceLimit e ->
            ledger_exists u k (registrations st) = false ->
              let st' := (Register k u t st).2 in
              (Register k u t st).1
              = Confirmation (ledger_count k (registrations st'))
              /\ ledger_count k (registrations st')
                 = S (ledger_count k (registrations st))
              /\ ledger_exists u k (registrations st') = true
              /\ events st' = events st))
  /\ ((forall n, (Register k u t st).1 <> Confirmation n)
      <-> (events st !! k = None
           \/ exists e, events st !! k = Some e
                /\ (registrationDeadline e <= t
                    \/ attendanceLimit e
                       <= Z.of_nat (ledger_count k (registrations st))
                    \/ ledger_exists u k (registrations st) = true))).
Proof.
  unfold Register, ledger_insert.
  destruct (events st !! k) as [e |] eqn:Hk.
  2:{ repeat split; try done. intros _. by left. }
  split; [done |].
  destruct (Z.geb_spec t (registrationDeadline e)) as [Hclosed | Hopen].
  { split.
    - intros e' [= <-]. cbn. repeat split; intros; first [done | lia].
    - split; [| done]. intros _. right. exists e. split; [done |]. by left. }
  destruct (Z.geb_spec (Z.of_nat (ledger_count k (registrations st)))
              (attendanceLimit e)) as [Hfull | Hroom].
  { split.
    - intros e' [= <-]. cbn. repeat split; intros; first [done | lia].
    - split; [| done]. intros _. right. exists e. split; [done |].
      right; left; lia. }
  destruct (ledger_exists u k (registrations st)) eqn:Hex.
  { split.
    - intros e' [= <-]. cbn. repeat split; intros; first [done | lia].
    - split; [| done]. intros _. right. exists e. split; [done |]. auto. }
  assert (Hcount : ledger_count k
            (registrations st
             ++ [{| userId := u; eventId := k; createdAt := t |}])
          = S (ledger_count k (registrations st))).
  { rewrite ledger_count_app. unfold ledger_count at 2. cbn.
    unfold registeredFor. rewrite bool_decide_eq_true_2 by done. cbn. lia. }
  split.
  - intros e' [= <-]. cbn. repeat split; intros; try first [done | lia].
    unfold ledger_exists. rewrite existsb_app. cbn.
    unfold registeredFor. rewrite !bool_decide_eq_true_2 by done.
    cbn. apply orb_true_r.
  - cbn. split.
    + intros H. by specialize (H (ledger_count k
                 (registrations st
                  ++ [{| userId := u; eventId := k; createdAt := t |}]))).
    + intros [? | (e' & [= <-] & [? | [? | ?]])]; first [done | lia].
Qed.

(** ** Capacity *)

Lemma referenced_step c st : referenced st -> referenced (step c st).
Proof.
  intros Href. destruct c as [env req | env req | req | req | k u t]; cbn.
  - destruct (postEvent_inv env req st)
      as [(_ & Hev & Hr) | (data & _ & _ & _ & _ & Hev & Hr)];
      intros r Hin; rewrite Hr in Hin; rewrite Hev; [by apply Href |].
    apply lookup_insert_is_Some'. right. by apply Href.
  - destruct (putEvent_inv env req st)
      as [(_ & Hev & Hr) | (data & e & _ & _ & _ & _ & _ & _ & Hev & Hr)];
      intros r Hin; rewrite Hr in Hin; rewrite Hev; [by apply Href |].
    apply lookup_insert_is_Some'. right. by apply Href.
  - destruct (deleteEvent_inv req st) as [(_ & ->) | (e & _ & _ & _ & _ & ->)];
      [done |].
    intros r Hin. cbn in Hin |- *.
    apply In_deleteAll in Hin as [Hin Hne].
    rewrite lookup_delete_ne by done. by apply Href.
  - done.
  - destruct (Register_inv k u t st)
      as [(-> & _) | (e & Hk & _ & _ & _ & _ & Hev & Hr)]; [done |].
    intros r Hin. rewrite Hr in Hin. rewrite Hev.
    apply in_app_or in Hin as [Hin | [<- | []]]; [by apply Href |].
    cbn. by rewrite Hk.
Qed.

Lemma withinLimits_step c st :
  referenced st -> withinLimits st -> lowersBelowCount c st = false ->
  withinLimits (step c st).
Proof.
  intros Href Hlim Hlow.
  destruct c as [env req | env req | req | req | k u t]; cbn.
  - destruct (postEvent_inv env req st)
      as [(_ & Hev & Hr) | (data & _ & Hv & Hfresh & _ & Hev & Hr)];
      intros k e Hk; rewrite Hr; rewrite Hev in Hk; [by apply Hlim |].
    destruct (decide (newId env = k)) as [<- | Hne].
    + rewrite lookup_insert_eq in Hk. simplify_eq. cbn.
      rewrite ledger_count_none.
      * destruct Hv as [Hs _]. apply schema_limit in Hs. lia.
      * intros r Hin Heq. destruct (Href r Hin) as [e' He'].
        rewrite Heq in He'. congruence.
    + rewrite lookup_insert_ne in Hk by done. by apply Hlim.
  - destruct (putEvent_inv env req st)
      as [(_ & Hev & Hr)
         | (data & e & _ & Hv & _ & Hk0 & _ & H200 & Hev & Hr)];
      intros k e' Hk; rewrite Hr; rewrite Hev in Hk; [by apply Hlim |].
    destruct (decide (params_eventId req = k)) as [<- | Hne].
    + rewrite lookup_insert_eq in Hk. simplify_eq. cbn.
      cbn [lowersBelowCount] in Hlow. destruct Hv as [Hs _].
      unfold updateEventSchema in Hlow. rewrite H200, Hs in Hlow.
      cbn [Z.eqb Pos.eqb andb] in Hlow.
      apply Z.ltb_ge in Hlow. exact Hlow.
    + rewrite lookup_insert_ne in Hk by done. by apply Hlim.
  - destruct (deleteEvent_inv req st) as [(_ & ->) | (e & _ & _ & _ & _ & ->)];
      [done |].
    intros k e' Hk.
    cbn [events registrations deleteStoredImageFiles prisma_event_delete]
      in Hk |- *.
    apply lookup_delete_Some in Hk as [Hne Hk].
    rewrite ledger_count_deleteAll_other by done. by apply Hlim.
  - done.
  - destruct (Register_inv k u t st)
      as [(-> & _) | (e & Hk & _ & Hroom & _ & _ & Hev & Hr)]; [done |].
    intros k' e' Hk'. rewrite Hr. rewrite Hev in Hk'.
    rewrite ledger_count_app. unfold ledger_count at 2. cbn.
    unfold registeredFor. case_bool_decide; cbn.
    + subst k'. cbn [eventId] in *. simplify_eq. lia.
    + specialize (Hlim k' e' Hk'). lia.
Qed.

Lemma referenced_run calls st : referenced st -> referenced (run calls st).
Proof.
  revert st. induction calls as [| c calls IH]; intros st H; [done |].
  rewrite run_cons. by apply IH, referenced_step.
Qed.

(** C2, amended.  Along every run in which no update sets the limit of an
    event below the number of registrations the event has at that moment,
    no event has more stored registrations than its attendance limit. *)
Theorem registrations_within_limits calls :
  keepsLimits calls initial ->
  forall k e, events (run calls initial) !! k = Some e ->
              Z.of_nat (ledger_count k (registrations (run calls initial)))
              <= attendanceLimit e.
Proof.
  assert (Hgen : forall st, referenced st -> withinLimits st ->
                            keepsLimits calls st ->
                            withinLimits (run calls st)).
  { induction calls as [| c calls IH]; intros st Href Hlim Hkeep; [done |].
    destruct Hkeep as [Hc Hrest]. rewrite run_cons.
    apply IH; [by apply referenced_step | by apply withinLimits_step | done]. }
  intros Hkeep. apply Hgen; [| | done].
  - intros r [].
  - intros k e Hk. cbn in Hk. by rewrite lookup_empty in Hk.
Qed.

Lemma Register_confirmed k u t st e :
  events st !! k = Some e ->
  t < registrationDeadline e ->
  Z.of_nat (ledger_count k (registrations st)) < attendanceLimit e ->
  ledger_exists u k (registrations st) = false ->
  Register k u t st
  = (Confirmation (S (ledger_count k (registrations st))),
     {| events := events st;
        registrations :=
          registrations st
          ++ [{| userId := u; eventId := k; createdAt := t |}];
        disk := disk st |}).
Proof.
  intros Hk Hopen Hroom Hnew.
  destruct (Register_inv k u t st)
    as [(_ & Hno) | (e' & _ & _ & _ & _ & Hres & Hev & Hr)].
  - exfalso. revert Hno. unfold Register, ledger_insert. rewrite Hk, Hnew.
    destruct (Z.geb_spec t (registrationDeadline e)); [lia |].
    destruct (Z.geb_spec (Z.of_nat (ledger_count k (registrations st)))
                (attendanceLimit e)); [lia |].
    intros Hno. by eapply Hno.
  - destruct (Register k u t st) as [r st'] eqn:E. cbn in Hres, Hev, Hr.
    subst r. f_equal.
    assert (Hd : disk st' = disk st).
    { revert E. unfold Register, ledger_insert.
      repeat case_match; intros; by simplify_eq. }
    destruct st'. cbn in *. by subst.
Qed.

Lemma Register_full k u t st e :
  events st !! k = Some e ->
  t < registrationDeadline e ->
  attendanceLimit e <= Z.of_nat (ledger_count k (registrations st)) ->
  Register k u t st = (CapacityExceededError, st).
Proof.
  intros Hk Hopen Hfull. unfold Register. rewrite Hk.
  destruct (Z.geb_spec t (registrationDeadline e)); [lia |].
  destruct (Z.geb_spec (Z.of_nat (ledger_count k (registrations st)))
              (attendanceLimit e)); [done | lia].
Qed.

(** Two calls for the last seat of an open event, served one after the
    other, the first by a user who holds no registration for it: the
    first is confirmed and the second finds the event full. *)
Lemma last_seat_one_after_the_other k u1 u2 t1 t2 st e :
  events st !! k = Some e ->
  t1 < registrationDeadline e -> t2 < registrationDeadline e ->
  Z.of_nat (ledger_count k (registrations st)) + 1 = attendanceLimit e ->
  ledger_exists u1 k (registrations st) = false ->
  (Register k u1 t1 st).1
  = Confirmation (S (ledger_count k (registrations st)))
  /\ (Register k u2 t2 (Register k u1 t1 st).2).1 = CapacityExceededError.
Proof.
  intros Hk H1 H2 Hseat Hnew.
  rewrite (Register_confirmed k u1 t1 st e) by (done || lia).
  split; [done |]. cbn [snd].
  rewrite (Register_full k u2 t2 _ e); [done | done | done |].
  cbn [registrations]. rewrite ledger_count_app.
  unfold ledger_count at 2. cbn.
  unfold registeredFor. rewrite bool_decide_eq_true_2 by done. cbn. lia.
Qed.

End Facts.

(** *** Examples on the sample data *)

Lemma deadline_before_start_witness :
  match events Sample.afterGameNight !! units "e1" with
  | Some e => registrationDeadline e < startsAt e
  | None => False
  end
  /\ status (postEvent (rt := Sample.runtime) (Sample.env "e2")
               (Sample.post "ada"
                  (Sample.form (Some (units "Late")) 5
                     Sample.deadline Sample.start) [])
               Sample.afterGameNight).1 = 400
  /\ events (putEvent (rt := Sample.runtime) Sample.today
               (Sample.request "ada" "e1"
                  (Sample.form (Some (units "Late")) 5
                     Sample.deadline Sample.start) [])
               Sample.afterGameNight).2 = events Sample.afterGameNight.
Proof.
  destruct (deadline_before_start (rt := Sample.runtime))
    as (Hinv & Hcreate & Hupdate).
  assert (Hbad : violatesOrder (rt := Sample.runtime)
                   (Sample.form (Some (units "Late")) 5
                      Sample.deadline Sample.start)).
  { exists 1903255200000, 1903860000000.
    repeat split; [vm_compute; reflexivity ..| lia]. }
  split; [| split].
  - destruct (events Sample.afterGameNight !! units "e1") as [e |] eqn:E.
    + apply (Hinv Sample.afterGameNight
               (ex_intro _ [Sample.gameNight] eq_refl) (units "e1") e E).
    + vm_compute in E. discriminate E.
  - apply Hcreate, Hbad.
  - apply Hupdate, Hbad.
Defined.

(** C5 as stated fails: a draft with an empty name has its deadline before
    its start, both after now, and a positive limit, and yet the call is
    answered with 400 and nothing is stored. *)
Lemma create_rejects_unnamed_draft :
  let req := Sample.post "ada"
               (Sample.form (Some []) 2 Sample.start Sample.deadline) [] in
  let out := postEvent (rt := Sample.runtime) (Sample.env "e1") req initial in
  date_field (rt := Sample.runtime) (raw_time (body req))
  = Some 1903860000000
  /\ date_field (rt := Sample.runtime) (raw_registrationDeadline (body req))
     = Some 1903255200000
  /\ raw_attendanceLimit (body req) = Integer 2
  /\ 1903255200000 < 1903860000000
  /\ now (Sample.env "e1") < 1903255200000
  /\ 0 < 2
  /\ status out.1 = 400
  /\ events out.2 = ∅.
Proof.
  cbv zeta. repeat split; try (vm_compute; reflexivity).
Qed.

Lemma create_exactly_when_valid_witness :
  status (postEvent (rt := Sample.runtime) (Sample.env "e1")
            (Sample.post "ada"
               (Sample.form (Some (units "Game night")) 2
                  Sample.start Sample.deadline) [])
            initial).1 = 201.
Proof.
  destruct (create_exactly_when_valid (rt := Sample.runtime)
              (Sample.env "e1")
              (Sample.post "ada"
                 (Sample.form (Some (units "Game night")) 2
                    Sample.start Sample.deadline) [])
              initial eq_refl eq_refl) as (Hiff & _).
  apply Hiff. eexists. unfold validDraft. split; [vm_compute; reflexivity |].
  cbn. unfold Sample.clock. lia.
Defined.

(** C6 as stated fails: Bob is not the owner of Ada's event, and his
    update without a name is answered with 400, not 403. *)
Lemma non_owner_update_can_get_400 :
  let req := Sample.request "bob" "e1"
               (Sample.form None 2 Sample.start Sample.deadline) [] in
  option_map ownerId (events Sample.afterGameNight !! units "e1")
  = Some (units "ada")
  /\ sub (user req) = units "bob"
  /\ units "ada" <> units "bob"
  /\ status (putEvent (rt := Sample.runtime) Sample.today req
               Sample.afterGameNight).1 = 400.
Proof.
  cbv zeta. repeat split; try (vm_compute; reflexivity).
  vm_compute. discriminate.
Qed.

Lemma update_by_non_owner_witness :
  status (putEvent (rt := Sample.runtime) Sample.today
            (Sample.request "bob" "e1"
               (Sample.form (Some (units "Mine now")) 2
                  Sample.start Sample.deadline) [])
            Sample.afterGameNight).1 = 403.
Proof.
  destruct (events Sample.afterGameNight !! units "e1") as [e |] eqn:E;
    [| vm_compute in E; discriminate E].
  assert (Hown : ownerId e <> units "bob").
  { vm_compute in E. injection E as <-. vm_compute. discriminate. }
  refine (proj2 (proj2 (proj2 (update_by_non_owner (rt := Sample.runtime)
            Sample.today
            (Sample.request "bob" "e1"
               (Sample.form (Some (units "Mine now")) 2
                  Sample.start Sample.deadline) [])
            Sample.afterGameNight e E Hown))) _).
  repeat split; [vm_compute; eauto | discriminate].
Defined.

Lemma update_replaces_or_keeps_images_witness :
  exists e',
    events (putEvent (rt := Sample.runtime) Sample.today
              (Sample.request "ada" "e1"
                 (Sample.form (Some (units "Game night")) 2
                    Sample.start Sample.deadline)
                 [Sample.picture "ada-2.png"])
              Sample.afterGameNight).2 !! units "e1" = Some e'
    /\ parseImages (images e') = [units "/uploads/event-images/ada-2.png"].
Proof.
  destruct (update_replaces_or_keeps_images (rt := Sample.runtime)
              Sample.today
              (Sample.request "ada" "e1"
                 (Sample.form (Some (units "Game night")) 2
                    Sample.start Sample.deadline)
                 [Sample.picture "ada-2.png"])
              Sample.afterGameNight)
    as (e & e' & _ & Hk' & Hnew & _); [vm_compute; reflexivity |].
  exists e'. split; [exact Hk' |].
  exact (Hnew (Sample.picture "ada-2.png") [] eq_refl).
Defined.

Lemma delete_removes_everything_witness :
  status (getEvent (Sample.request "bob" "e1" Sample.blank [])
            (deleteEvent (rt := Sample.runtime)
               (Sample.request "ada" "e1" Sample.blank [])
               Sample.afterGameNight).2) = 404.
Proof.
  destruct (delete_removes_everything (rt := Sample.runtime)
              (Sample.request "ada" "e1" Sample.blank [])
              Sample.afterGameNight)
    as (e & _ & _ & _ & _ & _ & _ & Hget); [vm_compute; reflexivity |].
  exact (Hget [] (Sample.request "bob" "e1" Sample.blank [])
           (Forall_nil_2 _) eq_refl).
Defined.

Lemma Register_contract_witness :
  (Register (units "e1") (units "bob") Sample.clock Sample.afterGameNight).1
  = Confirmation 1.
Proof.
  destruct (Register_contract (units "e1") (units "bob") Sample.clock
              Sample.afterGameNight) as (_ & Hstored & _).
  destruct (events Sample.afterGameNight !! units "e1") as [e |] eqn:E;
    [| vm_compute in E; discriminate E].
  destruct (Hstored e eq_refl) as (_ & _ & _ & Hroom).
  vm_compute in E. injection E as <-.
  destruct Hroom as (Hres & Hcount & _);
    [vm_compute; reflexivity .. |].
  rewrite Hres, Hcount. reflexivity.
Defined.

Lemma registrations_within_limits_witness :
  match events (run (rt := Sample.runtime)
                  [Sample.gameNight; Sample.signUp "bob"] initial)
        !! units "e1" with
  | Some e =>
      Z.of_nat (ledger_count (units "e1")
                  (registrations
                     (run (rt := Sample.runtime)
                        [Sample.gameNight; Sample.signUp "bob"] initial)))
      <= attendanceLimit e
  | None => False
  end.
Proof.
  destruct (events (run (rt := Sample.runtime)
                      [Sample.gameNight; Sample.signUp "bob"] initial)
            !! units "e1") as [e |] eqn:E;
    [| vm_compute in E; discriminate E].
  apply (registrations_within_limits (rt := Sample.runtime)
           [Sample.gameNight; Sample.signUp "bob"]); [| exact E].
  cbn [keepsLimits]. repeat split.
Defined.

(** C2 as stated fails: Ada's event has two seats, Bob and Carol register,
    and Ada then updates the event to one seat; the state is reachable and
    holds two registrations for an event whose limit is one. *)
Lemma update_can_undercut_registrations :
  reachable (rt := Sample.runtime)
    (run (rt := Sample.runtime) Sample.oversold initial)
  /\ option_map attendanceLimit
       (events (run (rt := Sample.runtime) Sample.oversold initial)
        !! units "e1") = Some 1
  /\ ledger_count (units "e1")
       (registrations (run (rt := Sample.runtime) Sample.oversold initial))
     = 2%nat.
Proof.
  split; [by exists Sample.oversold |].
  split; vm_compute; reflexivity.
Qed.

End EventFacts.

(* --------------------------------------------------------------------- *)
(** ** The user directory *)
(* --------------------------------------------------------------------- *)

Module UserFacts.
Import Users.

Section Facts.
Context `{rt : Runtime}.

Lemma users_unlinkUpload f st : users (unlinkUpload f st) = users st.
Proof. by destruct f. Qed.

Lemma findByEmail_None email rows :
  findByEmail email rows = None <->
  forall u, In u rows -> universityEmail u <> email.
Proof.
  unfold findByEmail. split.
  - intros H u Hin Heq.
    pose proof (List.find_none _ _ H u Hin) as Hf. cbn in Hf.
    by apply bool_decide_eq_false in Hf.
  - intros H. induction rows as [| v rows IH]; [done |].
    cbn. rewrite bool_decide_eq_false_2 by (apply H; by left).
    apply IH. intros u Hin. apply H. by right.
Qed.

Lemma findById_None i rows :
  findById i rows = None <-> forall u, In u rows -> id u <> i.
Proof.
  unfold findById. split.
  - intros H u Hin Heq.
    pose proof (List.find_none _ _ H u Hin) as Hf. cbn in Hf.
    by apply bool_decide_eq_false in Hf.
  - intros H. induction rows as [| v rows IH]; [done |].
    cbn. rewrite bool_decide_eq_false_2 by (apply H; by left).
    apply IH. intros u Hin. apply H. by right.
Qed.

Lemma registerSchema_email b data :
  registerSchema b = Some data ->
  raw_universityEmail b = Some (data_universityEmail data)
  /\ isEmail (data_universityEmail data) = true.
Proof.
  unfold registerSchema, email_field. intros H.
  repeat case_match; simplify_eq; by cbn.
Qed.

(** *** The storage layer keeps its constraints *)

Lemma wellKeyed_create u rows rows' :
  wellKeyed rows -> prisma_user_create u rows = Some rows' ->
  rows' = rows ++ [u] /\ wellKeyed rows'.
Proof.
  unfold prisma_user_create. intros [Hid Hem] H.
  destruct (findById (id u) rows) eqn:Ei; [done |].
  destruct (findByEmail (universityEmail u) rows) eqn:Ee; [done |].
  simplify_eq. split; [done |].
  rewrite findById_None in Ei. rewrite findByEmail_None in Ee.
  split; rewrite map_app; cbn; apply NoDup_app; repeat split; try done.
  - intros x Hx ->%list_elem_of_singleton.
    apply list_elem_of_In, in_map_iff in Hx as (v & Hv & Hin).
    by eapply Ei.
  - apply NoDup_singleton.
  - intros x Hx ->%list_elem_of_singleton.
    apply list_elem_of_In, in_map_iff in Hx as (v & Hv & Hin).
    by eapply Ee.
  - apply NoDup_singleton.
Qed.

Lemma update_untouched u rows :
  (forall v, In v rows -> id v <> id u) ->
  map (fun v => if bool_decide (id v = id u) then u else v) rows = rows.
Proof.
  intros H. induction rows as [| v rows IH]; [done |].
  cbn. rewrite bool_decide_eq_false_2 by (apply H; by left).
  f_equal. apply IH. intros w Hw. apply H. by right.
Qed.

Lemma update_ids u rows :
  map id (map (fun v => if bool_decide (id v = id u) then u else v) rows)
  = map id rows.
Proof.
  induction rows as [| v rows IH]; [done |].
  cbn. rewrite IH. case_bool_decide; congruence.
Qed.

Lemma update_emails_elem u rows x :
  In x (map universityEmail
          (map (fun v => if bool_decide (id v = id u) then u else v) rows)) ->
  x = universityEmail u \/ In x (map universityEmail rows).
Proof.
  induction rows as [| v rows IH]; [done |].
  cbn. case_bool_decide; intros [<- | Hin]; auto.
  all: destruct (IH Hin); auto.
Qed.

Lemma wellKeyed_update u rows rows' :
  wellKeyed rows -> prisma_user_update u rows = Some rows' ->
  wellKeyed rows'.
Proof.
  unfold prisma_user_update. intros [Hid Hem] H.
  destruct (existsb _ rows) eqn:Eex; [done |]. simplify_eq.
  assert (Hfree : forall v, In v rows -> id v <> id u ->
                            universityEmail v <> universityEmail u).
  { intros v Hin Hne Heq.
    assert (Hx : existsb
              (fun v => bool_decide (universityEmail v = universityEmail u)
                        && negb (bool_decide (id v = id u))) rows = true).
    { apply existsb_exists. exists v. split; [done |].
      rewrite bool_decide_eq_true_2 by done.
      by rewrite bool_decide_eq_false_2 by done. }
    congruence. }
  split; [by rewrite update_ids |].
  clear Eex. induction rows as [| v rows IH]; [constructor |].
  cbn in Hid, Hem. apply NoDup_cons in Hid as [Hv_id Hid].
  apply NoDup_cons in Hem as [Hv_em Hem].
  cbn [map]. case_bool_decide as Hvu.
  - rewrite update_untouched.
    + apply NoDup_cons. split; [| done].
      intros Hin. apply list_elem_of_In, in_map_iff in Hin
        as (w & Hw & Hin).
      apply (Hfree w); [by right | | done].
      intros Hwu. apply Hv_id. apply list_elem_of_In, in_map_iff.
      exists w. split; [congruence | done].
    + intros w Hin Hwu. apply Hv_id. apply list_elem_of_In, in_map_iff.
      exists w. split; [congruence | done].
  - apply NoDup_cons. split.
    + intros Hin. apply list_elem_of_In, update_emails_elem in Hin as [Hin | Hin].
      * apply (Hfree v); [by left | done | done].
      * by apply Hv_em, list_elem_of_In.
    + apply IH; [done | done |]. intros w Hin. apply Hfree. by right.
Qed.

(** *** What the two routes can do *)

Lemma postRegister_inv newId req st :
  (status (postRegister newId req st).1 <> 201
   /\ users (postRegister newId req st).2 = users st)
  \/ (exists data u,
        uploadError req = None
        /\ registerSchema (body req) = Some data
        /\ universityEmail u = toLowerCase (data_universityEmail data)
        /\ isAllowedDomain (universityEmail u) = true
        /\ findByEmail (universityEmail u) (users st) = None
        /\ id u = newId
        /\ prisma_user_create u (users st)
           = Some (users (postRegister newId req st).2)
        /\ status (postRegister newId req st).1 = 201).
Proof.
  unfold postRegister, handleRegister.
  destruct (uploadError req); [left; cbn; by rewrite users_unlinkUpload |].
  destruct (registerSchema (body req)) as [data |];
    [| left; cbn; by rewrite users_unlinkUpload].
  destruct (isAllowedDomain _) eqn:Hdom; cbn [negb]; cbv iota;
    [| left; cbn; by rewrite users_unlinkUpload].
  destruct (findByEmail _ (users st)) eqn:Hfree;
    [left; cbn; by rewrite users_unlinkUpload |].
  match goal with
  | |- context [prisma_user_create ?u (users st)] =>
      destruct (prisma_user_create u (users st)) as [rows |] eqn:Hc;
      [right; exists data, u | left; cbn; by rewrite users_unlinkUpload]
  end.
  cbn. repeat split; done.
Qed.

Lemma putProfile_inv req st :
  users (putProfile req st).2 = users st
  \/ exists u, prisma_user_update u (users st)
               = Some (users (putProfile req st).2).
Proof.
  unfold putProfile, handleProfileUpdate.
  repeat case_match; simplify_eq; cbn;
    rewrite ?users_unlinkUpload; eauto.
Qed.

Lemma wellKeyed_step c st :
  wellKeyed (users st) -> wellKeyed (users (step c st)).
Proof.
  intros Hwk. destruct c as [newId req | req]; cbn.
  - destruct (postRegister_inv newId req st)
      as [(_ & ->) | (data & u & _ & _ & _ & _ & _ & _ & Hc & _)]; [done |].
    by eapply wellKeyed_create.
  - destruct (putProfile_inv req st) as [-> | (u & Hu)]; [done |].
    by eapply wellKeyed_update.
Qed.

Lemma wellKeyed_reachable st : reachable st -> wellKeyed (users st).
Proof.
  intros [calls <-].
  induction calls as [| c calls IH] using rev_ind.
  - split; constructor.
  - unfold run. rewrite fold_left_app. cbn. by apply wellKeyed_step.
Qed.

Lemma lookup_map_email (rows : list User) (i : nat) (u : User) :
  rows !! i = Some u ->
  map universityEmail rows !! i = Some (universityEmail u).
Proof.
  revert i. induction rows as [| v rows IH]; intros [| i] H; try done.
  - cbn in *. by simplify_eq.
  - cbn in *. by apply IH.
Qed.

(** C9.  In every state the directory can reach, two different stored
    rows have different university emails.  A registration that succeeds
    stores the lower-cased university email of the form, which has passed
    the check of the allowed domain.  A registration whose university
    email, lower-cased, is outside the allowed domain or is the email of a
    stored row is rejected (400 or 409) and the table is as it was. *)
Theorem universityEmail_unique_and_allowed :
  (forall st, reachable st ->
     forall i j u v,
       users st !! i = Some u -> users st !! j = Some v -> i <> j ->
       universityEmail u <> universityEmail v)
  /\ (forall newId req st,
        status (postRegister newId req st).1 = 201 ->
        exists email u,
          raw_universityEmail (body req) = Some email
          /\ users (postRegister newId req st).2 = users st ++ [u]
          /\ universityEmail u = toLowerCase email
          /\ isAllowedDomain (universityEmail u) = true)
  /\ (forall newId req st email,
        raw_universityEmail (body req) = Some email ->
        isAllowedDomain (toLowerCase email) = false
        \/ (exists u, In u (users st)
                      /\ universityEmail u = toLowerCase email) ->
        (status (postRegister newId req st).1 = 400
         \/ status (postRegister newId req st).1 = 409)
        /\ users (postRegister newId req st).2 = users st).
Proof.
  split; [| split].
  - intros st Hreach i j u v Hi Hj Hne Heq.
    destruct (wellKeyed_reachable st Hreach) as [_ Hem].
    apply Hne. eapply NoDup_lookup; [exact Hem | |].
    + by apply lookup_map_email.
    + rewrite Heq. by apply lookup_map_email.
  - intros newId req st H201.
    destruct (postRegister_inv newId req st)
      as [(Hne & _) | (data & u & _ & Hs & Hlow & Hdom & _ & _ & Hc & _)];
      [done |].
    apply registerSchema_email in Hs as [Hraw _].
    exists (data_universityEmail data), u. repeat split; try done.
    unfold prisma_user_create in Hc. repeat case_match; by simplify_eq.
  - intros newId req st email Hraw Hbad.
    unfold postRegister, handleRegister.
    destruct (uploadError req);
      [cbn; rewrite users_unlinkUpload; auto |].
    destruct (registerSchema (body req)) as [data |] eqn:Hs;
      [| cbn; rewrite users_unlinkUpload; auto].
    apply registerSchema_email in Hs as [Hraw' _].
    rewrite Hraw in Hraw'. simplify_eq.
    destruct (isAllowedDomain _) eqn:Hdom; cbn [negb]; cbv iota;
      [| cbn; rewrite users_unlinkUpload; auto].
    destruct Hbad as [Hout | (u & Hin & Hu)]; [congruence |].
    destruct (findByEmail _ (users st)) eqn:Hfree;
      [cbn; rewrite users_unlinkUpload; auto |].
    exfalso. rewrite findByEmail_None in Hfree. by eapply Hfree.
Qed.

End Facts.

(** *** Examples on the sample data *)

Lemma universityEmail_unique_and_allowed_witness :
  match users Sample.withBoth !! 0%nat, users Sample.withBoth !! 1%nat with
  | Some u, Some v => universityEmail u <> universityEmail v
  | _, _ => False
  end
  /\ (exists u, users Sample.withAda = [u]
                /\ universityEmail u = units "ada.lovelace@uzh.ch")
  /\ (status (postRegister (rt := Sample.runtime) (units "u2")
                (Sample.account "Ada Byron" "ADA.lovelace@uzh.ch")
                Sample.withAda).1 = 400
      \/ status (postRegister (rt := Sample.runtime) (units "u2")
                   (Sample.account "Ada Byron" "ADA.lovelace@uzh.ch")
                   Sample.withAda).1 = 409)
  /\ users (postRegister (rt := Sample.runtime) (units "u3")
              (Sample.account "Eve" "eve@example.org")
              Sample.withAda).2 = users Sample.withAda.
Proof.
  destruct (universityEmail_unique_and_allowed (rt := Sample.runtime))
    as (Hunique & Hstored & Hrejected).
  split; [| split; [| split]].
  - destruct (users Sample.withBoth !! 0%nat) as [u |] eqn:E0;
      [| vm_compute in E0; discriminate E0].
    destruct (users Sample.withBoth !! 1%nat) as [v |] eqn:E1;
      [| vm_compute in E1; discriminate E1].
    apply (Hunique Sample.withBoth
             (ex_intro _ [Sample.adaJoins; Sample.bobJoins] eq_refl)
             0%nat 1%nat u v E0 E1).
    discriminate.
  - destruct (Hstored (units "u1")
                (Sample.account "Ada Lovelace" "Ada.Lovelace@UZH.ch")
                initial) as (email & u & Hraw & Hrows & Hlow & _);
      [vm_compute; reflexivity |].
    exists u. split; [exact Hrows |].
    rewrite Hlow. cbn in Hraw. injection Hraw as <-.
    vm_compute. reflexivity.
  - apply (Hrejected (units "u2")
             (Sample.account "Ada Byron" "ADA.lovelace@uzh.ch")
             Sample.withAda (units "ADA.lovelace@uzh.ch") eq_refl).
    right. vm_compute. eexists. split; [left; reflexivity | reflexivity].
  - apply (Hrejected (units "u3")
             (Sample.account "Eve" "eve@example.org")
             Sample.withAda (units "eve@example.org") eq_refl).
    left. vm_compute. reflexivity.
Defined.

End UserFacts.

(* ===================================================================== *)
(** * More properties of the code *)
(* ===================================================================== *)

Set Warnings "-clear-no-such-hyp".

(* --------------------------------------------------------------------- *)
(** ** Splitting, joining and trimming *)
(* --------------------------------------------------------------------- *)

Section StringFacts.
Local Open Scope N_scope.

Lemma split_on_cons_sep sep r : split_on sep (sep :: r) = [] :: split_on sep r.
Proof. cbn. by rewrite N.eqb_refl. Qed.

Lemma split_on_not_nil sep s : split_on sep s <> [].
Proof.
  destruct s as [| c r]; [done |]. cbn.
  destruct (c =? sep); [done |]. by destruct (split_on sep r).
Qed.

(** A piece without the separator in front of a separator is the first
    piece. *)
Lemma split_on_app sep a r :
  (sep ∉ a) -> split_on sep (a ++ sep :: r) = a :: split_on sep r.
Proof.
  induction a as [| c a IH]; intros Ha.
  - apply split_on_cons_sep.
  - apply not_elem_of_cons in Ha as [Hc Ha]. cbn.
    rewrite (proj2 (N.eqb_neq c sep)) by done. by rewrite IH.
Qed.

Lemma split_on_whole sep a : (sep ∉ a) -> split_on sep a = [a].
Proof.
  induction a as [| c a IH]; intros Ha; [done |].
  apply not_elem_of_cons in Ha as [Hc Ha]. cbn.
  rewrite (proj2 (N.eqb_neq c sep)) by done. by rewrite IH.
Qed.

(** The first piece: it has no separator, and either it is the whole
    string or a separator and the rest of the pieces follow. *)
Lemma split_on_first sep s a rest :
  split_on sep s = a :: rest ->
  (sep ∉ a)
  /\ ((rest = [] /\ s = a)
      \/ exists r, s = a ++ sep :: r /\ rest = split_on sep r).
Proof.
  revert a rest. induction s as [| c s IH]; intros a rest H; cbn in H.
  - simplify_eq. split; [apply not_elem_of_nil | by left].
  - destruct (N.eqb_spec c sep) as [-> | Hc].
    + simplify_eq. split; [apply not_elem_of_nil |]. right. by exists s.
    + destruct (split_on sep s) as [| seg segs] eqn:E;
        [by apply split_on_not_nil in E |].
      simplify_eq. destruct (IH seg rest eq_refl) as [Hseg Hs].
      split; [apply not_elem_of_cons; by split |].
      destruct Hs as [[-> ->] | (r & -> & ->)]; [by left |].
      right. by exists r.
Qed.

Lemma split_on_pieces sep s seg :
  seg ∈ split_on sep s -> sep ∉ seg.
Proof.
  remember (length s) as n eqn:Hn. revert s seg Hn.
  induction n as [n IH] using lt_wf_ind. intros s seg Hn Hin.
  destruct (split_on sep s) as [| a rest] eqn:E; [by apply elem_of_nil in Hin|].
  apply split_on_first in E as [Ha Hs].
  apply elem_of_cons in Hin as [-> | Hin]; [done |].
  destruct Hs as [[-> _] | (r & -> & ->)]; [by apply elem_of_nil in Hin |].
  apply (IH (length r)) with (s := r); [| done | done].
  subst n. rewrite length_app. cbn. lia.
Qed.

Lemma join_split_on sep s : join [sep] (split_on sep s) = s.
Proof.
  induction s as [| c s IH]; [done |]. cbn.
  destruct (N.eqb_spec c sep) as [-> | Hc].
  - destruct (split_on sep s) as [| seg segs] eqn:E;
      [by apply split_on_not_nil in E |].
    cbn. cbn in IH. by rewrite IH.
  - destruct (split_on sep s) as [| seg segs] eqn:E;
      [by apply split_on_not_nil in E |].
    rewrite <- IH. by destruct segs.
Qed.

(** Splitting what [join] wrote gives the pieces back, when no piece holds
    the separator. *)
Lemma split_on_join sep (items : list jsstring) :
  items <> [] -> Forall (fun item => sep ∉ item) items ->
  split_on sep (join [sep] items) = items.
Proof.
  intros Hne Hall. induction Hall as [| x xs Hx Hxs IH]; [done |].
  destruct xs as [| y ys].
  - cbn. by apply split_on_whole.
  - change (join [sep] (x :: y :: ys)) with (x ++ [sep] ++ join [sep] (y :: ys)).
    cbn [app]. rewrite split_on_app by done. by rewrite IH.
Qed.

(** *** [trim] *)

Lemma trim_start_clean s : clean_start (trim_start s).
Proof.
  induction s as [| c s IH]; [done |]. cbn.
  destruct (is_js_space c) eqn:E; [done | by cbn].
Qed.

Lemma trim_start_suffix s : exists p, s = p ++ trim_start s.
Proof.
  induction s as [| c s [p IH]]; [by exists [] |]. cbn.
  destruct (is_js_space c); [| by exists []].
  exists (c :: p). cbn. by rewrite <- IH.
Qed.

Lemma trim_start_id s : clean_start s -> trim_start s = s.
Proof. destruct s as [| c s]; [done |]. cbn. by intros ->. Qed.

(** What [trim] returns is a stretch of its argument. *)
Lemma trim_infix s : exists p q, s = p ++ trim s ++ q.
Proof.
  unfold trim.
  destruct (trim_start_suffix s) as [p Hp].
  destruct (trim_start_suffix (rev (trim_start s))) as [q Hq].
  exists p, (rev q). rewrite Hp at 1. f_equal.
  rewrite <- rev_app_distr, <- Hq. by rewrite rev_involutive.
Qed.

Lemma trim_elem c s : c ∈ trim s -> c ∈ s.
Proof.
  destruct (trim_infix s) as (p & q & Hs). intros Hc. rewrite Hs.
  apply elem_of_app. right. apply elem_of_app. by left.
Qed.

(** [trim] leaves no white space at either end. *)
Lemma trim_clean s : clean_start (trim s) /\ clean_start (rev (trim s)).
Proof.
  unfold trim. rewrite rev_involutive. split; [| apply trim_start_clean].
  pose proof (trim_start_clean s) as Ht.
  destruct (trim_start_suffix (rev (trim_start s))) as [q Hq].
  set (u := trim_start (rev (trim_start s))) in *.
  assert (Hts : trim_start s = rev u ++ rev q).
  { rewrite <- rev_app_distr, <- Hq. by rewrite rev_involutive. }
  destruct (rev u) as [| c r] eqn:E; [done |].
  rewrite Hts in Ht. exact Ht.
Qed.

Lemma trim_idempotent s : trim (trim s) = trim s.
Proof.
  destruct (trim_clean s) as [H1 H2]. unfold trim at 1.
  rewrite (trim_start_id _ H1), (trim_start_id _ H2).
  apply rev_involutive.
Qed.

End StringFacts.

(* --------------------------------------------------------------------- *)
(** ** The image column, the allowed domain, the session middleware *)
(* --------------------------------------------------------------------- *)

Section MoreStringFacts.
Local Open Scope N_scope.

Lemma split_on_two sep s a b :
  split_on sep s !! 0%nat = Some a /\ split_on sep s !! 1%nat = Some b <->
  exists rest, s = a ++ sep :: b ++ rest
               /\ (sep ∉ a) /\ (sep ∉ b)
               /\ (rest = [] \/ head rest = Some sep).
Proof.
  split.
  - intros [H0 H1].
    destruct (split_on sep s) as [| a' [| b' more]] eqn:E; try done.
    cbn in H0, H1. simplify_eq.
    apply split_on_first in E as [Ha [[? _] | (r & -> & Hr)]]; [done |].
    symmetry in Hr.
    apply split_on_first in Hr as [Hb [[_ ->] | (r' & -> & _)]].
    + exists []. rewrite app_nil_r. auto.
    + exists (sep :: r'). repeat split; auto.
  - intros (rest & -> & Ha & Hb & Hrest).
    rewrite split_on_app by done.
    destruct Hrest as [-> | Hrest].
    + rewrite app_nil_r, split_on_whole by done. done.
    + destruct rest as [| c r']; [done |]. cbn in Hrest. simplify_eq.
      rewrite split_on_app by done. done.
Qed.

Lemma last_head_rev {A} (l : list A) : last l = head (rev l).
Proof.
  induction l as [| x l _] using rev_ind; [done |].
  rewrite last_snoc, rev_app_distr. done.
Qed.

End MoreStringFacts.

Section ImageFacts.
Local Open Scope N_scope.

(** X1.  When the column is not JSON text, every entry read from it is
    non-empty, holds no comma, and has no white space at either end. *)
Theorem parseImages_fallback_entries (images entry : jsstring) :
  JSON_parse images = None ->
  In entry (parseImages images) ->
  entry <> []
  /\ (44 ∉ entry)
  /\ (forall c, head entry = Some c \/ last entry = Some c ->
                is_js_space c = false).
Proof.
  intros Hjson Hin. unfold parseImages in Hin. rewrite Hjson in Hin.
  destruct (is_empty images); [done |].
  apply List.filter_In in Hin as [Hin Htruthy].
  apply in_map_iff in Hin as (piece & <- & Hpiece).
  apply list_elem_of_In, split_on_pieces in Hpiece.
  split; [by destruct (trim piece) |].
  split; [intros Hc; by apply Hpiece, trim_elem |].
  destruct (trim_clean piece) as [H1 H2].
  intros c [Hc | Hc].
  - destruct (trim piece); cbn in Hc; by simplify_eq.
  - rewrite last_head_rev in Hc.
    destruct (rev (trim piece)); cbn in Hc; by simplify_eq.
Qed.

Lemma parseImages_fallback_entries_witness :
  units "/a.png" <> []
  /\ (44 ∉ units "/a.png")
  /\ (forall c, head (units "/a.png") = Some c
                \/ last (units "/a.png") = Some c ->
                is_js_space c = false).
Proof.
  apply (parseImages_fallback_entries (units " /a.png , /b.png,")).
  - vm_compute. reflexivity.
  - vm_compute. left. reflexivity.
Defined.

End ImageFacts.

Section DomainFacts.
Context `{rt : Runtime}.
Local Open Scope N_scope.

(** X2.  The check of the allowed domain reads the text between the first and
    the second [@]: an address passes exactly when it has an [@], and that
    text, lower-cased, is the allowed domain, lower-cased.  What follows a
    second [@] is not looked at. *)
Theorem isAllowedDomain_reads_second_part (address : jsstring) :
  Users.isAllowedDomain address = true <->
  exists localPart domain rest,
    address = localPart ++ 64 :: domain ++ rest
    /\ (64 ∉ localPart) /\ (64 ∉ domain)
    /\ (rest = [] \/ head rest = Some 64)
    /\ toLowerCase domain = toLowerCase ALLOWED_EMAIL_DOMAIN.
Proof.
  unfold Users.isAllowedDomain. split.
  - destruct (split_on 64 address !! 1%nat) as [domain |] eqn:E1; [| done].
    intros Hd%bool_decide_eq_true.
    destruct (split_on 64 address !! 0%nat) as [localPart |] eqn:E0.
    + destruct (proj1 (split_on_two 64 address localPart domain)
                  (conj E0 E1)) as (rest & ? & ? & ? & ?).
      by exists localPart, domain, rest.
    + apply lookup_ge_None in E0. apply lookup_lt_Some in E1. lia.
  - intros (localPart & domain & rest & Hs & Hl & Hd & Hrest & Hlow).
    destruct (proj2 (split_on_two 64 address localPart domain)) as [_ ->];
      [by exists rest |].
    by apply bool_decide_eq_true.
Qed.

End DomainFacts.

Section SessionFacts.
Context `{rt : Runtime} `{ts : Session.TokenService}.
Local Open Scope N_scope.
Import Session.

(** X3.  The middleware lets a request through exactly when the header is a
    scheme, one space, a non-empty token and then nothing or a space and more,
    the scheme lower-cases to [bearer], and the token verifies; the user of
    the request is then the payload of the token.  A missing or empty header
    is answered as missing. *)
Theorem requireAuth_accepts (header : option jsstring) (user : JwtPayload) :
  (requireAuth header = Next user <->
   exists scheme token rest,
     header = Some (scheme ++ 32 :: token ++ rest)
     /\ (32 ∉ scheme) /\ (32 ∉ token) /\ token <> []
     /\ (rest = [] \/ head rest = Some 32)
     /\ toLowerCase scheme = units "bearer"
     /\ verifyToken token = Some user)
  /\ (requireAuth header
      = Unauthorized (units "Authorization header missing")
      <-> header = None \/ header = Some []).
Proof.
  unfold requireAuth. split.
  - split.
    + destruct header as [h |]; [| done].
      destruct (is_empty h) eqn:Eh; [done |].
      destruct (split_on 32 h !! 0%nat) as [scheme |] eqn:E0.
      2:{ apply lookup_ge_None in E0. cbn in E0.
          pose proof (split_on_not_nil 32 h).
          destruct (split_on 32 h); [done | cbn in E0; lia]. }
      cbn [option_map].
      destruct (bool_decide (Some (toLowerCase scheme) = Some (units "bearer")))
        eqn:Es; [| done].
      apply bool_decide_eq_true in Es. cbn [negb orb].
      destruct (split_on 32 h !! 1%nat) as [token |] eqn:E1; [| done].
      change (default [] (Some token)) with token.
      destruct (is_empty token) eqn:Et; [done |].
      destruct (verifyToken token) as [payload |] eqn:Ev; [| done].
      intros [= <-].
      destruct (proj1 (split_on_two 32 h scheme token) (conj E0 E1))
        as (rest & -> & ? & ? & ?).
      exists scheme, token, rest. repeat split; try done.
      * intros ->. done.
      * by simplify_eq.
    + intros (scheme & token & rest & -> & Hs & Ht & Hne & Hrest & Hlow & Hv).
      destruct (proj2 (split_on_two 32 (scheme ++ 32 :: token ++ rest)
                         scheme token)) as [-> ->]; [by exists rest |].
      replace (is_empty (scheme ++ 32 :: token ++ rest)) with false
        by (by destruct scheme).
      change (default [] (Some token)) with token.
      cbn [option_map]. rewrite Hlow.
      rewrite bool_decide_eq_true_2 by done. cbn [negb orb].
      destruct token; [done |]. cbn [is_empty]. by rewrite Hv.
  - split.
    + destruct header as [h |]; [| by left].
      destruct h as [| c h]; [by right |]. cbn [is_empty].
      repeat case_match; try done.
      all: intros [= H]; vm_compute in H; done.
    + intros [-> | ->]; done.
Qed.

End SessionFacts.

(* --------------------------------------------------------------------- *)
(** ** More on the event routes *)
(* --------------------------------------------------------------------- *)

Module MoreEventFacts.
Import Events EventFacts.

Section Facts.
Context `{rt : Runtime}.

(** *** The files of an upload *)

Lemma cleanupFiles_removes l f st :
  In f l -> path f ∉ disk (cleanupFiles (Some l) st).
Proof.
  intros Hin. cbn. intros [_ Hnot]%elem_of_difference. apply Hnot.
  apply elem_of_list_to_set, list_elem_of_In, in_map, Hin.
Qed.

(** X4.  A create that succeeds leaves the disk as it is; one that does not
    removes every file of the upload from the disk. *)
Theorem create_keeps_upload_only_on_success env req st :
  (status (postEvent env req st).1 = 201 ->
   disk (postEvent env req st).2 = disk st)
  /\ (status (postEvent env req st).1 <> 201 ->
      forall l f, files req = Some l -> In f l ->
                  path f ∉ disk (postEvent env req st).2).
Proof.
  unfold postEvent, handleCreateEvent.
  destruct (uploadError req) as [msg |].
  { split; [done |]. intros _ l f -> Hin. by apply cleanupFiles_removes. }
  destruct (createEventSchema (body req)) as [data |].
  2:{ split; [done |]. intros _ l f -> Hin. by apply cleanupFiles_removes. }
  destruct (validateSchedule _ _ _) as [why |].
  { split; [done |]. intros _ l f -> Hin. by apply cleanupFiles_removes. }
  destruct (events st !! newId env) as [old |].
  { split; [done |]. intros _ l f -> Hin. by apply cleanupFiles_removes. }
  split; done.
Qed.

(** X5.  An update that does not succeed removes every file of the upload from
    the disk; one that succeeds leaves the disk as it is when it carried no
    image, and otherwise removes the files the event's previous image list
    refers to. *)
Theorem update_cleans_up env req st :
  (status (putEvent env req st).1 <> 200 ->
   forall l f, files req = Some l -> In f l ->
               path f ∉ disk (putEvent env req st).2)
  /\ (status (putEvent env req st).1 = 200 ->
      exists e,
        events st !! params_eventId req = Some e
        /\ disk (putEvent env req st).2
           = match default [] (files req) with
             | [] => disk st
             | _ :: _ =>
                 disk st
                 ∖ list_to_set (map absolute (parseImages (images e)))
             end).
Proof.
  unfold putEvent, handleUpdateEvent.
  destruct (uploadError req) as [msg |].
  { split; [| done]. intros _ l f -> Hin. by apply cleanupFiles_removes. }
  destruct (updateEventSchema (body req)) as [data |].
  2:{ split; [| done]. intros _ l f -> Hin. by apply cleanupFiles_removes. }
  destruct (is_empty (params_eventId req)).
  { split; [| done]. intros _ l f -> Hin. by apply cleanupFiles_removes. }
  destruct (events st !! params_eventId req) as [e |].
  2:{ split; [| done]. intros _ l f -> Hin. by apply cleanupFiles_removes. }
  destruct (negb (bool_decide (ownerId e = sub (user req)))).
  { split; [| done]. intros _ l f -> Hin. by apply cleanupFiles_removes. }
  destruct (validateSchedule _ _ _) as [why |].
  { split; [| done]. intros _ l f -> Hin. by apply cleanupFiles_removes. }
  split; [done |]. intros _. exists e. split; [done |].
  by destruct (default [] (files req)).
Qed.

(** *** Refused deletes *)

(** X6.  A delete that is not answered 204 changes nothing.  It is answered
    404 exactly when no event is stored under the id, and 403 exactly when one
    is and the caller is not its owner. *)
Theorem delete_refusals req st :
  (status (deleteEvent req st).1 <> 204 -> (deleteEvent req st).2 = st)
  /\ (status (deleteEvent req st).1 = 404
      <-> params_eventId req <> []
          /\ events st !! params_eventId req = None)
  /\ (status (deleteEvent req st).1 = 403
      <-> params_eventId req <> []
          /\ exists e, events st !! params_eventId req = Some e
                       /\ ownerId e <> sub (user req)).
Proof.
  unfold deleteEvent.
  destruct (params_eventId req) as [| c k'] eqn:Hid; [cbn; naive_solver |].
  cbn [is_empty]. cbv iota.
  destruct (events st !! (c :: k')) as [e |] eqn:Hk; [| cbn; naive_solver].
  destruct (bool_decide (ownerId e = sub (user req))) eqn:Ho; cbn.
  - apply bool_decide_eq_true in Ho. naive_solver.
  - apply bool_decide_eq_false in Ho. naive_solver.
Qed.

(** *** One event at a time *)

(** X7.  A create touches no event but the one under the drawn key, an update
    and a delete none but the one under the id of the route. *)
Theorem routes_touch_one_event env req st k :
  (k <> newId env ->
   events (postEvent env req st).2 !! k = events st !! k)
  /\ (k <> params_eventId req ->
      events (putEvent env req st).2 !! k = events st !! k)
  /\ (k <> params_eventId req ->
      events (deleteEvent req st).2 !! k = events st !! k).
Proof.
  repeat split; intros Hk.
  - destruct (postEvent_inv env req st)
      as [(_ & -> & _) | (data & _ & _ & _ & _ & -> & _)]; [done |].
    by rewrite lookup_insert_ne.
  - destruct (putEvent_inv env req st)
      as [(_ & -> & _) | (data & e & _ & _ & _ & _ & _ & _ & -> & _)];
      [done |].
    by rewrite lookup_insert_ne.
  - destruct (deleteEvent_inv req st) as [(_ & ->) | (e & _ & _ & _ & _ & ->)];
      [done |].
    cbn. by rewrite lookup_delete_ne.
Qed.

(** X8.  No call changes the owner or the id of an event that is stored before
    and after it. *)
Theorem owner_and_id_stay c st k e e' :
  events st !! k = Some e ->
  events (step c st) !! k = Some e' ->
  ownerId e' = ownerId e /\ id e' = id e.
Proof.
  intros Hk Hk'. destruct c as [env req | env req | req | req | k0 u t];
    cbn in Hk'.
  - destruct (postEvent_inv env req st)
      as [(_ & Hev & _) | (data & _ & _ & Hfresh & _ & Hev & _)];
      rewrite Hev in Hk'; [by simplify_eq |].
    rewrite lookup_insert_ne in Hk' by congruence. by simplify_eq.
  - destruct (putEvent_inv env req st)
      as [(_ & Hev & _) | (data & e0 & _ & _ & _ & Hk0 & _ & _ & Hev & _)];
      rewrite Hev in Hk'; [by simplify_eq |].
    destruct (decide (params_eventId req = k)) as [<- | Hne].
    + rewrite lookup_insert_eq in Hk'. by simplify_eq.
    + rewrite lookup_insert_ne in Hk' by done. by simplify_eq.
  - destruct (deleteEvent_inv req st)
      as [(_ & Hst) | (e0 & _ & _ & _ & _ & Hst)];
      rewrite Hst in Hk'; [by simplify_eq |].
    cbn in Hk'. apply lookup_delete_Some in Hk' as [_ Hk'].
    by simplify_eq.
  - by simplify_eq.
  - destruct (Register_inv k0 u t st)
      as [(Hst & _) | (e0 & _ & _ & _ & _ & _ & Hev & _)].
    + rewrite Hst in Hk'. by simplify_eq.
    + rewrite Hev in Hk'. by simplify_eq.
Qed.

(** *** What every stored event looks like *)

Lemma or_else_cases x y :
  (x <> [] /\ or_else x y = x) \/ (x = [] /\ or_else x y = y).
Proof. destruct x; [by right | by left]. Qed.

Lemma ownerName_choice a b d :
  let n := or_else (trim a) (or_undefined (option_map trim b) d) in
  d <> [] -> trim d = d -> n <> [] /\ trim n = n.
Proof.
  intros n Hd Ht. subst n.
  destruct (or_else_cases (trim a) (or_undefined (option_map trim b) d))
    as [[Hne ->] | [_ ->]]; [split; [done | apply trim_idempotent] |].
  destruct b as [b |]; [| done]. unfold or_undefined, option_map.
  destruct (or_else_cases (trim b) d) as [[Hne ->] | [_ ->]]; [| done].
  split; [done | apply trim_idempotent].
Qed.

Lemma sound_step c st : sound st -> sound (step c st).
Proof.
  intros Hs. destruct c as [env req | env req | req | req | k0 u t]; cbn.
  - destruct (postEvent_inv env req st)
      as [(_ & Hev & _) | (data & _ & Hv & _ & _ & Hev & _)];
      intros k e Hk; rewrite Hev in Hk; [by apply Hs |].
    destruct (decide (newId env = k)) as [<- | Hne].
    2:{ rewrite lookup_insert_ne in Hk by done. by apply Hs. }
    rewrite lookup_insert_eq in Hk. simplify_eq.
    unfold createData. cbn [id attendanceLimit ownerName images].
    destruct Hv as [Hsch _]. apply schema_limit in Hsch as [_ Hpos].
    rewrite parseImages_stringifyImages.
    destruct (ownerName_choice (data_eventOwner data) (fullName (user req))
                (units "Event Owner")) as [? ?]; done.
  - destruct (putEvent_inv env req st)
      as [(_ & Hev & _) | (data & e0 & _ & Hv & _ & Hk0 & _ & _ & Hev & _)];
      intros k e Hk; rewrite Hev in Hk; [by apply Hs |].
    destruct (decide (params_eventId req = k)) as [<- | Hne].
    2:{ rewrite lookup_insert_ne in Hk by done. by apply Hs. }
    rewrite lookup_insert_eq in Hk. simplify_eq.
    unfold updateData. cbn [id attendanceLimit ownerName images].
    destruct (Hs _ _ Hk0) as (Hid & _ & Hn & Ht & _).
    destruct Hv as [Hsch _]. apply schema_limit in Hsch as [_ Hpos].
    rewrite parseImages_stringifyImages.
    destruct (ownerName_choice (data_eventOwner data) (fullName (user req))
                (ownerName e0)) as [? ?]; done.
  - destruct (deleteEvent_inv req st) as [(_ & ->) | (e0 & _ & _ & _ & _ & ->)];
      [done |].
    intros k e Hk. cbn in Hk. apply lookup_delete_Some in Hk as [_ Hk].
    by apply Hs.
  - done.
  - destruct (Register_inv k0 u t st)
      as [(-> & _) | (e0 & _ & _ & _ & _ & _ & Hev & _)]; [done |].
    intros k e Hk. rewrite Hev in Hk. by apply Hs.
Qed.

Lemma sound_reachable st : reachable st -> sound st.
Proof.
  apply reachable_ind; [| exact sound_step].
  intros k e Hk. cbn in Hk. by rewrite lookup_empty in Hk.
Qed.

(** X9.  In every state the service can reach, an event is stored under its
    own id and its attendance limit is positive. *)
Theorem stored_under_own_id st k e :
  reachable st -> events st !! k = Some e ->
  id e = k /\ 0 < attendanceLimit e.
Proof.
  intros Hr Hk. destruct (sound_reachable st Hr k e Hk) as (? & ? & _).
  done.
Qed.


(** X11.  In every state the service can reach, the [images] column of an
    event is the JSON text of the list read from it: [JSON.parse] accepts it
    and gives an array of strings. *)
Theorem images_column_is_json st k e :
  reachable st -> events st !! k = Some e ->
  images e = stringifyImages (parseImages (images e))
  /\ JSON_parse (images e) = Some (JArr (map JStr (parseImages (images e)))).
Proof.
  intros Hr Hk.
  destruct (sound_reachable st Hr k e Hk) as (_ & _ & _ & _ & Himg).
  split; [done |]. rewrite Himg at 1. apply JSON_parse_stringify.
Qed.

(** *** Reading back what was written *)

(** X12.  After a create that succeeds, a get of the drawn id is answered 200
    with the event the create replied with: its owner is the caller, its
    images are the paths of the uploaded files in order, and it counts no
    registration. *)
Theorem create_then_get env req get st :
  status (postEvent env req st).1 = 201 ->
  newId env <> [] ->
  params_eventId get = newId env ->
  exists event,
    payload (postEvent env req st).1
    = WithEvent (Some (units "Event created successfully")) event
    /\ getEvent get (postEvent env req st).2
       = reply 200 (WithEvent None event)
    /\ ownerId (row event) = sub (user req)
    /\ imageList event = map imagePath (default [] (files req))
    /\ registrationCount event = 0.
Proof.
  intros H201 Hid Hget. revert H201.
  unfold postEvent, handleCreateEvent, getEvent. rewrite Hget.
  destruct (uploadError req) as [msg |]; [done |].
  destruct (createEventSchema (body req)) as [data |]; [| done].
  destruct (validateSchedule _ _ _) as [why |]; [done |].
  destruct (events st !! newId env) as [old |] eqn:Hk; [done |].
  intros _. exists (toPublicEvent (createData env req data)). cbn.
  destruct (newId env) as [| c r] eqn:En; [done |]. cbn [is_empty].
  rewrite lookup_insert_eq. repeat split.
  unfold toPublicEvent. cbn. apply parseImages_stringifyImages.
Qed.

(** X13.  After an update that succeeds, a get of the same id is answered 200
    with the event the update replied with. *)
Theorem update_then_get env req get st :
  status (putEvent env req st).1 = 200 ->
  params_eventId get = params_eventId req ->
  exists event,
    payload (putEvent env req st).1
    = WithEvent (Some (units "Event updated successfully")) event
    /\ getEvent get (putEvent env req st).2
       = reply 200 (WithEvent None event).
Proof.
  intros H200 Hget. revert H200.
  unfold putEvent, handleUpdateEvent, getEvent. rewrite Hget.
  destruct (uploadError req) as [msg |]; [done |].
  destruct (updateEventSchema (body req)) as [data |]; [| done].
  destruct (params_eventId req) as [| c r] eqn:En; [done |].
  cbn [is_empty]. cbv iota.
  destruct (events st !! (c :: r)) as [e |] eqn:Hk; [| done].
  destruct (negb (bool_decide (ownerId e = sub (user req)))); [done |].
  destruct (validateSchedule _ _ _) as [why |]; [done |].
  intros _. exists (toPublicEvent (updateData req data e)).
  split; [done |]. cbn [snd].
  assert (Hev : forall st2, events st2
                = <[c :: r := updateData req data e]> (events st) ->
            match events st2 !! (c :: r) with
            | Some event => reply 200 (WithEvent None (toPublicEvent event))
            | None => reply 404 (Message (units "Event not found"))
            end
            = reply 200 (WithEvent None (toPublicEvent (updateData req data e)))).
  { intros st2 ->. by rewrite lookup_insert_eq. }
  apply Hev. by destruct (default [] (files req)).
Qed.

(** *** The answers of the two writing routes *)

(** X14.  [POST /events] answers 201, 400 or 500, and 500 exactly when a draft
    that passes every check meets a key that is taken. *)
Theorem create_answers env req st :
  (status (postEvent env req st).1 = 201
   \/ status (postEvent env req st).1 = 400
   \/ status (postEvent env req st).1 = 500)
  /\ (status (postEvent env req st).1 = 500
      <-> uploadError req = None
          /\ (exists data, validDraft (body req) (now env) data)
          /\ is_Some (events st !! newId env)).
Proof.
  unfold postEvent, handleCreateEvent, validDraft.
  destruct (uploadError req) as [msg |].
  { cbn. split; [auto |]. split; [done | by intros [? _]]. }
  destruct (createEventSchema (body req)) as [data |].
  2:{ cbn. split; [auto |]. split; [done | by intros (_ & (? & ? & _) & _)]. }
  destruct (validateSchedule _ _ _) as [why |] eqn:Hv.
  { cbn. split; [auto |]. split; [done |].
    intros (_ & (d & [= <-] & H1 & H2 & H3) & _).
    assert (validateSchedule (data_time data)
              (data_registrationDeadline data) (now env) = None)
      by (apply validateSchedule_None; lia).
    congruence. }
  apply validateSchedule_None in Hv.
  destruct (events st !! newId env) as [old |] eqn:Hk; cbn.
  - split; [auto |]. split; [| done]. intros _.
    repeat split; [| by eexists]. exists data. intuition.
  - split; [auto |]. split; [done |]. by intros (_ & _ & [? ?]).
Qed.

(** X15.  [PUT /events/:eventId] answers 200, 400, 403 or 404; 404 exactly
    when the upload went through, the body passes the schema and no event is
    stored under the id; 200 exactly when the upload went through, the draft
    passes every check and the caller owns the stored event. *)
Theorem update_answers env req st :
  (status (putEvent env req st).1 = 200
   \/ status (putEvent env req st).1 = 400
   \/ status (putEvent env req st).1 = 403
   \/ status (putEvent env req st).1 = 404)
  /\ (status (putEvent env req st).1 = 404
      <-> uploadError req = None
          /\ is_Some (updateEventSchema (body req))
          /\ params_eventId req <> []
          /\ events st !! params_eventId req = None)
  /\ (status (putEvent env req st).1 = 200
      <-> uploadError req = None
          /\ (exists data, validDraft (body req) (now env) data)
          /\ params_eventId req <> []
          /\ exists e, events st !! params_eventId req = Some e
                       /\ ownerId e = sub (user req)).
Proof.
  unfold putEvent, handleUpdateEvent, updateEventSchema, validDraft.
  destruct (uploadError req) as [msg |].
  { cbn. repeat split; auto; try done; by intros [? _]. }
  destruct (createEventSchema (body req)) as [data |].
  2:{ cbn. repeat split; auto; try done.
      - by intros (_ & [? ?] & _).
      - by intros (_ & (? & ? & _) & _). }
  destruct (params_eventId req) as [| c r] eqn:En.
  { cbn. repeat split; auto; try done.
    - by intros (_ & _ & ? & _).
    - by intros (_ & _ & ? & _). }
  cbn [is_empty]. cbv iota.
  destruct (events st !! (c :: r)) as [e |] eqn:Hk.
  2:{ cbn. repeat split; auto; try done.
      by intros (_ & _ & _ & ? & ? & _). }
  destruct (bool_decide (ownerId e = sub (user req))) eqn:Ho; cbn [negb];
    cbv iota.
  2:{ apply bool_decide_eq_false in Ho. cbn. repeat split; auto; try done.
      - by intros (_ & _ & _ & ?).
      - intros (_ & _ & _ & e' & [= <-] & ?). done. }
  apply bool_decide_eq_true in Ho.
  destruct (validateSchedule _ _ _) as [why |] eqn:Hv.
  { cbn. repeat split; auto; try done.
    - by intros (_ & _ & _ & ?).
    - intros (_ & (d & [= <-] & H1 & H2 & H3) & _).
      assert (validateSchedule (data_time data)
                (data_registrationDeadline data) (now env) = None)
        by (apply validateSchedule_None; lia).
      congruence. }
  apply validateSchedule_None in Hv. cbn.
  repeat split; auto; try done.
  - by intros (_ & _ & _ & ?).
  - exists data. intuition.
  - by exists e.
Qed.

End Facts.
End MoreEventFacts.

(* --------------------------------------------------------------------- *)
(** ** The list route; more on the user directory *)
(* --------------------------------------------------------------------- *)

Module ListingFacts.
Import Events Listing.







End ListingFacts.

Module MoreUserFacts.
Import Users UserFacts.

Section Facts.
Context `{rt : Runtime}.

Lemma NoDup_map_eq {A B} (f : A -> B) (l : list A) x y :
  NoDup (map f l) -> In x l -> In y l -> f x = f y -> x = y.
Proof.
  induction l as [| z l IH]; [done |]. cbn.
  intros [Hz Hl]%NoDup_cons [-> | Hx] [-> | Hy] Hf; try done.
  - exfalso. apply Hz. rewrite Hf. by apply list_elem_of_In, in_map.
  - exfalso. apply Hz. rewrite <- Hf. by apply list_elem_of_In, in_map.
  - by apply IH.
Qed.

Lemma findByEmail_Some email rows u :
  findByEmail email rows = Some u -> In u rows /\ universityEmail u = email.
Proof.
  unfold findByEmail. intros H. apply List.find_some in H as [Hin Hf].
  by apply bool_decide_eq_true in Hf.
Qed.

Lemma findById_found i rows u :
  findById i rows = Some u -> In u rows /\ id u = i.
Proof.
  unfold findById. intros H. apply List.find_some in H as [Hin Hf].
  by apply bool_decide_eq_true in Hf.
Qed.

(** What [handleProfileUpdate] does: it answers without touching the
    table, or it hands the updated row to the storage layer. *)
Lemma handleProfileUpdate_inv req st :
  (exists r, (handleProfileUpdate req st).1 = Some r
             /\ (status r = 400 \/ status r = 404 \/ status r = 409)
             /\ users (handleProfileUpdate req st).2 = users st)
  \/ (exists data existing,
        profileSchema (profile_body req) = Some data
        /\ isAllowedDomain (toLowerCase (pdata_universityEmail data)) = true
        /\ findById (sub req) (users st) = Some existing
        /\ (toLowerCase (pdata_universityEmail data)
            = universityEmail existing
            \/ findByEmail (toLowerCase (pdata_universityEmail data))
                 (users st) = None
            \/ exists other,
                 findByEmail (toLowerCase (pdata_universityEmail data))
                   (users st) = Some other
                 /\ id other = sub req)
        /\ (handleProfileUpdate req st).1
           = option_map
               (fun _ => reply 200 (WithUser (updatedRow req data existing)))
               (prisma_user_update (updatedRow req data existing) (users st))
        /\ users (handleProfileUpdate req st).2
           = default (users st)
               (prisma_user_update (updatedRow req data existing)
                  (users st))).
Proof.
  unfold handleProfileUpdate.
  destruct (profileSchema (profile_body req)) as [data |];
    [| left; eexists; cbn; rewrite users_unlinkUpload; auto].
  destruct (isAllowedDomain _) eqn:Hdom; cbn [negb]; cbv iota;
    [| left; eexists; cbn; rewrite users_unlinkUpload; auto].
  destruct (findById (sub req) (users st)) as [existing |] eqn:Hfind;
    [| left; eexists; cbn; rewrite users_unlinkUpload; auto].
  fold (updatedRow req data existing).
  assert (Hgo : forall d,
    (match prisma_user_update (updatedRow req data existing) (users st) with
     | Some rows =>
         (Some (reply 200 (WithUser (updatedRow req data existing))),
          {| users := rows; disk := d |})
     | None => (None, {| users := users st; disk := d |})
     end).1
    = option_map
        (fun _ => reply 200 (WithUser (updatedRow req data existing)))
        (prisma_user_update (updatedRow req data existing) (users st))
    /\ users
         (match prisma_user_update (updatedRow req data existing) (users st)
          with
          | Some rows =>
              (Some (reply 200 (WithUser (updatedRow req data existing))),
               {| users := rows; disk := d |})
          | None => (None, {| users := users st; disk := d |})
          end).2
       = default (users st)
           (prisma_user_update (updatedRow req data existing) (users st))).
  { intros d. by destruct (prisma_user_update _ _). }
  destruct (bool_decide (toLowerCase (pdata_universityEmail data)
                         = universityEmail existing)) eqn:Hsame;
    cbn [negb]; cbv iota.
  - apply bool_decide_eq_true in Hsame.
    right. exists data, existing. destruct (Hgo
      match profile_file req, profileImageUrl existing with
      | Some _, Some old =>
          if truthy old then disk st ∖ {[absolute old]} else disk st
      | _, _ => disk st
      end) as [H1 H2].
    repeat split; try done. by left.
  - destruct (findByEmail _ (users st)) as [other |] eqn:Hother.
    + destruct (bool_decide (id other = sub req)) eqn:Hid; cbn [negb];
        cbv iota; [| left; eexists; cbn; rewrite users_unlinkUpload; auto].
      apply bool_decide_eq_true in Hid.
      right. exists data, existing. destruct (Hgo
        match profile_file req, profileImageUrl existing with
        | Some _, Some old =>
            if truthy old then disk st ∖ {[absolute old]} else disk st
        | _, _ => disk st
        end) as [H1 H2].
      repeat split; try done. right; right. by exists other.
    + right. exists data, existing. destruct (Hgo
        match profile_file req, profileImageUrl existing with
        | Some _, Some old =>
            if truthy old then disk st ∖ {[absolute old]} else disk st
        | _, _ => disk st
        end) as [H1 H2].
      repeat split; try done. right; by left.
Qed.

End Facts.
End MoreUserFacts.

Module DirectoryFacts.
Import Users UserFacts MoreUserFacts.

Section Facts.
Context `{rt : Runtime}.

Lemma putProfile_users req st :
  users (putProfile req st).2 = users (handleProfileUpdate req st).2
  \/ users (putProfile req st).2 = users st.
Proof.
  unfold putProfile. destruct (profile_uploadError req); [by right |].
  left. by destruct (handleProfileUpdate req st) as [[r |] st'].
Qed.

Lemma prisma_user_update_rows u rows rows' :
  prisma_user_update u rows = Some rows' ->
  rows' = map (fun v => if bool_decide (id v = id u) then u else v) rows.
Proof.
  unfold prisma_user_update. intros H. case_match; by simplify_eq.
Qed.

(** What a call can do to the table: nothing, one more row whose address
    passed the domain check, or one stored row replaced by a row with the
    same id and password hash whose address passed the domain check. *)
Lemma step_inv c st :
  users (step c st) = users st
  \/ (exists u, users (step c st) = users st ++ [u]
                /\ isAllowedDomain (universityEmail u) = true)
  \/ (exists existing u,
        In existing (users st)
        /\ findById (id u) (users st) = Some existing
        /\ id u = id existing
        /\ passwordHash u = passwordHash existing
        /\ isAllowedDomain (universityEmail u) = true
        /\ users (step c st)
           = map (fun v => if bool_decide (id v = id u) then u else v)
               (users st)).
Proof.
  destruct c as [newId req | req]; cbn.
  - destruct (postRegister_inv newId req st)
      as [(_ & ->) | (data & u & _ & _ & _ & Hdom & _ & _ & Hc & _)];
      [by left |].
    right; left. exists u. split; [| done].
    unfold prisma_user_create in Hc. repeat case_match; by simplify_eq.
  - destruct (putProfile_users req st) as [-> | ->]; [| by left].
    destruct (handleProfileUpdate_inv req st)
      as [(r & _ & _ & ->)
         | (data & existing & _ & Hdom & Hfind & _ & _ & ->)]; [by left |].
    destruct (prisma_user_update _ _) as [rows |] eqn:Hu; [| by left].
    right; right. exists existing, (updatedRow req data existing).
    apply findById_found in Hfind as Hex. destruct Hex as [Hin Hid].
    repeat split; try done.
    + cbn [updatedRow id]. by rewrite Hid.
    + by apply prisma_user_update_rows.
Qed.

(** X17.  In every state the directory can reach, every stored university
    email passes the check of the allowed domain. *)
Theorem stored_emails_in_domain st u :
  reachable st -> In u (users st) ->
  isAllowedDomain (universityEmail u) = true.
Proof.
  intros [calls <-]. revert u.
  induction calls as [| c calls IH] using rev_ind; intros u Hin; [done |].
  unfold run in Hin |- *. rewrite fold_left_app in Hin. cbn in Hin.
  fold (run calls initial) in Hin, IH.
  destruct (step_inv c (run calls initial))
    as [Hs | [(v & Hs & Hv) | (ex & v & _ & _ & _ & _ & Hv & Hs)]];
    rewrite Hs in Hin.
  - by apply IH.
  - apply in_app_or in Hin as [Hin | [<- | []]]; [by apply IH | done].
  - apply in_map_iff in Hin as (w & Hw & Hin).
    case_bool_decide; simplify_eq; [done | by apply IH].
Qed.

(** X18.  No call removes a row: the row at a position stays at that position,
    with its id and its password hash. *)
Theorem rows_stay c st i u :
  wellKeyed (users st) ->
  users st !! i = Some u ->
  exists u', users (step c st) !! i = Some u'
             /\ id u' = id u /\ passwordHash u' = passwordHash u.
Proof.
  intros [Hids _] Hi.
  destruct (step_inv c st)
    as [-> | [(v & -> & _) | (ex & v & Hex & Hfind & Hid & Hpw & _ & ->)]].
  - by exists u.
  - exists u. split; [| done]. by apply lookup_app_l_Some.
  - assert (Hmap : forall (l : list User) (f : User -> User) j x,
              l !! j = Some x -> map f l !! j = Some (f x)).
    { induction l as [| y l IH]; intros f [| j] x H; try done.
      - cbn in *. by simplify_eq.
      - cbn in *. by apply IH. }
    eexists. split; [by apply Hmap |].
    case_bool_decide as Hu; [| done].
    assert (u = ex) as ->.
    { eapply (NoDup_map_eq id); [done | | done | congruence].
      by eapply list_elem_of_In, list_elem_of_lookup_2. }
    done.
Qed.

(** X19.  The handlers' own checks cover the constraint on the email
    column: on a table that meets its constraints a profile update is never
    answered 500, and a registration is answered 500 only when the drawn id
    is taken. *)
Theorem storage_never_refuses_an_email newId reg req st :
  wellKeyed (users st) ->
  status (putProfile req st).1 <> 500
  /\ (status (postRegister newId reg st).1 = 500 ->
      is_Some (findById newId (users st))).
Proof.
  intros [Hids Hems]. split.
  - unfold putProfile. destruct (profile_uploadError req); [done |].
    destruct (handleProfileUpdate_inv req st)
      as [(r & Hr & Hne & _)
         | (data & existing & _ & _ & Hfind & Hfree & Hr & _)].
    { destruct (handleProfileUpdate req st) as [r' st']. cbn in Hr.
      subst r'. cbn. lia. }
    destruct (handleProfileUpdate req st) as [r' st']. cbn in Hr. subst r'.
    destruct (prisma_user_update _ _) as [rows |] eqn:Hu; [done |].
    exfalso. unfold prisma_user_update in Hu.
    destruct (existsb _ (users st)) eqn:Hex; [| done].
    apply existsb_exists in Hex as (v & Hv & Hc).
    apply andb_true_iff in Hc as [He%bool_decide_eq_true Hi%negb_true_iff].
    apply bool_decide_eq_false in Hi. cbn [updatedRow id universityEmail] in *.
    apply findById_found in Hfind as [Hin Hid].
    destruct Hfree as [Hsame | [Hnone | (other & Hother & Hoid)]].
    + apply Hi. f_equal.
      eapply (NoDup_map_eq universityEmail); [done | done | done |].
      congruence.
    + rewrite findByEmail_None in Hnone. by eapply Hnone.
    + apply findByEmail_Some in Hother as [Hoin Hoe].
      apply Hi.
      assert (v = other) as ->
        by (eapply (NoDup_map_eq universityEmail); [done ..| congruence]).
      congruence.
  - unfold postRegister, handleRegister.
    destruct (uploadError reg); [done |].
    destruct (registerSchema (body reg)); [| done].
    destruct (isAllowedDomain _); cbn [negb]; cbv iota; [| done].
    destruct (findByEmail _ (users st)) eqn:Hfree; [done |].
    unfold prisma_user_create. cbn [id universityEmail]. rewrite Hfree.
    destruct (findById newId (users st)); [by eauto | done].
Qed.

(** X20.  On a table that meets its constraints, a profile update is answered
    409 exactly when it passes the schema and the domain check, the user is
    stored, and the lower-cased address is the address of another user's row;
    the table is then as it was. *)
Theorem email_taken_by_another req st :
  wellKeyed (users st) ->
  (status (putProfile req st).1 = 409
   <-> profile_uploadError req = None
       /\ exists data existing other,
            profileSchema (profile_body req) = Some data
            /\ isAllowedDomain (toLowerCase (pdata_universityEmail data))
               = true
            /\ findById (sub req) (users st) = Some existing
            /\ In other (users st)
            /\ universityEmail other
               = toLowerCase (pdata_universityEmail data)
            /\ id other <> sub req)
  /\ (status (putProfile req st).1 = 409 ->
      users (putProfile req st).2 = users st).
Proof.
  intros [Hids Hems].
  unfold putProfile, handleProfileUpdate.
  destruct (profile_uploadError req); [cbn; naive_solver |].
  destruct (profileSchema (profile_body req)) as [data |];
    [| cbn; naive_solver].
  destruct (isAllowedDomain _) eqn:Hdom; cbn [negb]; cbv iota;
    [| cbn; split; [split; [done |] | done];
       intros (_ & d & ? & ? & [= <-] & ? & _); congruence].
  destruct (findById (sub req) (users st)) as [existing |] eqn:Hfind;
    [| cbn; naive_solver].
  apply findById_found in Hfind as Hex. destruct Hex as [Hin Hid].
  destruct (bool_decide (toLowerCase (pdata_universityEmail data)
                         = universityEmail existing)) eqn:Hsame;
    cbn [negb]; cbv iota.
  - apply bool_decide_eq_true in Hsame.
    destruct (prisma_user_update _ _); cbn.
    all: split; [split; [done |] | done].
    all: intros (_ & d & ex & other & [= <-] & _ & [= <-] & Ho & He & Hne).
    all: exfalso; apply Hne; rewrite <- Hid; f_equal.
    all: eapply (NoDup_map_eq universityEmail); [done ..| congruence].
  - apply bool_decide_eq_false in Hsame.
    destruct (findByEmail _ (users st)) as [other |] eqn:Hother.
    + apply findByEmail_Some in Hother as [Hoin Hoe].
      destruct (bool_decide (id other = sub req)) eqn:Hoid; cbn [negb];
        cbv iota.
      * apply bool_decide_eq_true in Hoid. exfalso. apply Hsame.
        rewrite <- Hoe. f_equal.
        eapply (NoDup_map_eq id); [done ..| congruence].
      * apply bool_decide_eq_false in Hoid. cbn.
        rewrite users_unlinkUpload. split; [| done].
        split; [| done]. intros _. split; [done |].
        by exists data, existing, other.
    + rewrite findByEmail_None in Hother.
      destruct (prisma_user_update _ _); cbn.
      all: split; [split; [done |] | done].
      all: intros (_ & d & ex & other & [= <-] & _ & _ & Ho & He & _).
      all: exfalso; by eapply Hother.
Qed.

End Facts.
End DirectoryFacts.

(* --------------------------------------------------------------------- *)
(** ** Login and the profile read *)
(* --------------------------------------------------------------------- *)

Module AccountFacts.
Import Users UserFacts MoreUserFacts DirectoryFacts Accounts.

Section Facts.
Context `{rt : Runtime} `{pc : PasswordCheck}.

(** *** The interest column *)

Lemma join_not_nil (sep : jsstring) (x : jsstring) (xs : list jsstring) :
  x <> [] -> join sep (x :: xs) <> [].
Proof. destruct xs, x; done. Qed.

Lemma filter_truthy_id (l : list jsstring) :
  Forall (fun x => x <> []) l -> List.filter truthy l = l.
Proof.
  induction 1 as [| x l Hx _ IH]; [done |]. cbn.
  destruct x; [done |]. cbn. by rewrite IH.
Qed.

(** Interests that are not empty and hold no comma come back from the
    column as they went in. *)
Lemma splitInterests_join (l : list jsstring) :
  Forall (fun x => x <> [] /\ (44%N ∉ x)) l ->
  splitInterests (Some (join (units ",") l)) = l.
Proof.
  intros Hall. unfold splitInterests. change (units ",") with [44%N].
  destruct l as [| x xs]; [done |].
  assert (Hx : x <> []) by (by apply Forall_cons in Hall as [[? _] _]).
  pose proof (join_not_nil [44%N] x xs Hx) as Hj.
  destruct (join [44%N] (x :: xs)) as [| c r] eqn:Ej; [done |].
  cbn [truthy is_empty negb]. rewrite <- Ej.
  rewrite split_on_join; [| done |].
  - apply filter_truthy_id. eapply Forall_impl; [exact Hall |]. by intros ? [? _].
  - eapply Forall_impl; [exact Hall |]. by intros ? [_ ?].
Qed.

Lemma interest_array_Some hi items l :
  interest_array hi items = Some l ->
  Forall2 (fun item x => item = Some x) items l
  /\ Forall (fun x => x <> []) l.
Proof.
  unfold interest_array. intros H.
  destruct (mapM _ items) as [l' |] eqn:Em; [| done].
  case_match; simplify_eq.
  apply mapM_Some in Em. clear -Em.
  induction Em as [| item x items l Hx _ [IH1 IH2]]; [done |].
  apply EventFacts.string_between_Some in Hx as [-> [Hlen _]].
  split; constructor; try done. destruct x; [cbn in Hlen; lia | done].
Qed.

Lemma Forall2_map_Some_eq (xs l : list jsstring) :
  Forall2 (fun item x => item = Some x) (map Some xs) l -> l = xs.
Proof.
  revert l. induction xs as [| x xs IH]; intros l H; inversion H; subst;
    [done |].
  simplify_eq. f_equal. by apply IH.
Qed.

Lemma splitTrimmed_no_comma s :
  Forall (fun x => 44%N ∉ x) (splitTrimmed s).
Proof.
  unfold splitTrimmed. apply Forall_forall. intros x Hx.
  apply list_elem_of_In, in_map_iff in Hx as (piece & <- & Hp).
  apply list_elem_of_In, split_on_pieces in Hp.
  intros Hc. by apply Hp, trim_elem.
Qed.

Lemma preprocessInterests_no_comma v :
  Forall (fun x => 44%N ∉ x) (preprocessInterests v).
Proof.
  destruct v as [items | s |]; cbn; [| | done].
  - induction items as [| item items IH]; [done |]. cbn.
    apply Forall_app. split; [| done].
    destruct item as [s |]; [| done].
    destruct (truthy s); [apply splitTrimmed_no_comma | done].
  - destruct (truthy s); [apply splitTrimmed_no_comma | done].
Qed.

Lemma profileSchema_interests b data :
  profileSchema b = Some data ->
  Forall (fun x => x <> [] /\ (44%N ∉ x)) (default [] (pdata_interests data)).
Proof.
  unfold profileSchema.
  destruct (profile_interests b) as [v |] eqn:Ev.
  2:{ intros H. repeat case_match; simplify_eq; by cbn. }
  destruct (interest_array 12 (map Some (preprocessInterests v)))
    as [l |] eqn:El; cbn [option_map].
  2:{ intros H. repeat case_match; simplify_eq. }
  intros H.
  assert (Hl : pdata_interests data = Some l)
    by (repeat case_match; by simplify_eq).
  rewrite Hl. cbn.
  apply interest_array_Some in El as [Heq Hne].
  apply Forall2_map_Some_eq in Heq. subst l.
  pose proof (preprocessInterests_no_comma v) as Hc.
  apply Forall_and. done.
Qed.

(** *** Looking a row up after a write *)

Lemma findById_replaced u rows existing :
  findById (id u) rows = Some existing ->
  findById (id u)
    (map (fun v => if bool_decide (id v = id u) then u else v) rows)
  = Some u.
Proof.
  unfold findById. induction rows as [| v rows IH]; [done |]. cbn.
  case_bool_decide as Hv; cbn.
  - by rewrite bool_decide_eq_true_2.
  - rewrite bool_decide_eq_false_2 by done. exact IH.
Qed.

Lemma findById_appended i rows u :
  findById i rows = None -> id u = i -> findById i (rows ++ [u]) = Some u.
Proof.
  unfold findById. intros Hn Hu. induction rows as [| v rows IH]; cbn.
  - by rewrite bool_decide_eq_true_2.
  - cbn in Hn. case_bool_decide; [done | by apply IH].
Qed.

Lemma findByEmail_appended e rows u :
  findByEmail e rows = None -> universityEmail u = e ->
  findByEmail e (rows ++ [u]) = Some u.
Proof.
  unfold findByEmail. intros Hn Hu. induction rows as [| v rows IH]; cbn.
  - by rewrite bool_decide_eq_true_2.
  - cbn in Hn. case_bool_decide; [done | by apply IH].
Qed.

(** X21.  After a profile update that succeeds, the profile read of the same
    user is answered 200 and shows the lower-cased address of the form and
    exactly the interests the form gave, in their order. *)
Theorem profile_update_then_read req st :
  status (putProfile req st).1 = 200 ->
  exists data p,
    profileSchema (profile_body req) = Some data
    /\ getProfile (sub req) (putProfile req st).2
       = {| code := 200; content := Profile p |}
    /\ public_id p = sub req
    /\ public_universityEmail p = toLowerCase (pdata_universityEmail data)
    /\ public_interests p = default [] (pdata_interests data).
Proof.
  intros H200. unfold putProfile in *.
  destruct (profile_uploadError req); [done |].
  destruct (handleProfileUpdate_inv req st)
    as [(r & Hr & Hst & _)
       | (data & existing & Hs & _ & Hfind & _ & Hr & Hrows)].
  { destruct (handleProfileUpdate req st) as [r' st']. cbn in Hr.
    subst r'. cbn in H200. lia. }
  destruct (handleProfileUpdate req st) as [r' st']. cbn in Hr, Hrows.
  subst r'.
  destruct (prisma_user_update _ _) as [rows |] eqn:Hu; [| done].
  cbn in Hrows |- *. apply prisma_user_update_rows in Hu.
  apply findById_found in Hfind as Hex. destruct Hex as [_ Hid].
  exists data, (toPublicUser (updatedRow req data existing)).
  split; [done |]. unfold getProfile. rewrite Hrows, Hu.
  replace (sub req) with (id (updatedRow req data existing)) at 1
    by (cbn; done).
  erewrite findById_replaced
    by (cbn [updatedRow id]; rewrite Hid; exact Hfind).
  repeat split; [by cbn |].
  cbn [toPublicUser public_interests updatedRow interests].
  apply splitInterests_join. by eapply profileSchema_interests.
Qed.

Lemma registerSchema_fields b data :
  registerSchema b = Some data ->
  raw_password b = Some (data_password data)
  /\ (6 <= length (data_password data))%nat
  /\ raw_fullName b = Some (data_fullName data)
  /\ Forall (fun x => x <> []) (default [] (data_interests data)).
Proof.
  unfold registerSchema.
  destruct (string_between 2 120 (raw_fullName b)) as [n |] eqn:En;
    [| done].
  apply EventFacts.string_between_Some in En as [En _].
  destruct (string_min 6 (raw_password b)) as [p |] eqn:Ep; [| done].
  unfold string_min in Ep.
  destruct (raw_password b) as [p' |] eqn:Erp; [| done].
  destruct (Nat.leb 6 (length p')) eqn:El; [| done].
  apply Nat.leb_le in El. simplify_eq.
  destruct (raw_interests b) as [| items |] eqn:Ei.
  - intros H. repeat case_match; simplify_eq; by cbn.
  - destruct (interest_array 10 items) as [l |] eqn:Ea; cbn [option_map].
    + apply interest_array_Some in Ea as [_ Hne].
      intros H. repeat case_match; simplify_eq; by cbn.
    + intros H. repeat case_match; simplify_eq.
  - intros H. repeat case_match; simplify_eq.
Qed.

(** What a registration that succeeds has stored. *)
Lemma postRegister_stored newId req st :
  status (postRegister newId req st).1 = 201 ->
  exists data u,
    registerSchema (body req) = Some data
    /\ users (postRegister newId req st).2 = users st ++ [u]
    /\ findById newId (users st) = None
    /\ findByEmail (toLowerCase (data_universityEmail data)) (users st)
       = None
    /\ id u = newId
    /\ universityEmail u = toLowerCase (data_universityEmail data)
    /\ passwordHash u = bcrypt_hash (data_password data)
    /\ fullName u = data_fullName data
    /\ interests u = option_map (join (units ",")) (data_interests data).
Proof.
  unfold postRegister, handleRegister.
  destruct (uploadError req); [done |].
  destruct (registerSchema (body req)) as [data |]; [| done].
  destruct (isAllowedDomain _); cbn [negb]; cbv iota; [| done].
  destruct (findByEmail _ (users st)) eqn:Hfree; [done |].
  unfold prisma_user_create. cbn [id universityEmail]. rewrite Hfree.
  destruct (findById newId (users st)) eqn:Hid; [done |].
  intros _. eexists data, _. cbn. repeat split; done.
Qed.

(** X22.  After a registration that succeeds, a login with the same address
    and password is answered 200 and shows the new user, provided the password
    check accepts the hash made from the same password. *)
Theorem register_then_login newId req b st :
  (forall password, bcrypt_compare password (bcrypt_hash password) = true) ->
  status (postRegister newId req st).1 = 201 ->
  login_universityEmail b = raw_universityEmail (body req) ->
  login_password b = raw_password (body req) ->
  exists p,
    postLogin b (postRegister newId req st).2
    = {| code := 200; content := Profile p |}
    /\ public_id p = newId.
Proof.
  intros Hlaw H201 Hemail Hpw.
  destruct (postRegister_stored newId req st H201)
    as (data & u & Hs & Hrows & Hid & Hfree & Hu & Hue & Hup & _).
  apply registerSchema_email in Hs as Hmail. destruct Hmail as [Hraw Hok].
  apply registerSchema_fields in Hs as (Hrp & Hlen & _).
  exists (toPublicUser u). unfold postLogin, loginSchema.
  rewrite Hemail, Hpw, Hraw, Hrp. unfold email_field, string_min.
  rewrite Hok.
  replace (Nat.leb 1 (length (data_password data))) with true
    by (symmetry; apply Nat.leb_le; lia).
  rewrite Hrows, (findByEmail_appended _ _ u Hfree Hue), Hup, Hlaw.
  by rewrite <- Hu.
Qed.

(** X23.  After a registration that succeeds, the profile read of the drawn id
    is answered 200 and shows the name of the form and the lower-cased
    address; it shows the interests of the form when none of them holds a
    comma. *)
Theorem register_then_read newId req st :
  status (postRegister newId req st).1 = 201 ->
  exists data p,
    registerSchema (body req) = Some data
    /\ getProfile newId (postRegister newId req st).2
       = {| code := 200; content := Profile p |}
    /\ public_fullName p = data_fullName data
    /\ public_universityEmail p = toLowerCase (data_universityEmail data)
    /\ (Forall (fun x => 44%N ∉ x) (default [] (data_interests data)) ->
        public_interests p = default [] (data_interests data)).
Proof.
  intros H201.
  destruct (postRegister_stored newId req st H201)
    as (data & u & Hs & Hrows & Hid & Hfree & Hu & Hue & _ & Hn & Hi).
  exists data, (toPublicUser u). split; [done |].
  unfold getProfile. rewrite Hrows, (findById_appended _ _ u Hid Hu).
  repeat split; [by cbn | by cbn |].
  intros Hc. cbn [toPublicUser public_interests]. rewrite Hi.
  apply registerSchema_fields in Hs as (_ & _ & _ & Hne).
  destruct (data_interests data) as [l |]; [| done]. cbn in *.
  apply splitInterests_join. apply Forall_and. done.
Qed.

End Facts.
End AccountFacts.

(* --------------------------------------------------------------------- *)
(** ** The added properties on the sample data *)
(* --------------------------------------------------------------------- *)

Module MoreExamples.
Import Events.

(** A draft without a name, sent with a picture. *)
Lemma create_keeps_upload_only_on_success_witness :
  status (postEvent (rt := Sample.runtime) (Sample.env "e2")
            (Sample.post "ada"
               (Sample.form None 2 Sample.start Sample.deadline)
               [Sample.picture "late.png"])
            Sample.afterGameNight).1 = 400
  /\ path (Sample.picture "late.png")
     ∉ disk (postEvent (rt := Sample.runtime) (Sample.env "e2")
               (Sample.post "ada"
                  (Sample.form None 2 Sample.start Sample.deadline)
                  [Sample.picture "late.png"])
               Sample.afterGameNight).2.
Proof.
  split; [vm_compute; reflexivity |].
  refine (proj2 (MoreEventFacts.create_keeps_upload_only_on_success
                   (rt := Sample.runtime) (Sample.env "e2")
                   (Sample.post "ada"
                      (Sample.form None 2 Sample.start Sample.deadline)
                      [Sample.picture "late.png"])
                   Sample.afterGameNight) _
            [Sample.picture "late.png"] (Sample.picture "late.png")
            eq_refl _).
  - vm_compute. discriminate.
  - left. reflexivity.
Defined.

(** Bob's update of Ada's event, sent with a picture. *)
Lemma update_cleans_up_witness :
  status (putEvent (rt := Sample.runtime) Sample.today
            (Sample.request "bob" "e1"
               (Sample.form (Some (units "Mine now")) 2
                  Sample.start Sample.deadline)
               [Sample.picture "bob.png"])
            Sample.afterGameNight).1 = 403
  /\ path (Sample.picture "bob.png")
     ∉ disk (putEvent (rt := Sample.runtime) Sample.today
               (Sample.request "bob" "e1"
                  (Sample.form (Some (units "Mine now")) 2
                     Sample.start Sample.deadline)
                  [Sample.picture "bob.png"])
               Sample.afterGameNight).2.
Proof.
  split; [vm_compute; reflexivity |].
  refine (proj1 (MoreEventFacts.update_cleans_up
                   (rt := Sample.runtime) Sample.today
                   (Sample.request "bob" "e1"
                      (Sample.form (Some (units "Mine now")) 2
                         Sample.start Sample.deadline)
                      [Sample.picture "bob.png"])
                   Sample.afterGameNight) _
            [Sample.picture "bob.png"] (Sample.picture "bob.png")
            eq_refl _).
  - vm_compute. discriminate.
  - left. reflexivity.
Defined.

Lemma delete_refusals_witness :
  (deleteEvent (rt := Sample.runtime)
     (Sample.request "bob" "e1" Sample.blank []) Sample.afterGameNight).2
  = Sample.afterGameNight.
Proof.
  apply (MoreEventFacts.delete_refusals (rt := Sample.runtime)
           (Sample.request "bob" "e1" Sample.blank [])
           Sample.afterGameNight).
  vm_compute. discriminate.
Defined.

Lemma routes_touch_one_event_witness :
  events (postEvent (rt := Sample.runtime) (Sample.env "e2")
            (Sample.post "ada"
               (Sample.form (Some (units "Chess")) 4
                  Sample.start Sample.deadline) [])
            Sample.afterGameNight).2 !! units "e1"
  = events Sample.afterGameNight !! units "e1".
Proof.
  apply (MoreEventFacts.routes_touch_one_event (rt := Sample.runtime)
           (Sample.env "e2")
           (Sample.post "ada"
              (Sample.form (Some (units "Chess")) 4
                 Sample.start Sample.deadline) [])
           Sample.afterGameNight (units "e1")).
  vm_compute. discriminate.
Defined.

Lemma owner_and_id_stay_witness :
  match events Sample.afterGameNight !! units "e1",
        events (step (rt := Sample.runtime) Sample.shrink
                  Sample.afterGameNight) !! units "e1" with
  | Some e, Some e' => ownerId e' = ownerId e /\ id e' = id e
  | _, _ => False
  end.
Proof.
  destruct (events Sample.afterGameNight !! units "e1") as [e |] eqn:E;
    [| vm_compute in E; discriminate E].
  destruct (events (step (rt := Sample.runtime) Sample.shrink
                      Sample.afterGameNight) !! units "e1")
    as [e' |] eqn:E'; [| vm_compute in E'; discriminate E'].
  exact (MoreEventFacts.owner_and_id_stay (rt := Sample.runtime)
           Sample.shrink Sample.afterGameNight (units "e1") e e' E E').
Defined.

Lemma stored_under_own_id_witness :
  match events Sample.afterGameNight !! units "e1" with
  | Some e => id e = units "e1" /\ 0 < attendanceLimit e
  | None => False
  end.
Proof.
  destruct (events Sample.afterGameNight !! units "e1") as [e |] eqn:E;
    [| vm_compute in E; discriminate E].
  exact (MoreEventFacts.stored_under_own_id (rt := Sample.runtime)
           Sample.afterGameNight (units "e1") e
           (ex_intro _ [Sample.gameNight] eq_refl) E).
Defined.


Lemma images_column_is_json_witness :
  match events Sample.afterGameNight !! units "e1" with
  | Some e =>
      images e = stringifyImages (parseImages (images e))
      /\ JSON_parse (images e)
         = Some (JArr (map JStr (parseImages (images e))))
  | None => False
  end.
Proof.
  destruct (events Sample.afterGameNight !! units "e1") as [e |] eqn:E;
    [| vm_compute in E; discriminate E].
  exact (MoreEventFacts.images_column_is_json (rt := Sample.runtime)
           Sample.afterGameNight (units "e1") e
           (ex_intro _ [Sample.gameNight] eq_refl) E).
Defined.

Lemma create_then_get_witness :
  exists event,
    getEvent (Sample.request "bob" "e1" Sample.blank [])
      Sample.afterGameNight
    = reply 200 (WithEvent None event)
    /\ imageList event = [units "/uploads/event-images/ada-1.png"].
Proof.
  destruct (MoreEventFacts.create_then_get (rt := Sample.runtime)
              (Sample.env "e1")
              (Sample.post "ada"
                 (Sample.form (Some (units "Game night")) 2
                    Sample.start Sample.deadline)
                 [Sample.picture "ada-1.png"])
              (Sample.request "bob" "e1" Sample.blank [])
              initial)
    as (event & _ & Hget & _ & Himg & _);
    [vm_compute; reflexivity | discriminate | reflexivity |].
  exists event. split; [exact Hget | exact Himg].
Defined.

Lemma update_then_get_witness :
  exists event,
    getEvent (Sample.request "bob" "e1" Sample.blank [])
      (step (rt := Sample.runtime) Sample.shrink Sample.afterGameNight)
    = reply 200 (WithEvent None event).
Proof.
  destruct (MoreEventFacts.update_then_get (rt := Sample.runtime)
              Sample.today
              (Sample.request "ada" "e1"
                 (Sample.form (Some (units "Game night")) 1
                    Sample.start Sample.deadline) [])
              (Sample.request "bob" "e1" Sample.blank [])
              Sample.afterGameNight)
    as (event & _ & Hget); [vm_compute; reflexivity | reflexivity |].
  exists event. exact Hget.
Defined.

(** The summer party was stored first and starts later: it is listed
    second. *)
Example getEvents_order :
  map (fun p => name (row p))
    (Listing.getEvents Sample2.twoEvents)
  = [units "Game night"; units "Summer party"].
Proof. vm_compute. reflexivity. Qed.

(** *** The session middleware on sample headers *)

Example requireAuth_bearer :
  Session.requireAuth (rt := Sample.runtime) (ts := Sample2.tokens)
    (Some (units "BEARER tok-ada"))
  = Session.Next {| Session.sub := units "ada";
                    Session.email := units "ada@uzh.ch";
                    Session.fullName := units "ada" |}
  /\ Session.requireAuth (rt := Sample.runtime) (ts := Sample2.tokens)
       (Some (units "Bearer  tok-ada"))
     = Session.Unauthorized (units "Invalid authorization header")
  /\ Session.requireAuth (rt := Sample.runtime) (ts := Sample2.tokens)
       (Some (units "Bearer tok-"))
     = Session.Unauthorized (units "Invalid or expired token").
Proof. repeat split; vm_compute; reflexivity. Qed.

(** What follows a second [@] is not looked at. *)
Example isAllowedDomain_second_at :
  Users.isAllowedDomain (rt := Sample.runtime) (units "eve@uzh.ch@example.org")
  = true
  /\ Users.isAllowedDomain (rt := Sample.runtime) (units "eve.uzh.ch")
     = false.
Proof. split; vm_compute; reflexivity. Qed.

(** *** The directory *)

Import Users.

Lemma stored_emails_in_domain_witness :
  match users Sample.withBoth !! 1%nat with
  | Some u => isAllowedDomain (rt := Sample.runtime) (universityEmail u) = true
  | None => False
  end.
Proof.
  destruct (users Sample.withBoth !! 1%nat) as [u |] eqn:E;
    [| vm_compute in E; discriminate E].
  apply (DirectoryFacts.stored_emails_in_domain (rt := Sample.runtime)
           Sample.withBoth u
           (ex_intro _ [Sample.adaJoins; Sample.bobJoins] eq_refl)).
  apply list_elem_of_In. by eapply list_elem_of_lookup_2.
Defined.

Lemma rows_stay_witness :
  exists u',
    users (step (rt := Sample.runtime) Sample.bobJoins Sample.withAda)
    !! 0%nat = Some u'
    /\ id u' = units "u1".
Proof.
  destruct (users Sample.withAda !! 0%nat) as [u |] eqn:E;
    [| vm_compute in E; discriminate E].
  destruct (DirectoryFacts.rows_stay (rt := Sample.runtime)
              Sample.bobJoins Sample.withAda 0%nat u
              (UserFacts.wellKeyed_reachable (rt := Sample.runtime)
                 Sample.withAda (ex_intro _ [Sample.adaJoins] eq_refl))
              E) as (u' & Hu' & Hid & _).
  exists u'. split; [exact Hu' |]. rewrite Hid.
  vm_compute in E. injection E as <-. reflexivity.
Defined.

Lemma storage_never_refuses_an_email_witness :
  wellKeyed (users Sample.withBoth)
  /\ status (putProfile (rt := Sample.runtime)
               (Sample2.editInterests "u1"
                  (InterestString (units "Chess, Go")))
               Sample.withBoth).1 <> 500.
Proof.
  assert (Hkeys : wellKeyed (users Sample.withBoth)).
  { apply (UserFacts.wellKeyed_reachable (rt := Sample.runtime)).
    by exists [Sample.adaJoins; Sample.bobJoins]. }
  split; [exact Hkeys |].
  apply (DirectoryFacts.storage_never_refuses_an_email
           (rt := Sample.runtime) (units "u3")
           (Sample.account "Eve" "eve@uzh.ch")
           (Sample2.editInterests "u1" (InterestString (units "Chess, Go")))
           Sample.withBoth).
  exact Hkeys.
Defined.

(** Bob asks for Ada's address. *)
Lemma email_taken_by_another_witness :
  users (putProfile (rt := Sample.runtime)
           (Sample2.editInterests "u2" InterestOther) Sample.withBoth).2
  = users Sample.withBoth.
Proof.
  apply (DirectoryFacts.email_taken_by_another (rt := Sample.runtime)
           (Sample2.editInterests "u2" InterestOther) Sample.withBoth).
  - apply (UserFacts.wellKeyed_reachable (rt := Sample.runtime)).
    by exists [Sample.adaJoins; Sample.bobJoins].
  - vm_compute. reflexivity.
Defined.

Import Accounts.

Lemma profile_update_then_read_witness :
  exists p,
    getProfile (units "u1")
      (putProfile (rt := Sample.runtime)
         (Sample2.editInterests "u1" (InterestString (units "Chess, Go")))
         Sample.withBoth).2
    = {| code := 200; content := Profile p |}
    /\ public_interests p = [units "Chess"; units "Go"].
Proof.
  destruct (AccountFacts.profile_update_then_read (rt := Sample.runtime)
              (Sample2.editInterests "u1"
                 (InterestString (units "Chess, Go")))
              Sample.withBoth)
    as (data & p & Hs & Hget & _ & _ & Hi); [vm_compute; reflexivity |].
  exists p. split; [exact Hget |]. rewrite Hi.
  vm_compute in Hs. injection Hs as <-. reflexivity.
Defined.

Lemma register_then_login_witness :
  exists p,
    postLogin (rt := Sample.runtime) (pc := Sample2.passwords)
      {| login_universityEmail := Some (units "Ada.Lovelace@UZH.ch");
         login_password := Some (units "correct horse") |}
      Sample.withAda
    = {| code := 200; content := Profile p |}
    /\ public_id p = units "u1".
Proof.
  apply (AccountFacts.register_then_login
           (rt := Sample.runtime) (pc := Sample2.passwords)
           (units "u1")
           (Sample.account "Ada Lovelace" "Ada.Lovelace@UZH.ch")
           {| login_universityEmail := Some (units "Ada.Lovelace@UZH.ch");
              login_password := Some (units "correct horse") |}
           initial).
  - intros password. apply bool_decide_eq_true_2. reflexivity.
  - vm_compute. reflexivity.
  - reflexivity.
  - reflexivity.
Defined.

Lemma register_then_read_witness :
  exists p,
    getProfile (units "u1") Sample.withAda
    = {| code := 200; content := Profile p |}
    /\ public_interests p = [units "Chess"; units "Hiking"].
Proof.
  destruct (AccountFacts.register_then_read (rt := Sample.runtime)
              (units "u1")
              (Sample.account "Ada Lovelace" "Ada.Lovelace@UZH.ch")
              initial)
    as (data & p & Hs & Hget & _ & _ & Hi); [vm_compute; reflexivity |].
  exists p. split; [exact Hget |].
  vm_compute in Hs. injection Hs as <-. apply Hi.
  repeat constructor; vm_compute; intros H;
    repeat (apply elem_of_cons in H as [H | H]; [discriminate H |]);
    by apply elem_of_nil in H.
Defined.

End MoreExamples.
